(** * Trade confirmation workflow of the Binance Telegram bot

    A shallow embedding of [achat_buy_telegram.py]: the pending-order
    dictionary, the buy/sell command handler [confirm_trade], the button
    handler [handle_button], the order execution [execute_trade] with its
    quantity adjustment, and the balance readers [get_asset_balance] and
    [get_all_balances].

    - [Decimal] follows Python's [decimal] module under the context the
      program installs at start-up ([getcontext().prec = 8], every other
      setting the default one: ROUND_HALF_EVEN, Emax = 999999,
      Emin = -999999, traps on InvalidOperation, DivisionByZero, Overflow).
    - The exchange client is an oracle: each answer is a function of the
      list of calls made so far, so answers may change from call to call.
    - Handlers run in a state-and-exception monad over [World]: the
      pending-order dictionary, the log of exchange calls and the messages
      sent to the chat.  Message texts are kept as structured values.
    - A Python [str] is held as its UTF-8 encoding; [upper] and
      [Decimal(str)] read it by code points, with the tables of Unicode
      14.0.0 (upper case, white space, decimal digits), and [Decimal(str)]
      reads a number exactly, under the limits of the decimal library.
    - Left out: logging, [query.answer()], failures of the chat transport,
      and the conversion [float(adjusted_qty)] at the order call (the call
      is logged with the decimal quantity). *)

From Stdlib Require Import ZArith NArith Lia Bool Ascii String List Zpow_facts Sorted.
From stdpp Require Import gmap strings list.

Local Open Scope string_scope.
Local Open Scope Z_scope.

(** ** Exceptions *)

Inductive exn :=
| BinanceAPIException (message : string)
| InvalidOperation
| DivisionByZero
| Overflow
| ValueError
| TypeError
| KeyError
| IndexError
| StopIteration
| OtherException (message : string).

Inductive result (A : Type) :=
| Ok (a : A)
| Raise (e : exn).
Arguments Ok {A} a.
Arguments Raise {A} e.

Definition rbind {A B} (r : result A) (k : A -> result B) : result B :=
  match r with
  | Ok a => k a
  | Raise e => Raise e
  end.

Declare Scope result_scope.
Delimit Scope result_scope with result.
Notation "x <-r e ; k" := (rbind e (fun x => k))
  (at level 100, e at next level, right associativity) : result_scope.

(** ** Decimal numbers under the program's context *)

Module Dec.

Definition prec : Z := 8.
Definition Emax : Z := 999999.
Definition Emin : Z := -999999.
Definition Etiny : Z := Emin - prec + 1.
Definition Etop : Z := Emax - prec + 1.

(** [Finite s c e] is (-1)^s * c * 10^e, as [as_tuple()] shows it. *)
Inductive Decimal :=
| Finite (sign : bool) (coef : N) (exp : Z)
| Infinity (sign : bool)
| NaN (sign : bool) (signaling : bool).

Definition zero : Decimal := Finite false 0 0.
Definition one : Decimal := Finite false 1 0.

Definition is_nan (d : Decimal) : bool :=
  match d with NaN _ _ => true | _ => false end.

Definition is_zero (d : Decimal) : bool :=
  match d with Finite _ c _ => (c =? 0)%N | _ => false end.

Definition sign_of (d : Decimal) : bool :=
  match d with Finite s _ _ | Infinity s | NaN s _ => s end.

Definition pow10 (k : Z) : N := (10 ^ Z.to_N k)%N.

(** Number of characters of the coefficient string. *)
Fixpoint ndigits_fuel (fuel : nat) (c : N) : Z :=
  match fuel with
  | O => 0
  | S f => if (c <? 10)%N then 1 else 1 + ndigits_fuel f (c / 10)%N
  end.

Definition ndigits (c : N) : Z := ndigits_fuel (S (N.size_nat c)) c.

Definition adjusted (c : N) (e : Z) : Z := e + ndigits c - 1.

(** Drop the last [k] digits of [c], rounding half to even. *)
Definition round_half_even (c : N) (k : Z) : N :=
  let p := pow10 k in
  let q := (c / p)%N in
  let r := (c mod p)%N in
  if (p <? 2 * r)%N || ((2 * r =? p)%N && N.odd q) then (q + 1)%N else q.

(** [_fix]: round to the context's precision and exponent range. *)
Definition fix_ (d : Decimal) : result Decimal :=
  match d with
  | Finite s c e =>
      if (c =? 0)%N then Ok (Finite s 0 (Z.min (Z.max e Etiny) Emax))
      else
        let exp_min := ndigits c + e - prec in
        if Etop <? exp_min then Raise Overflow
        else
          let exp_min := Z.max exp_min Etiny in
          if e <? exp_min then
            let coeff := round_half_even c (exp_min - e) in
            let '(coeff, exp_min) :=
              if prec <? ndigits coeff then ((coeff / 10)%N, exp_min + 1)
              else (coeff, exp_min) in
            if Etop <? exp_min then Raise Overflow
            else Ok (Finite s coeff exp_min)
          else Ok d
  | _ => Ok d
  end.

(** [_check_nans]: a signaling NaN traps, a quiet NaN is the result. *)
Definition check_nans (a b : Decimal) : option (result Decimal) :=
  match a, b with
  | NaN _ true, _ | _, NaN _ true => Some (Raise InvalidOperation)
  | NaN s false, _ => Some (Ok (NaN s false))
  | _, NaN s false => Some (Ok (NaN s false))
  | _, _ => None
  end.

(** Exact ordering of two finite numbers, on a common exponent. *)
Definition signed (s : bool) (c : N) : Z :=
  if s then - Z.of_N c else Z.of_N c.

Definition fin_compare (s1 : bool) (c1 : N) (e1 : Z)
                       (s2 : bool) (c2 : N) (e2 : Z) : comparison :=
  let m := Z.min e1 e2 in
  Z.compare (signed s1 (c1 * pow10 (e1 - m))) (signed s2 (c2 * pow10 (e2 - m))).

Definition inf_rank (d : Decimal) : Z :=
  match d with
  | Infinity false => 1
  | Infinity true => -1
  | _ => 0
  end.

(** [_cmp], for operands that are not NaN. *)
Definition cmp (a b : Decimal) : comparison :=
  match a, b with
  | Finite s1 c1 e1, Finite s2 c2 e2 => fin_compare s1 c1 e1 s2 c2 e2
  | _, _ => Z.compare (inf_rank a) (inf_rank b)
  end.

(** [a > b] and [a < b]: an ordering comparison with a NaN traps. *)
Definition gt (a b : Decimal) : result bool :=
  if is_nan a || is_nan b then Raise InvalidOperation
  else Ok (match cmp a b with Gt => true | _ => false end).

Definition lt (a b : Decimal) : result bool :=
  if is_nan a || is_nan b then Raise InvalidOperation
  else Ok (match cmp a b with Lt => true | _ => false end).

(** [a * b] *)
Definition mul (a b : Decimal) : result Decimal :=
  match check_nans a b with
  | Some r => r
  | None =>
      let s := xorb (sign_of a) (sign_of b) in
      match a, b with
      | Finite _ c1 e1, Finite _ c2 e2 => fix_ (Finite s (c1 * c2) (e1 + e2))
      | Infinity _, _ => if is_zero b then Raise InvalidOperation else Ok (Infinity s)
      | _, _ => if is_zero a then Raise InvalidOperation else Ok (Infinity s)
      end
  end.

(** Exact quotients move towards the ideal exponent. *)
Fixpoint strip_zeros (fuel : nat) (coeff : N) (exp ideal : Z) : N * Z :=
  match fuel with
  | O => (coeff, exp)
  | S f =>
      if (exp <? ideal) && (coeff mod 10 =? 0)%N
      then strip_zeros f (coeff / 10)%N (exp + 1) ideal
      else (coeff, exp)
  end.

(** [a / b] *)
Definition div (a b : Decimal) : result Decimal :=
  match check_nans a b with
  | Some r => r
  | None =>
      let s := xorb (sign_of a) (sign_of b) in
      match a, b with
      | Infinity _, Infinity _ => Raise InvalidOperation
      | Infinity _, _ => Ok (Infinity s)
      | _, Infinity _ => Ok (Finite s 0 Etiny)
      | Finite _ c1 e1, Finite _ c2 e2 =>
          if (c2 =? 0)%N then
            if (c1 =? 0)%N then Raise InvalidOperation else Raise DivisionByZero
          else if (c1 =? 0)%N then fix_ (Finite s 0 (e1 - e2))
          else
            let shift := ndigits c2 - ndigits c1 + prec + 1 in
            let exp := e1 - e2 - shift in
            let num := if 0 <=? shift then (c1 * pow10 shift)%N else c1 in
            let den := if 0 <=? shift then c2 else (c2 * pow10 (- shift))%N in
            let coeff := (num / den)%N in
            let remainder := (num mod den)%N in
            let '(coeff, exp) :=
              if (remainder =? 0)%N
              then strip_zeros (Z.to_nat (e1 - e2 - exp)) coeff exp (e1 - e2)
              else ((if (coeff mod 5 =? 0)%N then coeff + 1 else coeff)%N, exp) in
            fix_ (Finite s coeff exp)
      | _, _ => Raise InvalidOperation
      end
  end.

(** [a // b] *)
Definition floordiv (a b : Decimal) : result Decimal :=
  match check_nans a b with
  | Some r => r
  | None =>
      let s := xorb (sign_of a) (sign_of b) in
      match a, b with
      | Infinity _, Infinity _ => Raise InvalidOperation
      | Infinity _, _ => Ok (Infinity s)
      | Finite _ _ _, Infinity _ => Ok (Finite s 0 0)
      | Finite _ c1 e1, Finite _ c2 e2 =>
          if (c2 =? 0)%N then
            if (c1 =? 0)%N then Raise InvalidOperation else Raise DivisionByZero
          else
            let expdiff := adjusted c1 e1 - adjusted c2 e2 in
            if (c1 =? 0)%N || (expdiff <=? -2) then Ok (Finite s 0 0)
            else if expdiff <=? prec then
              let op1 := if e2 <=? e1 then (c1 * pow10 (e1 - e2))%N else c1 in
              let op2 := if e2 <=? e1 then c2 else (c2 * pow10 (e2 - e1))%N in
              let q := (op1 / op2)%N in
              if (q <? pow10 prec)%N then Ok (Finite s q 0)
              else Raise InvalidOperation
            else Raise InvalidOperation
      | _, _ => Raise InvalidOperation
      end
  end.

(** [_rescale] of a finite number to exponent [exp]. *)
Definition rescale (s : bool) (c : N) (e exp : Z) : Decimal :=
  if (c =? 0)%N then Finite s 0 exp
  else if exp <=? e then Finite s (c * pow10 (e - exp)) exp
  else Finite s (round_half_even c (exp - e)) exp.

(** [a.quantize(b)] *)
Definition quantize (a b : Decimal) : result Decimal :=
  match check_nans a b with
  | Some r => r
  | None =>
      match a, b with
      | Infinity _, Infinity _ => Ok a
      | Finite s c e, Finite _ _ exp =>
          if negb ((Etiny <=? exp) && (exp <=? Emax)) then Raise InvalidOperation
          else if (c =? 0)%N then fix_ (Finite s 0 exp)
          else if Emax <? adjusted c e then Raise InvalidOperation
          else if prec <? adjusted c e - exp + 1 then Raise InvalidOperation
          else
            match rescale s c e exp with
            | Finite s' c' e' =>
                if Emax <? adjusted c' e' then Raise InvalidOperation
                else if prec <? ndigits c' then Raise InvalidOperation
                else fix_ (Finite s' c' e')
            | other => Ok other
            end
      | _, _ => Raise InvalidOperation
      end
  end.

(** [-a] *)
Definition neg (a : Decimal) : result Decimal :=
  match a with
  | NaN _ true => Raise InvalidOperation
  | NaN s false => Ok (NaN s false)
  | Infinity s => Ok (Infinity (negb s))
  | Finite s c e =>
      if (c =? 0)%N then fix_ (Finite false c e) else fix_ (Finite (negb s) c e)
  end.

(** [a.normalize()] *)
Fixpoint strip_all (fuel : nat) (coeff : N) (exp : Z) : N * Z :=
  match fuel with
  | O => (coeff, exp)
  | S f =>
      if (coeff mod 10 =? 0)%N && (exp <? Emax)
      then strip_all f (coeff / 10)%N (exp + 1)
      else (coeff, exp)
  end.

Definition normalize (a : Decimal) : result Decimal :=
  match a with
  | NaN _ true => Raise InvalidOperation
  | NaN s false => Ok (NaN s false)
  | _ =>
      (dup <-r fix_ a;
       match dup with
       | Finite s c e =>
           if (c =? 0)%N then Ok (Finite s 0 0)
           else let '(c', e') := strip_all (Z.to_nat (ndigits c)) c e in
                Ok (Finite s c' e')
       | other => Ok other
       end)%result
  end.

(** [Decimal(10) ** -precision] for an integer [precision >= 0]: the power
    is exact, then rounded into the exponent range. *)
Definition ten_pow_neg (precision : Z) : result Decimal :=
  if precision =? 0 then Ok one
  else if - precision <? Etiny then Ok (Finite false 0 Etiny)
  else Ok (Finite false 1 (- precision)).

(** [abs(a.as_tuple().exponent)]: the exponent of a special value is a
    letter, whose [abs] is a TypeError. *)
Definition abs_exponent (a : Decimal) : result Z :=
  match a with
  | Finite _ _ e => Ok (Z.abs e)
  | _ => Raise TypeError
  end.

End Dec.

(** ** Strings *)

Module Str.

Definition is_digit (a : ascii) : bool :=
  let n := nat_of_ascii a in (48 <=? n)%nat && (n <=? 57)%nat.

Definition is_upper (a : ascii) : bool :=
  let n := nat_of_ascii a in (65 <=? n)%nat && (n <=? 90)%nat.

Definition lower_ascii (a : ascii) : ascii :=
  if is_upper a then ascii_of_nat (nat_of_ascii a + 32) else a.

(** *** Text as UTF-8

    A Python [str] is a sequence of code points; it is held here as its
    UTF-8 encoding.  [startswith], [endswith], [replace], [split] and [==]
    with ASCII arguments act on the bytes as they act on the code points;
    [upper] and the reading of a number go through the code points. *)

Definition continuation (a : ascii) : option N :=
  let b := N_of_ascii a in
  if (128 <=? b)%N && (b <? 192)%N then Some (b - 128)%N else None.

(** The code point at the head of [s] and the text after it; [None] when
    [s] is empty or does not start with a well-formed sequence (no
    overlong forms, no surrogates, nothing above U+10FFFF). *)
Definition decode (s : string) : option (N * string) :=
  match s with
  | EmptyString => None
  | String a r =>
      let b := N_of_ascii a in
      if (b <? 128)%N then Some (b, r)
      else if (b <? 194)%N then None
      else if (b <? 224)%N then
        match r with
        | String a1 r1 =>
            match continuation a1 with
            | Some c1 => Some (((b - 192) * 64 + c1)%N, r1)
            | None => None
            end
        | _ => None
        end
      else if (b <? 240)%N then
        match r with
        | String a1 (String a2 r2) =>
            match continuation a1, continuation a2 with
            | Some c1, Some c2 =>
                let cp := ((b - 224) * 4096 + c1 * 64 + c2)%N in
                if (cp <? 2048)%N || ((55296 <=? cp)%N && (cp <=? 57343)%N)
                then None
                else Some (cp, r2)
            | _, _ => None
            end
        | _ => None
        end
      else if (b <? 245)%N then
        match r with
        | String a1 (String a2 (String a3 r3)) =>
            match continuation a1, continuation a2, continuation a3 with
            | Some c1, Some c2, Some c3 =>
                let cp := ((b - 240) * 262144 + c1 * 4096 + c2 * 64 + c3)%N in
                if (cp <? 65536)%N || (1114111 <? cp)%N then None
                else Some (cp, r3)
            | _, _, _ => None
            end
        | _ => None
        end
      else None
  end.

Definition encode (cp : N) : string :=
  let lead (n : N) := String (ascii_of_N n) in
  let cont (n : N) := String (ascii_of_N (128 + n mod 64)%N) in
  if (cp <? 128)%N then lead cp EmptyString
  else if (cp <? 2048)%N then
    lead (192 + cp / 64)%N (cont cp EmptyString)
  else if (cp <? 65536)%N then
    lead (224 + cp / 4096)%N (cont (cp / 64)%N (cont cp EmptyString))
  else
    lead (240 + cp / 262144)%N
         (cont (cp / 4096)%N (cont (cp / 64)%N (cont cp EmptyString))).

(** A character of a text: a code point, or a byte that belongs to no
    well-formed sequence (the encoding of a [str] has none). *)
Inductive char :=
| Char (cp : N)
| Stray (b : ascii).

Fixpoint chars_from (fuel : nat) (s : string) : list char :=
  match fuel with
  | O => []
  | S f =>
      match decode s with
      | Some (cp, rest) => Char cp :: chars_from f rest
      | None =>
          match s with
          | String a r => Stray a :: chars_from f r
          | EmptyString => []
          end
      end
  end.

(** The characters of [s]; each takes at least one byte, so the length of
    [s] is fuel enough. *)
Definition chars (s : string) : list char := chars_from (String.length s) s.

(** The simple upper-case mappings of Unicode 14.0.0, as runs
    [(first, last, step, target)]: the code points [first], [first + step],
    ... up to [last] map to [target], [target + step], ... *)
Definition upper_runs : list (N * N * N * N) :=
  [(97, 122, 1, 65); (181, 181, 1, 924); (224, 246, 1, 192);
   (248, 254, 1, 216); (255, 255, 1, 376); (257, 303, 2, 256);
   (305, 305, 1, 73); (307, 311, 2, 306); (314, 328, 2, 313);
   (331, 375, 2, 330); (378, 382, 2, 377); (383, 383, 1, 83);
   (384, 384, 1, 579); (387, 389, 2, 386); (392, 392, 1, 391);
   (396, 396, 1, 395); (402, 402, 1, 401); (405, 405, 1, 502);
   (409, 409, 1, 408); (410, 410, 1, 573); (414, 414, 1, 544);
   (417, 421, 2, 416); (424, 424, 1, 423); (429, 429, 1, 428);
   (432, 432, 1, 431); (436, 438, 2, 435); (441, 441, 1, 440);
   (445, 445, 1, 444); (447, 447, 1, 503); (453, 453, 1, 452);
   (454, 454, 1, 452); (456, 456, 1, 455); (457, 457, 1, 455);
   (459, 459, 1, 458); (460, 460, 1, 458); (462, 476, 2, 461);
   (477, 477, 1, 398); (479, 495, 2, 478); (498, 498, 1, 497);
   (499, 499, 1, 497); (501, 501, 1, 500); (505, 543, 2, 504);
   (547, 563, 2, 546); (572, 572, 1, 571); (575, 576, 1, 11390);
   (578, 578, 1, 577); (583, 591, 2, 582); (592, 592, 1, 11375);
   (593, 593, 1, 11373); (594, 594, 1, 11376); (595, 595, 1, 385);
   (596, 596, 1, 390); (598, 599, 1, 393); (601, 601, 1, 399);
   (603, 603, 1, 400); (604, 604, 1, 42923); (608, 608, 1, 403);
   (609, 609, 1, 42924); (611, 611, 1, 404); (613, 613, 1, 42893);
   (614, 614, 1, 42922); (616, 616, 1, 407); (617, 617, 1, 406);
   (618, 618, 1, 42926); (619, 619, 1, 11362); (620, 620, 1, 42925);
   (623, 623, 1, 412); (625, 625, 1, 11374); (626, 626, 1, 413);
   (629, 629, 1, 415); (637, 637, 1, 11364); (640, 640, 1, 422);
   (642, 642, 1, 42949); (643, 643, 1, 425); (647, 647, 1, 42929);
   (648, 648, 1, 430); (649, 649, 1, 580); (650, 651, 1, 433);
   (652, 652, 1, 581); (658, 658, 1, 439); (669, 669, 1, 42930);
   (670, 670, 1, 42928); (837, 837, 1, 921); (881, 883, 2, 880);
   (887, 887, 1, 886); (891, 893, 1, 1021); (940, 940, 1, 902);
   (941, 943, 1, 904); (945, 961, 1, 913); (962, 962, 1, 931);
   (963, 971, 1, 931); (972, 972, 1, 908); (973, 974, 1, 910);
   (976, 976, 1, 914); (977, 977, 1, 920); (981, 981, 1, 934);
   (982, 982, 1, 928); (983, 983, 1, 975); (985, 1007, 2, 984);
   (1008, 1008, 1, 922); (1009, 1009, 1, 929); (1010, 1010, 1, 1017);
   (1011, 1011, 1, 895); (1013, 1013, 1, 917); (1016, 1016, 1, 1015);
   (1019, 1019, 1, 1018); (1072, 1103, 1, 1040); (1104, 1119, 1, 1024);
   (1121, 1153, 2, 1120); (1163, 1215, 2, 1162); (1218, 1230, 2, 1217);
   (1231, 1231, 1, 1216); (1233, 1327, 2, 1232); (1377, 1414, 1, 1329);
   (4304, 4346, 1, 7312); (4349, 4351, 1, 7357); (5112, 5117, 1, 5104);
   (7296, 7296, 1, 1042); (7297, 7297, 1, 1044); (7298, 7298, 1, 1054);
   (7299, 7300, 1, 1057); (7301, 7301, 1, 1058); (7302, 7302, 1, 1066);
   (7303, 7303, 1, 1122); (7304, 7304, 1, 42570); (7545, 7545, 1, 42877);
   (7549, 7549, 1, 11363); (7566, 7566, 1, 42950); (7681, 7829, 2, 7680);
   (7835, 7835, 1, 7776); (7841, 7935, 2, 7840); (7936, 7943, 1, 7944);
   (7952, 7957, 1, 7960); (7968, 7975, 1, 7976); (7984, 7991, 1, 7992);
   (8000, 8005, 1, 8008); (8017, 8023, 2, 8025); (8032, 8039, 1, 8040);
   (8048, 8049, 1, 8122); (8050, 8053, 1, 8136); (8054, 8055, 1, 8154);
   (8056, 8057, 1, 8184); (8058, 8059, 1, 8170); (8060, 8061, 1, 8186);
   (8112, 8113, 1, 8120); (8126, 8126, 1, 921); (8144, 8145, 1, 8152);
   (8160, 8161, 1, 8168); (8165, 8165, 1, 8172); (8526, 8526, 1, 8498);
   (8560, 8575, 1, 8544); (8580, 8580, 1, 8579); (9424, 9449, 1, 9398);
   (11312, 11359, 1, 11264); (11361, 11361, 1, 11360);
   (11365, 11365, 1, 570); (11366, 11366, 1, 574); (11368, 11372, 2, 11367);
   (11379, 11379, 1, 11378); (11382, 11382, 1, 11381);
   (11393, 11491, 2, 11392); (11500, 11502, 2, 11499);
   (11507, 11507, 1, 11506); (11520, 11557, 1, 4256);
   (11559, 11559, 1, 4295); (11565, 11565, 1, 4301);
   (42561, 42605, 2, 42560); (42625, 42651, 2, 42624);
   (42787, 42799, 2, 42786); (42803, 42863, 2, 42802);
   (42874, 42876, 2, 42873); (42879, 42887, 2, 42878);
   (42892, 42892, 1, 42891); (42897, 42899, 2, 42896);
   (42900, 42900, 1, 42948); (42903, 42921, 2, 42902);
   (42933, 42947, 2, 42932); (42952, 42954, 2, 42951);
   (42961, 42961, 1, 42960); (42967, 42969, 2, 42966);
   (42998, 42998, 1, 42997); (43859, 43859, 1, 42931);
   (43888, 43967, 1, 5024); (65345, 65370, 1, 65313);
   (66600, 66639, 1, 66560); (66776, 66811, 1, 66736);
   (66967, 67003, 2, 66928); (66968, 66976, 2, 66929);
   (66980, 66992, 2, 66941); (66996, 67000, 2, 66957);
   (67004, 67004, 1, 66965); (68800, 68850, 1, 68736);
   (71872, 71903, 1, 71840); (93792, 93823, 1, 93760);
   (125218, 125251, 1, 125184)]%N.

(** The code points whose upper case is more than one code point
    (SpecialCasing). *)
Definition upper_special : list (N * list N) :=
  [(223, [83; 83]); (329, [700; 78]); (496, [74; 780]);
   (912, [921; 776; 769]); (944, [933; 776; 769]); (1415, [1333; 1362]);
   (7830, [72; 817]); (7831, [84; 776]); (7832, [87; 778]);
   (7833, [89; 778]); (7834, [65; 702]); (8016, [933; 787]);
   (8018, [933; 787; 768]); (8020, [933; 787; 769]); (8022, [933; 787; 834]);
   (8064, [7944; 921]); (8065, [7945; 921]); (8066, [7946; 921]);
   (8067, [7947; 921]); (8068, [7948; 921]); (8069, [7949; 921]);
   (8070, [7950; 921]); (8071, [7951; 921]); (8072, [7944; 921]);
   (8073, [7945; 921]); (8074, [7946; 921]); (8075, [7947; 921]);
   (8076, [7948; 921]); (8077, [7949; 921]); (8078, [7950; 921]);
   (8079, [7951; 921]); (8080, [7976; 921]); (8081, [7977; 921]);
   (8082, [7978; 921]); (8083, [7979; 921]); (8084, [7980; 921]);
   (8085, [7981; 921]); (8086, [7982; 921]); (8087, [7983; 921]);
   (8088, [7976; 921]); (8089, [7977; 921]); (8090, [7978; 921]);
   (8091, [7979; 921]); (8092, [7980; 921]); (8093, [7981; 921]);
   (8094, [7982; 921]); (8095, [7983; 921]); (8096, [8040; 921]);
   (8097, [8041; 921]); (8098, [8042; 921]); (8099, [8043; 921]);
   (8100, [8044; 921]); (8101, [8045; 921]); (8102, [8046; 921]);
   (8103, [8047; 921]); (8104, [8040; 921]); (8105, [8041; 921]);
   (8106, [8042; 921]); (8107, [8043; 921]); (8108, [8044; 921]);
   (8109, [8045; 921]); (8110, [8046; 921]); (8111, [8047; 921]);
   (8114, [8122; 921]); (8115, [913; 921]); (8116, [902; 921]);
   (8118, [913; 834]); (8119, [913; 834; 921]); (8124, [913; 921]);
   (8130, [8138; 921]); (8131, [919; 921]); (8132, [905; 921]);
   (8134, [919; 834]); (8135, [919; 834; 921]); (8140, [919; 921]);
   (8146, [921; 776; 768]); (8147, [921; 776; 769]); (8150, [921; 834]);
   (8151, [921; 776; 834]); (8162, [933; 776; 768]); (8163, [933; 776; 769]);
   (8164, [929; 787]); (8166, [933; 834]); (8167, [933; 776; 834]);
   (8178, [8186; 921]); (8179, [937; 921]); (8180, [911; 921]);
   (8182, [937; 834]); (8183, [937; 834; 921]); (8188, [937; 921]);
   (64256, [70; 70]); (64257, [70; 73]); (64258, [70; 76]);
   (64259, [70; 70; 73]); (64260, [70; 70; 76]); (64261, [83; 84]);
   (64262, [83; 84]); (64275, [1348; 1350]); (64276, [1348; 1333]);
   (64277, [1348; 1339]); (64278, [1358; 1350]); (64279, [1348; 1341])]%N.

(** [Py_UNICODE_ISSPACE], as ranges. *)
Definition space_ranges : list (N * N) :=
  [(9, 13); (28, 32); (133, 133); (160, 160); (5760, 5760); (8192, 8202);
   (8232, 8233); (8239, 8239); (8287, 8287); (12288, 12288)]%N.

(** The zero of every run of ten decimal digits (category Nd). *)
Definition digit_zeros : list N :=
  [48; 1632; 1776; 1984; 2406; 2534; 2662; 2790; 2918; 3046; 3174; 3302;
   3430; 3558; 3664; 3792; 3872; 4160; 4240; 6112; 6160; 6470; 6608; 6784;
   6800; 6992; 7088; 7232; 7248; 42528; 43216; 43264; 43472; 43504; 43600;
   44016; 65296; 66720; 68912; 69734; 69872; 69942; 70096; 70384; 70736;
   70864; 71248; 71360; 71472; 71904; 72016; 72784; 73040; 73120; 92768;
   92864; 93008; 120782; 120792; 120802; 120812; 120822; 123200; 123632;
   125264; 130032]%N.

(** [_PyUnicode_ToUpperFull] *)
Definition upper_code_point (cp : N) : list N :=
  match find (fun x => (fst x =? cp)%N) upper_special with
  | Some (_, full) => full
  | None =>
      match find (fun '(first, last, step, _) =>
                    (first <=? cp)%N && (cp <=? last)%N
                    && ((cp - first) mod step =? 0)%N) upper_runs with
      | Some (first, _, _, target) => [(target + (cp - first))%N]
      | None => [cp]
      end
  end.

Definition upper_char (c : char) : string :=
  match c with
  | Char cp =>
      fold_right (fun u r => encode u ++ r) EmptyString (upper_code_point cp)
  | Stray b => String b EmptyString
  end.

(** [s.upper()]: every code point is replaced by its full upper case,
    whatever stands around it. *)
Definition upper (s : string) : string :=
  fold_right (fun c r => upper_char c ++ r) EmptyString (chars s).

Definition is_space (cp : N) : bool :=
  existsb (fun '(first, last) => (first <=? cp)%N && (cp <=? last)%N) space_ranges.

(** [Py_UNICODE_TODECIMAL] *)
Definition decimal_digit (cp : N) : option N :=
  match find (fun z => (z <=? cp)%N && (cp <? z + 10)%N) digit_zeros with
  | Some z => Some (cp - z)%N
  | None => None
  end.

Fixpoint lower (s : string) : string :=
  match s with
  | EmptyString => EmptyString
  | String a r => String (lower_ascii a) (lower r)
  end.

(** [s.startswith(p)] *)
Fixpoint startswith (s p : string) : bool :=
  match p, s with
  | EmptyString, _ => true
  | String a p', String b s' => Ascii.eqb a b && startswith s' p'
  | String _ _, EmptyString => false
  end.

Fixpoint drop (n : nat) (s : string) : string :=
  match n, s with
  | O, _ => s
  | S n', String _ r => drop n' r
  | S _, EmptyString => EmptyString
  end.

(** [s.endswith(p)] *)
Definition endswith (s p : string) : bool :=
  (String.length p <=? String.length s)%nat
  && String.eqb (drop (String.length s - String.length p) s) p.

(** [s.replace(old, new)] for a non-empty [old]: occurrences are found
    from the left and do not overlap; [skip] counts the characters of the
    occurrence just replaced that are still to be passed over. *)
Fixpoint replace_from (skip : nat) (old new s : string) : string :=
  match s with
  | EmptyString => EmptyString
  | String a r =>
      match skip with
      | S k => replace_from k old new r
      | O =>
          if startswith s old
          then new ++ replace_from (String.length old - 1) old new r
          else String a (replace_from O old new r)
      end
  end.

Definition replace (s old new : string) : string := replace_from O old new s.

(** [s.split(sep)] for a one-character separator. *)
Fixpoint split_acc (sep : ascii) (cur : string) (s : string) : list string :=
  match s with
  | EmptyString => [String.rev cur]
  | String a r =>
      if Ascii.eqb a sep then String.rev cur :: split_acc sep EmptyString r
      else split_acc sep (String a cur) r
  end.

Definition split (s : string) (sep : ascii) : list string :=
  split_acc sep EmptyString s.

(** Longest prefix of digits, and the rest. *)
Fixpoint span_digits (s : string) : string * string :=
  match s with
  | String a r =>
      if is_digit a then let '(d, rest) := span_digits r in (String a d, rest)
      else (EmptyString, s)
  | EmptyString => (EmptyString, EmptyString)
  end.

Fixpoint digits_value (acc : N) (s : string) : N :=
  match s with
  | String a r => digits_value (10 * acc + (N_of_ascii a - 48))%N r
  | EmptyString => acc
  end.

End Str.

(** ** [Decimal(str)] *)

Module DecParse.
Import Dec Str.

(** The largest precision and exponent of the decimal library, and the
    smallest exponent it can hold: a text is read exactly, under these
    limits and not under the program's context. *)
Definition MAX_PREC : Z := 999999999999999999.
Definition MAX_EMAX : Z := 999999999999999999.
Definition MIN_ETINY : Z := -1999999999999999997.

Fixpoint lstrip (l : list char) : list char :=
  match l with
  | Char cp :: r => if is_space cp then lstrip r else l
  | _ => l
  end.

(** The text between the white space at both ends. *)
Definition strip (l : list char) : list char := rev (lstrip (rev (lstrip l))).

(** What is left of the characters as ASCII text: an underscore is
    skipped, an ASCII character is kept, other white space becomes a blank
    and a decimal digit of any script its ASCII digit.  Any other
    character (NUL too) leaves nothing to read. *)
Fixpoint as_ascii (l : list char) : option string :=
  match l with
  | [] => Some EmptyString
  | Stray _ :: _ => None
  | Char cp :: r =>
      if (cp =? 95)%N then as_ascii r
      else
        let keep (n : N) := option_map (String (ascii_of_N n)) (as_ascii r) in
        if (0 <? cp)%N && (cp <=? 127)%N then keep cp
        else if is_space cp then keep 32%N
        else match decimal_digit cp with
             | Some d => keep (48 + d)%N
             | None => None
             end
  end.

(** [numeric_as_ascii] of the constructor. *)
Definition numeric_as_ascii (value : string) : option string :=
  as_ascii (strip (chars value)).

Definition take_sign (s : string) : bool * string :=
  match s with
  | String "-" r => (true, r)
  | String "+" r => (false, r)
  | _ => (false, s)
  end.

(** The exponent part: nothing, or E, an optional sign and digits. *)
Definition parse_exponent (s : string) : option Z :=
  match s with
  | EmptyString => Some 0
  | String a r =>
      if Ascii.eqb (lower_ascii a) "e" then
        let '(neg, r') := take_sign r in
        let '(d, rest) := span_digits r' in
        match d, rest with
        | String _ _, EmptyString =>
            let v := Z.of_N (digits_value 0 d) in
            Some (if neg then - v else v)
        | _, _ => None
        end
      else None
  end.

(** A number is read only when it needs no rounding and no clamping
    under the largest context. *)
Definition exact (fracdigits : nat) (c : N) (e : Z) : bool :=
  (Z.of_nat fracdigits <=? MAX_PREC)
  && (ndigits c <=? MAX_PREC)
  && (adjusted c e <=? MAX_EMAX)
  && (MIN_ETINY <=? e).

Definition parse_number (sign : bool) (s : string) : option Decimal :=
  let '(intpart, r1) := span_digits s in
  let '(fracpart, r2) :=
    match r1 with
    | String "." r => span_digits r
    | _ => (EmptyString, r1)
    end in
  if (String.length intpart + String.length fracpart =? 0)%nat then None
  else
    match parse_exponent r2 with
    | Some e =>
        let c := digits_value 0 (intpart ++ fracpart) in
        let e := e - Z.of_nat (String.length fracpart) in
        if exact (String.length fracpart) c e then Some (Finite sign c e)
        else None
    | None => None
    end.

Definition parse_special (sign : bool) (s : string) : option Decimal :=
  let l := lower s in
  if String.eqb l "inf" || String.eqb l "infinity" then Some (Infinity sign)
  else
    let '(signaling, r) :=
      match l with
      | String "s" r' => (true, r')
      | _ => (false, l)
      end in
    if startswith r "nan" then
      let '(payload, rest) := span_digits (drop 3 r) in
      match rest with
      | EmptyString =>
          if ndigits (digits_value 0 payload) <=? MAX_PREC
          then Some (NaN sign signaling) else None
      | _ => None
      end
    else None.

(** A text that is no numeric literal raises ConversionSyntax, an
    InvalidOperation (and so no ValueError). *)
Definition Decimal_of_string (value : string) : result Decimal :=
  match numeric_as_ascii value with
  | None => Raise InvalidOperation
  | Some text =>
      let '(sign, body) := take_sign text in
      match parse_number sign body with
      | Some d => Ok d
      | None =>
          match parse_special sign body with
          | Some d => Ok d
          | None => Raise InvalidOperation
          end
      end
  end.

End DecParse.

Import Dec Str DecParse.

(** ** Data of the program *)

(** An entry of [pending_orders]. *)
Record PendingOrder := {
  pair : string;
  quantity : Decimal;
  is_buy : bool
}.

(** What [check_symbol_rules] returns. *)
Record Rules := {
  min_qty : Decimal;
  step_size : Decimal
}.

(** An element of [info['filters']]; a key may be missing. *)
Record Filter := {
  filterType : string;
  minQty : option string;
  stepSize : option string
}.

(** The order dictionary the exchange answers with.  [fills] is [None]
    when the key is absent; each fill may or may not carry a price. *)
Record Order := {
  symbol : string;
  executedQty : string;
  cummulativeQuoteQty : string;
  fills : option (list (option string))
}.

(** An entry of the list built by [get_all_balances]. *)
Record Balance := {
  asset : string;
  free : Decimal;
  value : Decimal
}.

(** ** The exchange client *)

(** Calls of [binance_client].  The orders carry the adjusted quantity;
    the program hands it over as [float(adjusted_qty)]. *)
Inductive Call :=
| GetAssetBalance (asset : string)
| GetAccount
| GetSymbolTicker (symbol : string)
| GetSymbolInfo (symbol : string)
| OrderMarketBuy (symbol : string) (quantity : Decimal)
| OrderMarketSell (symbol : string) (quantity : Decimal).

Definition is_order (c : Call) : bool :=
  match c with
  | OrderMarketBuy _ _ | OrderMarketSell _ _ => true
  | _ => false
  end.

(** Every answer depends on the calls made before it.
    - [client_get_asset_balance]: the ['free'] field, [None] when the
      client returns no dictionary;
    - [client_get_account]: the (asset, free) pairs of ['balances'];
    - [client_get_symbol_ticker]: the ['price'] field;
    - [client_get_symbol_info]: [None] or the ['filters'] list. *)
Record Exchange := {
  client_get_asset_balance : list Call -> string -> result (option string);
  client_get_account : list Call -> result (list (string * string));
  client_get_symbol_ticker : list Call -> string -> result string;
  client_get_symbol_info : list Call -> string -> result (option (list Filter));
  client_order_market_buy : list Call -> string -> Decimal -> result Order;
  client_order_market_sell : list Call -> string -> Decimal -> result Order
}.

(** ** Messages sent to the chat *)

(** The second component of what [execute_trade] returns. *)
Inductive TradeError :=
| RulesUnavailable
| QuantityTooSmall (min_qty : Decimal)
| BinanceError (message : string)
| GenericError (e : exn).

Inductive Message :=
| Usage (is_buy : bool)
| UnsupportedPair
| InsufficientBalance (balance : Decimal) (asset : string)
| ConfirmationPrompt (is_buy : bool) (pair : string)
                     (quantity price total : Decimal) (confirm_data : string)
| InvalidAmount
| ErrorMessage (e : exn)
| Processing
| TradeDone (is_buy : bool) (symbol executedQty price cummulativeQuoteQty : string)
| TradeFailed (error : option TradeError)
| Expired
| Cancelled.

(** ** The state and the handler monad *)

Record World := {
  pending_orders : gmap Z PendingOrder;
  calls : list Call;
  sent : list Message
}.

Definition M (A : Type) : Type := World -> result A * World.

Definition ret {A} (a : A) : M A := fun w => (Ok a, w).

Definition raise {A} (e : exn) : M A := fun w => (Raise e, w).

Definition bind {A B} (m : M A) (k : A -> M B) : M B :=
  fun w =>
    match m w with
    | (Ok a, w') => k a w'
    | (Raise e, w') => (Raise e, w')
    end.

(** [try: m except ...: h]; the effects of [m] up to the exception stay. *)
Definition try_except {A} (m : M A) (h : exn -> M A) : M A :=
  fun w =>
    match m w with
    | (Ok a, w') => (Ok a, w')
    | (Raise e, w') => h e w'
    end.

Definition lift {A} (r : result A) : M A := fun w => (r, w).

Declare Scope handler_scope.
Delimit Scope handler_scope with handler.
Notation "x <- e ; k" := (bind e (fun x => k))
  (at level 100, e at next level, right associativity) : handler_scope.
Notation "e ;; k" := (bind e (fun _ => k))
  (at level 100, right associativity) : handler_scope.
Local Open Scope handler_scope.

(** The world after one more message, and after one more client call. *)
Definition say (w : World) (m : Message) : World :=
  {| pending_orders := pending_orders w;
     calls := calls w;
     sent := sent w ++ [m] |}.

Definition log (w : World) (c : Call) : World :=
  {| pending_orders := pending_orders w;
     calls := calls w ++ [c];
     sent := sent w |}.

(** [update.message.reply_text] and [query.edit_message_text]. *)
Definition reply_text (m : Message) : M unit := fun w => (Ok tt, say w m).

Definition edit_message_text (m : Message) : M unit := reply_text m.

(** A call of the client: logged, and answered from the log before it. *)
Definition call {A} (c : Call) (answer : list Call -> result A) : M A :=
  fun w => (answer (calls w), log w c).

(** [pending_orders.get(user_id)] *)
Definition pending_get (user_id : Z) : M (option PendingOrder) :=
  fun w => (Ok (pending_orders w !! user_id), w).

(** [pending_orders[user_id] = order] *)
Definition pending_set (user_id : Z) (order : PendingOrder) : M unit :=
  fun w => (Ok tt, {| pending_orders := <[user_id := order]> (pending_orders w);
                      calls := calls w;
                      sent := sent w |}).

(** [pending_orders.pop(user_id, None)] *)
Definition pending_pop (user_id : Z) : M unit :=
  fun w => (Ok tt, {| pending_orders := delete user_id (pending_orders w);
                      calls := calls w;
                      sent := sent w |}).

Definition stablecoins : list string := ["USDT"; "USDC"].

(** [pair.replace('USDT', '').replace('USDC', '')] *)
Definition base_asset (pair : string) : string :=
  replace (replace pair "USDT" "") "USDC" "".

(** [Decimal(10) ** -precision] is the unit of [quantize]; the adjustment
    of lines 141-143 of [execute_trade]. *)
Definition adjust_quantity (quantity step_size : Decimal) : result Decimal :=
  (precision <-r abs_exponent step_size;
   steps <-r floordiv quantity step_size;
   adjusted_qty <-r mul steps step_size;
   unit <-r ten_pow_neg precision;
   quantize adjusted_qty unit)%result.

(** [sorted(balances, key=lambda x: -x['value'])]: the keys first, then a
    stable sort that compares keys with [<]. *)
Fixpoint insert_by_key (x : Decimal * Balance) (l : list (Decimal * Balance))
  : result (list (Decimal * Balance)) :=
  match l with
  | [] => Ok [x]
  | y :: r =>
      (before <-r lt (fst x) (fst y);
       if (before : bool) then Ok (x :: y :: r)
       else (r' <-r insert_by_key x r; Ok (y :: r')))%result
  end.

Fixpoint sort_keyed (done todo : list (Decimal * Balance))
  : result (list (Decimal * Balance)) :=
  match todo with
  | [] => Ok done
  | x :: rest => (done' <-r insert_by_key x done; sort_keyed done' rest)%result
  end.

Fixpoint keys_of (l : list Balance) : result (list (Decimal * Balance)) :=
  match l with
  | [] => Ok []
  | b :: r =>
      (k <-r neg (value b); ks <-r keys_of r; Ok ((k, b) :: ks))%result
  end.

Definition sorted_by_value (l : list Balance) : result (list Balance) :=
  (ks <-r keys_of l; s <-r sort_keyed [] ks; Ok (map snd s))%result.

Section Bot.

Variable ex : Exchange.

(** [get_asset_balance]: any failure of the lookup becomes [Decimal(0)]. *)
Definition get_asset_balance (asset : string) : M Decimal :=
  try_except
    (balance <- call (GetAssetBalance asset)
                     (fun h => client_get_asset_balance ex h asset);
     match balance with
     | Some free => lift (Decimal_of_string free)
     | None => raise TypeError
     end)
    (fun _ => ret (Finite false 0 0)).

(** The [for stablecoin in ['USDT', 'USDC'] ... else] loop of
    [get_all_balances]: the first pair whose price is fetched, parsed and
    multiplied without an exception gives the value. *)
Fixpoint value_loop (asset : string) (free : Decimal) (coins : list string)
  : M Decimal :=
  match coins with
  | [] => ret (Finite false 0 0)
  | stablecoin :: rest =>
      try_except
        (let ticker := asset ++ stablecoin in
         price_s <- call (GetSymbolTicker ticker)
                         (fun h => client_get_symbol_ticker ex h ticker);
         price <- lift (Decimal_of_string price_s);
         lift (mul free price))
        (fun _ => value_loop asset free rest)
  end.

(** The value of one listed asset. *)
Definition usdt_value (asset : string) (free : Decimal) : M Decimal :=
  if existsb (String.eqb asset) stablecoins then ret free
  else value_loop asset free stablecoins.

(** The loop over [account['balances']]. *)
Fixpoint balances_loop (items : list (string * string)) (balances : list Balance)
  : M (list Balance) :=
  match items with
  | [] => ret balances
  | (asset, free_s) :: rest =>
      free <- lift (Decimal_of_string free_s);
      listed <- lift (gt free (Finite false 1 (-4)));
      if (listed : bool) then
        usdt_value <- usdt_value asset free;
        balances_loop rest
          (balances ++ [{| asset := asset; free := free; value := usdt_value |}])
      else balances_loop rest balances
  end.

Definition get_all_balances : M (option (list Balance)) :=
  try_except
    (account <- call GetAccount (fun h => client_get_account ex h);
     balances <- balances_loop account [];
     sorted <- lift (sorted_by_value balances);
     ret (Some sorted))
    (fun _ => ret None).

Definition check_symbol_rules (pair : string) : M (option Rules) :=
  try_except
    (info <- call (GetSymbolInfo pair) (fun h => client_get_symbol_info ex h pair);
     match info with
     | None => ret None
     | Some filters =>
         match find (fun f => String.eqb (filterType f) "LOT_SIZE") filters with
         | None => raise StopIteration
         | Some lot_size =>
             min_qty <- match minQty lot_size with
                        | Some s => lift (Decimal_of_string s)
                        | None => raise KeyError
                        end;
             step_size <- match stepSize lot_size with
                          | Some s => lift (Decimal_of_string s)
                          | None => raise KeyError
                          end;
             ret (Some {| min_qty := min_qty; step_size := step_size |})
         end
     end)
    (fun _ => ret None).

Definition execute_trade (pair : string) (quantity : Decimal) (is_buy : bool)
  : M (option Order * option TradeError) :=
  try_except
    (rules <- check_symbol_rules pair;
     match rules with
     | None => ret (None, Some RulesUnavailable)
     | Some rules =>
         adjusted_qty <- lift (adjust_quantity quantity (step_size rules));
         too_small <- lift (lt adjusted_qty (min_qty rules));
         if (too_small : bool) then
           ret (None, Some (QuantityTooSmall (min_qty rules)))
         else
           order <- (if is_buy
                     then call (OrderMarketBuy pair adjusted_qty)
                            (fun h => client_order_market_buy ex h pair adjusted_qty)
                     else call (OrderMarketSell pair adjusted_qty)
                            (fun h => client_order_market_sell ex h pair adjusted_qty));
           ret (Some order, None)
     end)
    (fun e =>
       match e with
       | BinanceAPIException message => ret (None, Some (BinanceError message))
       | _ => ret (None, Some (GenericError e))
       end).

(** The callback data of the confirm button of a prompt. *)
Definition confirm_data (pair : string) : string := "confirm_" ++ pair.

(** Lines 168-196 of [confirm_trade]: the order a command asks for, or
    [None] when the command has been answered already (usage, unsupported
    pair, insufficient balance). *)
Definition requested_order (args : list string) (is_buy : bool)
  : M (option PendingOrder) :=
  match args with
  | [arg0; arg1] =>
      amount <- lift (Decimal_of_string arg0);
      let pair := upper arg1 in
      if negb (existsb (endswith pair) stablecoins) then
        reply_text UnsupportedPair;;
        ret None
      else if is_buy then
        ticker <- call (GetSymbolTicker pair)
                       (fun h => client_get_symbol_ticker ex h pair);
        price <- lift (Decimal_of_string ticker);
        quantity <- lift (div amount price);
        ret (Some {| pair := pair; quantity := quantity; is_buy := is_buy |})
      else
        let asset := base_asset pair in
        balance <- get_asset_balance asset;
        over <- lift (gt amount balance);
        if (over : bool) then
          reply_text (InsufficientBalance balance asset);;
          ret None
        else
          ret (Some {| pair := pair; quantity := amount; is_buy := is_buy |})
  | _ =>
      reply_text (Usage is_buy);;
      ret None
  end.

(** Lines 205-223: the confirmation prompt for a stored order. *)
Definition prompt (order : PendingOrder) : M unit :=
  ticker <- call (GetSymbolTicker (pair order))
                 (fun h => client_get_symbol_ticker ex h (pair order));
  price <- lift (Decimal_of_string ticker);
  total <- lift (mul (quantity order) price);
  shown_quantity <- lift (normalize (quantity order));
  shown_total <- lift (quantize total (Finite false 1 (-2)));
  reply_text (ConfirmationPrompt (is_buy order) (pair order) shown_quantity
                price shown_total (confirm_data (pair order))).

Definition confirm_trade (user_id : Z) (args : list string) (is_buy : bool)
  : M unit :=
  try_except
    (order <- requested_order args is_buy;
     match order with
     | None => ret tt
     | Some order =>
         pending_set user_id order;;
         prompt order
     end)
    (fun e =>
       match e with
       | ValueError => reply_text InvalidAmount
       | _ => reply_text (ErrorMessage e)
       end).

Definition buy_command (user_id : Z) (args : list string) : M unit :=
  confirm_trade user_id args true.

Definition sell_command (user_id : Z) (args : list string) : M unit :=
  confirm_trade user_id args false.

Definition handle_button (user_id : Z) (data : string) : M unit :=
  if startswith data "confirm_" then
    match split data "_" with
    | _ :: pair' :: _ =>
        order_data <- pending_get user_id;
        match order_data with
        | Some order_data =>
            if String.eqb (pair order_data) pair' then
              edit_message_text Processing;;
              r <- execute_trade (pair order_data) (quantity order_data)
                                 (is_buy order_data);
              message <-
                match r with
                | (Some order, _) =>
                    price <- match fills order with
                             | None => ret "N/A"
                             | Some [] => raise IndexError
                             | Some (fill :: _) => ret (default "N/A" fill)
                             end;
                    ret (TradeDone (is_buy order_data) (symbol order)
                           (executedQty order) price (cummulativeQuoteQty order))
                | (None, error) => ret (TradeFailed error)
                end;
              edit_message_text message
            else edit_message_text Expired
        | None => edit_message_text Expired
        end
    | _ => raise IndexError
    end
  else if String.eqb data "cancel" then
    pending_pop user_id;;
    edit_message_text Cancelled
  else ret tt.

End Bot.

(** ** Properties used in the statements *)

(** A computation that leaves [pending_orders] as it found it. *)
Definition keeps_pending {A} (m : M A) : Prop :=
  forall w, pending_orders (snd (m w)) = pending_orders w.

(** The free-balance lookup of the client gives no balance: it raises,
    returns no dictionary, or returns a text that is no number. *)
Definition lookup_fails (ex : Exchange) (h : list Call) (asset : string) : Prop :=
  match client_get_asset_balance ex h asset with
  | Ok (Some s) => exists e, Decimal_of_string s = Raise e
  | _ => True
  end.

(** The pair [asset ++ coin] resolves to the value [v] of [free]: its price
    is fetched, parsed and multiplied without an exception. *)
Definition resolves (ex : Exchange) (h : list Call) (asset coin : string)
                    (free v : Decimal) : Prop :=
  exists s price,
    client_get_symbol_ticker ex h (asset ++ coin) = Ok s
    /\ Decimal_of_string s = Ok price
    /\ mul free price = Ok v.

(** The valuation of [free] of [asset] when the loop stands at [w], in
    the words of the description: a stablecoin is worth its free amount;
    any other asset the value its USDT pair resolves to, else the value
    its USDC pair resolves to, else zero.  [w1] is the world after the
    price lookups this takes: none, USDT, or USDT and then USDC. *)
Definition valuation (ex : Exchange) (asset : string) (free : Decimal)
                     (w : World) (v : Decimal) (w1 : World) : Prop :=
  let usdt := GetSymbolTicker (asset ++ "USDT") in
  let usdc := GetSymbolTicker (asset ++ "USDC") in
  (In asset stablecoins /\ v = free /\ w1 = w)
  \/ (~ In asset stablecoins
      /\ ((resolves ex (calls w) asset "USDT" free v /\ w1 = log w usdt)
          \/ ((forall v', ~ resolves ex (calls w) asset "USDT" free v')
              /\ resolves ex (calls (log w usdt)) asset "USDC" free v
              /\ w1 = log (log w usdt) usdc)
          \/ ((forall v', ~ resolves ex (calls w) asset "USDT" free v')
              /\ (forall v', ~ resolves ex (calls (log w usdt)) asset "USDC" free v')
              /\ v = zero
              /\ w1 = log (log w usdt) usdc))).

(** The entries for the holdings [(asset, free)] taken in their order,
    each valued where the one before left the world. *)
Inductive listed (ex : Exchange)
  : list (string * Decimal) -> World -> list Balance -> World -> Prop :=
| listed_nil w : listed ex [] w [] w
| listed_cons name amount rest w v w1 entries w2 :
    valuation ex name amount w v w1 ->
    listed ex rest w1 entries w2 ->
    listed ex ((name, amount) :: rest) w
           ({| asset := name; free := amount; value := v |} :: entries) w2.

(** A number, not a NaN, whose magnitude is within the exponent range of
    the context. *)
Definition in_range (d : Decimal) : Prop :=
  match d with
  | Finite _ c e => adjusted c e < Emax
  | Infinity _ => True
  | NaN _ _ => False
  end.

(** Every free amount of the account reads as a number in range. *)
Definition plain_account (items : list (string * string)) : Prop :=
  Forall (fun item => exists d, Decimal_of_string (snd item) = Ok d /\ in_range d) items.

(** The exchange never quotes a NaN. *)
Definition quotes_numbers (ex : Exchange) : Prop :=
  forall h symbol s d,
    client_get_symbol_ticker ex h symbol = Ok s ->
    Decimal_of_string s = Ok d -> is_nan d = false.

(** The value of the entry can be negated to a sort key that is no NaN. *)
Definition key_ready (b : Balance) : Prop :=
  exists k, neg (value b) = Ok k /\ is_nan k = false.



(** [v] is [a * b] rounded to the precision of the context: with [u] one
    unit of the last digit of [v], [v - u/2 <= a * b <= v + u/2] on the
    magnitudes, [v] has no more digits than the precision, and it is the
    exact product unless it carries all the digits of the precision or
    stands at the smallest exponent. *)
Definition rounded_product (v a b : Decimal) : Prop :=
  match v, a, b with
  | Finite s c e, Finite s1 c1 e1, Finite s2 c2 e2 =>
      s = xorb s1 s2
      /\ ndigits c <= prec
      /\ cmp (Finite false (2 * c - 1) e) (Finite false (2 * (c1 * c2)) (e1 + e2)) <> Gt
      /\ cmp (Finite false (2 * (c1 * c2)) (e1 + e2)) (Finite false (2 * c + 1) e) <> Gt
      /\ (cmp (Finite false c e) (Finite false (c1 * c2) (e1 + e2)) = Eq
          \/ ndigits c = prec \/ e = Etiny)
  | _, _, _ => False
  end.

(** ** A concrete exchange *)

Module Scenario.

Definition lot_size_filters (min step : string) : list Filter :=
  [ {| filterType := "PRICE_FILTER"; minQty := None; stepSize := None |};
    {| filterType := "LOT_SIZE"; minQty := Some min; stepSize := Some step |} ].

Definition filled (s : string) : Order :=
  {| symbol := s;
     executedQty := "0.00200000";
     cummulativeQuoteQty := "100.00000000";
     fills := Some [Some "50000.00000000"] |}.

(** BTCUSDT and ETHUSDC are quoted at [price]; the account holds [eth] of
    ETH; every symbol has the LOT_SIZE filter ([min], [step]); orders fill. *)
Definition exchange (price eth min step : string) : Exchange :=
  {| client_get_asset_balance := fun _ a =>
       if String.eqb a "ETH" then Ok (Some eth)
       else Raise (BinanceAPIException "Invalid asset");
     client_get_account := fun _ =>
       Ok [("BTC", "0.5"); ("USDT", "12.5"); ("ETH", eth); ("XYZ", "3")];
     client_get_symbol_ticker := fun _ s =>
       if String.eqb s "BTCUSDT" || String.eqb s "ETHUSDC" then Ok price
       else Raise (BinanceAPIException "Invalid symbol.");
     client_get_symbol_info := fun _ _ => Ok (Some (lot_size_filters min step));
     client_order_market_buy := fun _ s _ => Ok (filled s);
     client_order_market_sell := fun _ s _ => Ok (filled s) |}.

Definition ex1 : Exchange := exchange "50000" "0.3" "0.0001" "0.0001".

(** The LOT_SIZE filter as Binance prints it, with eight decimals. *)
Definition ex2 : Exchange := exchange "50000" "0.3" "0.00001000" "0.00001000".

Definition start : World := {| pending_orders := ∅; calls := []; sent := [] |}.

Definition alice : Z := 7.

Definition btc_order (q : Decimal) : PendingOrder :=
  {| pair := "BTCUSDT"; quantity := q; is_buy := true |}.

Definition waiting (q : Decimal) : World :=
  {| pending_orders := {[ alice := btc_order q ]}; calls := []; sent := [] |}.

End Scenario.

(** ** The read-only commands *)

(** [a + b] *)
Module DecAdd.
Import Dec.

(** [_normalize]: both coefficients on one exponent; an operand too small
    to matter at the context's precision is replaced by a one just below
    the digits that count. *)
Definition align (c1 : N) (e1 : Z) (c2 : N) (e2 : Z) : N * N * Z :=
  let swap := e1 <? e2 in
  let tc := if swap then c2 else c1 in
  let te := if swap then e2 else e1 in
  let oc := if swap then c1 else c2 in
  let oe := if swap then e1 else e2 in
  let exp := te + Z.min (-1) (ndigits tc - prec - 2) in
  let small := ndigits oc + oe - 1 <? exp in
  let oc := if small then 1%N else oc in
  let oe := if small then exp else oe in
  let tc := (tc * pow10 (te - oe))%N in
  if swap then (oc, tc, oe) else (tc, oc, oe).

Definition add (a b : Decimal) : result Decimal :=
  match check_nans a b with
  | Some r => r
  | None =>
      match a, b with
      | Infinity s1, Infinity s2 =>
          if Bool.eqb s1 s2 then Ok a else Raise InvalidOperation
      | Infinity _, _ => Ok a
      | _, Infinity _ => Ok b
      | Finite s1 c1 e1, Finite s2 c2 e2 =>
          let exp := Z.min e1 e2 in
          if (c1 =? 0)%N && (c2 =? 0)%N then fix_ (Finite (s1 && s2) 0 exp)
          else if (c1 =? 0)%N then
            fix_ (rescale s2 c2 e2 (Z.max exp (e2 - prec - 1)))
          else if (c2 =? 0)%N then
            fix_ (rescale s1 c1 e1 (Z.max exp (e1 - prec - 1)))
          else
            let '(i1, i2, e) := align c1 e1 c2 e2 in
            if Bool.eqb s1 s2 then fix_ (Finite s1 (i1 + i2) e)
            else if (i1 =? i2)%N then fix_ (Finite false 0 exp)
            else if (i1 <? i2)%N then fix_ (Finite s2 (i2 - i1) e)
            else fix_ (Finite s1 (i1 - i2) e)
      | _, _ => Raise InvalidOperation
      end
  end.

End DecAdd.

Import DecAdd.

(** A line of the portfolio message: the asset, its free amount normalized
    and, unless the asset is a stablecoin, its value to two decimals. *)
Record Line := {
  line_asset : string;
  line_amount : Decimal;
  line_value : option Decimal
}.

(** What [show_balance] hands to [reply_text]. *)
Inductive BalanceReply :=
| BalancesUnavailable
| Portfolio (lines : list Line) (total_usd : Decimal)
| BalancesError.

(** What [crypto_info] hands to [reply_text]. *)
Inductive InfoReply :=
| InfoUsage
| InfoUnsupportedPair
| CurrentPrice (pair : string) (price_str : Decimal)
| PairNotFound
| InfoError.

(** The loop of [show_balance] over the listing. *)
Fixpoint portfolio_loop (balances : list Balance) (lines : list Line)
                        (total : Decimal) : result (list Line * Decimal) :=
  match balances with
  | [] => Ok (lines, total)
  | item :: rest =>
      (amount <-r normalize (free item);
       shown <-r (if existsb (String.eqb (asset item)) stablecoins then Ok None
                  else (v <-r quantize (value item) (Finite false 1 (-2));
                        Ok (Some v)));
       total <-r add total (value item);
       portfolio_loop rest
         (lines ++ [{| line_asset := asset item;
                       line_amount := amount;
                       line_value := shown |}])
         total)%result
  end.

(** The price text of [crypto_info]: two decimals above 100, four above 1,
    six otherwise. *)
Definition format_price (price : Decimal) : result Decimal :=
  (above100 <-r gt price (Finite false 100 0);
   if (above100 : bool) then quantize price (Finite false 1 (-2))
   else (above1 <-r gt price (Finite false 1 0);
         if (above1 : bool) then quantize price (Finite false 1 (-4))
         else quantize price (Finite false 1 (-6))))%result.

Section Readers.

Variable ex : Exchange.

(** [show_balance]; each run calls [reply_text] once, and the value
    returned here is the text of that call. *)
Definition show_balance : M BalanceReply :=
  try_except
    (balances <- get_all_balances ex;
     match balances with
     | None | Some [] => ret BalancesUnavailable
     | Some balances =>
         r <- lift (portfolio_loop balances [] (Finite false 0 0));
         total_usd <- lift (quantize (snd r) (Finite false 1 (-2)));
         ret (Portfolio (fst r) total_usd)
     end)
    (fun _ => ret BalancesError).

(** [crypto_info]; the value returned is the text of its one call of
    [reply_text].  Only a BinanceAPIException of the inner block means
    "pair not found"; anything else reaches the outer handler. *)
Definition crypto_info (args : list string) : M InfoReply :=
  try_except
    (match args with
     | [] => ret InfoUsage
     | arg0 :: _ =>
         let pair := upper arg0 in
         if negb (existsb (endswith pair) stablecoins) then
           ret InfoUnsupportedPair
         else
           try_except
             (ticker <- call (GetSymbolTicker pair)
                             (fun h => client_get_symbol_ticker ex h pair);
              price <- lift (Decimal_of_string ticker);
              price_str <- lift (format_price price);
              ret (CurrentPrice pair price_str))
             (fun e =>
                match e with
                | BinanceAPIException _ => ret PairNotFound
                | _ => raise e
                end)
     end)
    (fun _ => ret InfoError).

End Readers.

(** ** Properties used for the rest of the code *)

(** Two sort keys in order: neither is a NaN and the first is not above
    the second. *)
Definition ordered_keys (k1 k2 : Decimal) : Prop :=
  is_nan k1 = false /\ is_nan k2 = false /\ cmp k1 k2 <> Gt.

(** [x] may stand before [y] in the listing: the key of [x], its value
    negated under the context, is not above the key of [y]. *)
Definition by_value (x y : Balance) : Prop :=
  exists kx ky, neg (value x) = Ok kx /\ neg (value y) = Ok ky
                /\ ordered_keys kx ky.

(** The items of [account['balances']] that the loop of
    [get_all_balances] keeps: a free amount above 0.0001. *)
Fixpoint above_dust (items : list (string * string)) : list (string * Decimal) :=
  match items with
  | [] => []
  | (name, free_s) :: rest =>
      match Decimal_of_string free_s with
      | Ok d =>
          match gt d (Finite false 1 (-4)) with
          | Ok true => (name, d) :: above_dust rest
          | _ => above_dust rest
          end
      | Raise _ => above_dust rest
      end
  end.

Definition holding (b : Balance) : string * Decimal := (asset b, free b).

(** The calls [l] are lookups: none of them places an order. *)
Definition lookups (l : list Call) : Prop := Forall (fun c => is_order c = false) l.

(** [sep in s] *)
Fixpoint has_char (sep : ascii) (s : string) : bool :=
  match s with
  | EmptyString => false
  | String a r => Ascii.eqb a sep || has_char sep r
  end.

(** The order call of [execute_trade] for an adjusted quantity. *)
Definition order_call (is_buy : bool) (pair : string) (r : Decimal) : Call :=
  if is_buy then OrderMarketBuy pair r else OrderMarketSell pair r.

(** ** Further concrete exchanges *)

Module Cases.

(** The price of BTCUSDT is answered once; every later ticker call fails. *)
Definition ex_flaky : Exchange :=
  {| client_get_asset_balance := client_get_asset_balance Scenario.ex1;
     client_get_account := client_get_account Scenario.ex1;
     client_get_symbol_ticker := fun h s =>
       match h with
       | [] => client_get_symbol_ticker Scenario.ex1 h s
       | _ => Raise (BinanceAPIException "Timeout")
       end;
     client_get_symbol_info := client_get_symbol_info Scenario.ex1;
     client_order_market_buy := client_order_market_buy Scenario.ex1;
     client_order_market_sell := client_order_market_sell Scenario.ex1 |}.

(** The symbol information carries a price filter only. *)
Definition ex_no_lot_size : Exchange :=
  {| client_get_asset_balance := client_get_asset_balance Scenario.ex1;
     client_get_account := client_get_account Scenario.ex1;
     client_get_symbol_ticker := client_get_symbol_ticker Scenario.ex1;
     client_get_symbol_info := fun _ _ =>
       Ok (Some [ {| filterType := "PRICE_FILTER";
                     minQty := None; stepSize := None |} ]);
     client_order_market_buy := client_order_market_buy Scenario.ex1;
     client_order_market_sell := client_order_market_sell Scenario.ex1 |}.

(** An account with the given holdings, BTCUSDT quoted at [price]. *)
Definition ex_account (items : list (string * string)) (price : string)
  : Exchange :=
  {| client_get_asset_balance := client_get_asset_balance Scenario.ex1;
     client_get_account := fun _ => Ok items;
     client_get_symbol_ticker := fun _ s =>
       if String.eqb s "BTCUSDT" then Ok price
       else Raise (BinanceAPIException "Invalid symbol.");
     client_get_symbol_info := client_get_symbol_info Scenario.ex1;
     client_order_market_buy := client_order_market_buy Scenario.ex1;
     client_order_market_sell := client_order_market_sell Scenario.ex1 |}.

Definition ex_dust : Exchange := ex_account [("BTC", "0.00001"); ("USDT", "0.0001")] "50000".

Definition ex_rich : Exchange := ex_account [("BTC", "30"); ("USDT", "12.5")] "50000".

Definition ex_million : Exchange := ex_account [] "1000000".


(** User 7 waits on a sell order for a pair typed with an underscore. *)
Definition underscore_order : PendingOrder :=
  {| pair := "BTC_USDT"; quantity := Finite false 0 0; is_buy := false |}.

Definition waiting_underscore : World :=
  {| pending_orders := {[ Scenario.alice := underscore_order ]};
     calls := []; sent := [] |}.

(** The listing of [Scenario.ex1]. *)
Definition listing1 : list Balance :=
  [ {| asset := "BTC"; free := Finite false 5 (-1); value := Finite false 250000 (-1) |};
    {| asset := "ETH"; free := Finite false 3 (-1); value := Finite false 150000 (-1) |};
    {| asset := "USDT"; free := Finite false 125 (-1); value := Finite false 125 (-1) |};
    {| asset := "XYZ"; free := Finite false 3 0; value := Finite false 0 0 |} ].

Definition listed1 : World :=
  {| pending_orders := ∅;
     calls := [GetAccount; GetSymbolTicker "BTCUSDT"; GetSymbolTicker "ETHUSDT";
               GetSymbolTicker "ETHUSDC"; GetSymbolTicker "XYZUSDT";
               GetSymbolTicker "XYZUSDC"];
     sent := [] |}.

End Cases.

(** ** The monad *)

Section Monad_facts.

Context {A B : Type}.

Lemma keeps_ret (a : A) : keeps_pending (ret a).
Proof. intros w. reflexivity. Qed.

Lemma keeps_raise (e : exn) : keeps_pending (@raise A e).
Proof. intros w. reflexivity. Qed.

Lemma keeps_lift (r : result A) : keeps_pending (lift r).
Proof. intros w. reflexivity. Qed.

Lemma keeps_call (c : Call) (answer : list Call -> result A) :
  keeps_pending (call c answer).
Proof. intros w. reflexivity. Qed.

Lemma keeps_bind (m : M A) (k : A -> M B) :
  keeps_pending m -> (forall a, keeps_pending (k a)) -> keeps_pending (bind m k).
Proof.
  intros Hm Hk w. unfold bind. specialize (Hm w).
  destruct (m w) as [[a | e] w']; simpl in *; [| exact Hm].
  rewrite Hk. exact Hm.
Qed.

Lemma keeps_try (m : M A) (h : exn -> M A) :
  keeps_pending m -> (forall e, keeps_pending (h e)) -> keeps_pending (try_except m h).
Proof.
  intros Hm Hh w. unfold try_except. specialize (Hm w).
  destruct (m w) as [[a | e] w']; simpl in *; [exact Hm |].
  rewrite Hh. exact Hm.
Qed.

End Monad_facts.

Lemma keeps_reply (m : Message) : keeps_pending (reply_text m).
Proof. intros w. reflexivity. Qed.

Lemma keeps_edit (m : Message) : keeps_pending (edit_message_text m).
Proof. intros w. reflexivity. Qed.

Lemma keeps_get (user_id : Z) : keeps_pending (pending_get user_id).
Proof. intros w. reflexivity. Qed.

Create HintDb keeps.
#[export] Hint Resolve keeps_ret keeps_raise keeps_lift keeps_call
  keeps_reply keeps_edit keeps_get : keeps.

(** Walk down a handler: binds, handlers and case splits. *)
Ltac keeps_step :=
  match goal with
  | |- keeps_pending (bind _ _) => apply keeps_bind; [| intros ?]
  | |- keeps_pending (try_except _ _) => apply keeps_try; [| intros ?]
  | |- keeps_pending (if ?b then _ else _) => destruct b
  | |- keeps_pending (match ?x with _ => _ end) => destruct x
  | |- keeps_pending (let _ := _ in _) => cbv zeta
  | |- keeps_pending _ => solve [auto with keeps]
  end.

Ltac keeps := repeat keeps_step.

Section Keeps.

Variable ex : Exchange.

Lemma keeps_get_asset_balance asset : keeps_pending (get_asset_balance ex asset).
Proof. unfold get_asset_balance. keeps. Qed.

Lemma keeps_value_loop asset free coins :
  keeps_pending (value_loop ex asset free coins).
Proof. induction coins as [| c r IH]; simpl; keeps. Qed.

Lemma keeps_check_symbol_rules pair : keeps_pending (check_symbol_rules ex pair).
Proof. unfold check_symbol_rules. keeps. Qed.

Lemma keeps_execute_trade pair q b : keeps_pending (execute_trade ex pair q b).
Proof.
  unfold execute_trade. pose proof keeps_check_symbol_rules. keeps.
Qed.

Lemma keeps_requested_order args b : keeps_pending (requested_order ex args b).
Proof.
  unfold requested_order. pose proof keeps_get_asset_balance. keeps.
Qed.

Lemma keeps_prompt o : keeps_pending (prompt ex o).
Proof. unfold prompt. keeps. Qed.

End Keeps.

(** ** Decimal arithmetic *)

Section Decimal_facts.

Lemma pow10_pos k : (0 < pow10 k)%N.
Proof. unfold pow10. apply N.neq_0_lt_0. apply N.pow_nonzero. discriminate. Qed.

Lemma pow10_add a b : 0 <= a -> 0 <= b -> pow10 (a + b) = (pow10 a * pow10 b)%N.
Proof.
  intros Ha Hb. unfold pow10. rewrite Z2N.inj_add by assumption.
  apply N.pow_add_r.
Qed.

Lemma pow10_mono a b : a <= b -> (pow10 a <= pow10 b)%N.
Proof.
  intros H. unfold pow10. apply N.pow_le_mono_r; [discriminate |].
  lia.
Qed.

Lemma ndigits_fuel_bounds fuel : forall c,
  (0 < c)%N -> Z.of_N c < 2 ^ Z.of_nat fuel ->
  1 <= ndigits_fuel fuel c
  /\ (pow10 (ndigits_fuel fuel c - 1) <= c < pow10 (ndigits_fuel fuel c))%N.
Proof.
  induction fuel as [| f IH]; intros c Hpos Hlt.
  - simpl in Hlt. lia.
  - cbn [ndigits_fuel]. destruct (N.ltb_spec c 10) as [Hs | Hb].
    + split; [lia |]. change (pow10 (1 - 1)) with 1%N. change (pow10 1) with 10%N. lia.
    + assert (Hq : (0 < c / 10)%N) by (apply N.div_str_pos; lia).
      assert (Hf : Z.of_N (c / 10) < 2 ^ Z.of_nat f).
      { rewrite Nat2Z.inj_succ, Z.pow_succ_r in Hlt by lia.
        rewrite N2Z.inj_div. change (Z.of_N 10) with 10.
        apply Z.div_lt_upper_bound; lia. }
      destruct (IH (c / 10)%N Hq Hf) as (H1 & Hlo & Hhi).
      set (d := ndigits_fuel f (c / 10)) in *.
      split; [lia |].
      replace (1 + d - 1) with ((d - 1) + 1) by lia.
      replace (1 + d) with (d + 1) by lia.
      rewrite !pow10_add by lia. change (pow10 1) with 10%N.
      pose proof (N.div_mod c 10 ltac:(discriminate)) as Hdm.
      pose proof (N.mod_lt c 10 ltac:(discriminate)) as Hm.
      clearbody d. clear IH Hlt Hf.
      generalize dependent (pow10 (d - 1)). generalize dependent (pow10 d).
      generalize dependent (c / 10)%N. generalize dependent (c mod 10)%N.
      intros. lia.
Qed.

Lemma ndigits_bounds c :
  (0 < c)%N ->
  1 <= ndigits c /\ (pow10 (ndigits c - 1) <= c < pow10 (ndigits c))%N.
Proof.
  intros Hpos. unfold ndigits. apply ndigits_fuel_bounds; [exact Hpos |].
  destruct c as [| p]; [lia |]. cbn [N.size_nat Z.of_N].
  rewrite Nat2Z.inj_succ, Z.pow_succ_r by lia.
  assert (Zpos p < 2 ^ Z.of_nat (Pos.size_nat p)) by (apply Zpower2_Psize; lia).
  lia.
Qed.

Lemma ndigits_small c : ndigits c <= prec -> (c < pow10 prec)%N.
Proof.
  intros H. destruct (N.eq_dec c 0%N) as [-> | Hne]; [reflexivity |].
  destruct (ndigits_bounds c) as (_ & _ & Hhi); [lia |].
  pose proof (pow10_mono _ _ H). lia.
Qed.

(** The loops of [div] and [normalize] run to their end: when the fuel is
    spent the loop condition is false. *)
Lemma strip_zeros_stops fuel : forall c e ideal,
  ideal - e <= Z.of_nat fuel ->
  let '(c', e') := strip_zeros fuel c e ideal in
  (e' <? ideal) && (c' mod 10 =? 0)%N = false.
Proof.
  induction fuel as [| f IH]; intros c e ideal Hf; cbn [strip_zeros].
  - destruct (Z.ltb_spec e ideal); [lia | reflexivity].
  - destruct ((e <? ideal) && (c mod 10 =? 0)%N) eqn:Hc; [| exact Hc].
    apply IH. lia.
Qed.

Lemma strip_all_stops fuel : forall c e,
  (0 < c < pow10 (Z.of_nat fuel))%N ->
  let '(c', e') := strip_all fuel c e in
  (c' mod 10 =? 0)%N && (e' <? Emax) = false.
Proof.
  induction fuel as [| f IH]; intros c e Hc; cbn [strip_all].
  - change (pow10 (Z.of_nat 0)) with 1%N in Hc. lia.
  - destruct ((c mod 10 =? 0)%N && (e <? Emax)) eqn:Hcond; [| exact Hcond].
    apply IH. apply andb_prop in Hcond as [Hm _]. apply N.eqb_eq in Hm.
    rewrite Nat2Z.inj_succ in Hc. unfold Z.succ in Hc.
    rewrite pow10_add in Hc by lia. change (pow10 1) with 10%N in Hc.
    pose proof (N.div_mod c 10 ltac:(discriminate)) as Hdm.
    rewrite Hm in Hdm.
    generalize dependent (c / 10)%N. generalize dependent (pow10 (Z.of_nat f)).
    intros. lia.
Qed.

Lemma round_half_even_ge c k : (c / pow10 k <= round_half_even c k)%N.
Proof. unfold round_half_even. destruct (_ || _); lia. Qed.

(** Rounding a coefficient of [7 + k] digits or more to [k] digits fewer
    leaves at least [10^7]. *)
Lemma div_pow10_ge c k :
  0 <= k -> (pow10 (7 + k) <= c)%N -> (pow10 7 <= c / pow10 k)%N.
Proof.
  intros Hk Hc. rewrite pow10_add in Hc by lia.
  apply N.div_le_lower_bound; [pose proof (pow10_pos k); lia | lia].
Qed.

(** The three outcomes of [_fix] on a number whose exponent is not below
    Etiny: a zero, no change, or a rounded coefficient of eight digits
    with a larger exponent. *)
Lemma fix_cases s c e d :
  Etiny <= e ->
  fix_ (Finite s c e) = Ok d ->
  (c = 0%N /\ exists e', d = Finite s 0 e')
  \/ (c <> 0%N /\ d = Finite s c e)
  \/ (exists c' e', d = Finite s c' e' /\ (pow10 7 <= c')%N /\ e < e'
                    /\ prec < ndigits c).
Proof.
  intros He. unfold fix_.
  destruct (N.eqb_spec c 0%N) as [-> | Hne].
  - intros [= <-]. left. eauto.
  - destruct (ndigits_bounds c) as (HL & Hlo & _); [lia |].
    set (L := ndigits c) in *.
    destruct (Etop <? L + e - prec); [discriminate |].
    destruct (Z.ltb_spec e (Z.max (L + e - prec) Etiny)) as [Hr | Hk];
      [| intros [= <-]; right; left; auto].
    assert (Hmax : Z.max (L + e - prec) Etiny = L + e - prec) by lia.
    rewrite Hmax in *. unfold prec in *.
    replace (L + e - 8 - e) with (L - 8) by lia.
    assert (Hq : (pow10 7 <= c / pow10 (L - 8))%N).
    { apply div_pow10_ge; [lia |]. replace (7 + (L - 8)) with (L - 1) by lia.
      exact Hlo. }
    pose proof (round_half_even_ge c (L - 8)) as Hge.
    set (coeff := round_half_even c (L - 8)) in *.
    destruct (Z.ltb_spec 8 (ndigits coeff)) as [Hbig | Hsmall].
    + destruct (Etop <? L + e - 8 + 1); [discriminate |].
      intros [= <-]. right. right. exists (coeff / 10)%N, (L + e - 8 + 1).
      split; [reflexivity |]. split; [| fold L; lia].
      destruct (ndigits_bounds coeff) as (_ & Hclo & _).
      { pose proof (pow10_pos 7). lia. }
      pose proof (pow10_mono 8 (ndigits coeff - 1) ltac:(lia)) as Hm.
      change (pow10 7) with (pow10 8 / 10)%N.
      apply N.Div0.div_le_mono. lia.
    + destruct (Etop <? L + e - 8); [discriminate |].
      intros [= <-]. right. right. exists coeff, (L + e - 8).
      split; [reflexivity |]. fold L. split; lia.
Qed.

(** Comparing non-negative finite numbers on any common exponent. *)
Lemma scaled_split c e m0 m :
  m0 <= m -> m <= e ->
  (c * pow10 (e - m0) = c * pow10 (e - m) * pow10 (m - m0))%N.
Proof.
  intros H0 H1. replace (e - m0) with ((e - m) + (m - m0)) by lia.
  rewrite pow10_add by lia. lia.
Qed.

Lemma fin_le_iff a ea b eb m0 :
  m0 <= ea -> m0 <= eb ->
  fin_compare false a ea false b eb <> Gt
  <-> (a * pow10 (ea - m0) <= b * pow10 (eb - m0))%N.
Proof.
  intros Ha Hb. unfold fin_compare, signed.
  set (m := Z.min ea eb).
  rewrite (scaled_split a ea m0 m), (scaled_split b eb m0 m) by lia.
  pose proof (pow10_pos (m - m0)) as Hk.
  fold (Z.le (Z.of_N (a * pow10 (ea - m))) (Z.of_N (b * pow10 (eb - m)))).
  rewrite <- N2Z.inj_le. rewrite <- N.mul_le_mono_pos_r by exact Hk.
  reflexivity.
Qed.

Lemma fin_eq_iff a ea b eb m0 :
  m0 <= ea -> m0 <= eb ->
  fin_compare false a ea false b eb = Eq
  <-> (a * pow10 (ea - m0) = b * pow10 (eb - m0))%N.
Proof.
  intros Ha Hb. unfold fin_compare, signed.
  set (m := Z.min ea eb).
  rewrite (scaled_split a ea m0 m), (scaled_split b eb m0 m) by lia.
  pose proof (pow10_pos (m - m0)) as Hk.
  rewrite Z.compare_eq_iff, N2Z.inj_iff.
  rewrite N.mul_cancel_r by lia. reflexivity.
Qed.

(** [q // s] is a whole number of steps that fit into [q]. *)
Lemma floordiv_finite c1 e1 c2 e2 d :
  floordiv (Finite false c1 e1) (Finite false c2 e2) = Ok d ->
  exists n, d = Finite false n 0
            /\ fin_compare false (n * c2) e2 false c1 e1 <> Gt.
Proof.
  unfold floordiv. cbn [check_nans sign_of xorb].
  destruct (c2 =? 0)%N; [destruct (c1 =? 0)%N; discriminate |].
  destruct ((c1 =? 0)%N || _).
  - intros [= <-]. exists 0%N. split; [reflexivity |].
    apply (fin_le_iff _ _ _ _ (Z.min e1 e2)); lia.
  - destruct (_ <=? prec); [| discriminate].
    destruct (Z.leb_spec e2 e1) as [Hle | Hgt].
    + destruct (_ <? pow10 prec)%N; [| discriminate].
      intros [= <-]. eexists. split; [reflexivity |].
      apply (fin_le_iff _ _ _ _ e2); [lia | lia |].
      rewrite Z.sub_diag. change (pow10 0) with 1%N. rewrite N.mul_1_r.
      rewrite N.mul_comm. apply N.Div0.mul_div_le.
    + destruct (_ <? pow10 prec)%N; [| discriminate].
      intros [= <-]. eexists. split; [reflexivity |].
      apply (fin_le_iff _ _ _ _ e1); [lia | lia |].
      rewrite Z.sub_diag. change (pow10 0) with 1%N. rewrite N.mul_1_r.
      rewrite <- N.mul_assoc, N.mul_comm. apply N.Div0.mul_div_le.
Qed.

(** The unit of [quantize] has an exponent in range and not above the
    exponent of the step size. *)
Lemma ten_pow_neg_exponent e u :
  Etiny <= e ->
  ten_pow_neg (Z.abs e) = Ok u ->
  exists c t, u = Finite false c t /\ t <= e.
Proof.
  intros He. unfold ten_pow_neg, one.
  destruct (Z.eqb_spec (Z.abs e) 0).
  - intros [= <-]. exists 1%N, 0. split; [reflexivity | lia].
  - destruct (Z.ltb_spec (- Z.abs e) Etiny); intros [= <-].
    + exists 0%N, Etiny. split; [reflexivity | lia].
    + exists 1%N, (- Z.abs e). split; [reflexivity | lia].
Qed.

Lemma quantize_zero s e cu t r :
  quantize (Finite s 0 e) (Finite false cu t) = Ok r ->
  exists e', r = Finite s 0 e'.
Proof.
  unfold quantize. cbn [check_nans].
  destruct (negb _); [discriminate |]. cbn [N.eqb fix_].
  intros [= <-]. eauto.
Qed.

(** [quantize] to a smaller or equal exponent only pads the coefficient,
    and refuses a result of more than eight digits. *)
Lemma quantize_pads s c e cu t r :
  c <> 0%N -> t <= e ->
  quantize (Finite s c e) (Finite false cu t) = Ok r ->
  r = Finite s (c * pow10 (e - t)) t /\ (c * pow10 (e - t) < pow10 prec)%N.
Proof.
  intros Hc Ht. unfold quantize. cbn [check_nans].
  destruct (Z.leb_spec Etiny t) as [Hlo |]; [| discriminate].
  destruct (t <=? Emax); [| discriminate]. cbn [andb negb].
  destruct (N.eqb_spec c 0); [contradiction |].
  destruct (Emax <? adjusted c e); [discriminate |].
  destruct (prec <? adjusted c e - t + 1); [discriminate |].
  unfold rescale. destruct (N.eqb_spec c 0); [contradiction |].
  destruct (Z.leb_spec t e); [| lia].
  destruct (Emax <? _); [discriminate |].
  destruct (Z.ltb_spec prec (ndigits (c * pow10 (e - t)))) as [| Hd];
    [discriminate |].
  intros Hfix. pose proof (ndigits_small _ Hd) as Hsmall.
  split; [| exact Hsmall].
  destruct (fix_cases _ _ _ _ Hlo Hfix)
    as [(H0 & _) | [(_ & ->) | (c' & e' & _ & _ & _ & Hbig)]];
    [| reflexivity | lia].
  pose proof (pow10_pos (e - t)). nia.
Qed.

(** What the adjustment returns, when it returns: a whole number of steps,
    not above the requested quantity.  The step size must not be below the
    smallest exponent of the context: a product rounded as a subnormal
    number can exceed the quantity. *)
Lemma adjust_quantity_sound c1 e1 c2 e2 r :
  Etiny <= e2 ->
  adjust_quantity (Finite false c1 e1) (Finite false c2 e2) = Ok r ->
  exists n : N,
    cmp r (Finite false (n * c2) e2) = Eq
    /\ cmp r (Finite false c1 e1) <> Gt.
Proof.
  intros He2. unfold adjust_quantity. cbn [abs_exponent rbind].
  destruct (floordiv _ _) as [steps | ex0] eqn:Hdiv; [| discriminate].
  destruct (floordiv_finite _ _ _ _ _ Hdiv) as (n & -> & Hle).
  cbn [rbind]. unfold mul. cbn [check_nans sign_of xorb].
  rewrite Z.add_0_l.
  destruct (fix_ (Finite false (n * c2) e2)) as [p | ex0] eqn:Hfix;
    [| discriminate].
  cbn [rbind].
  destruct (ten_pow_neg (Z.abs e2)) as [u | ex0] eqn:Hu; [| discriminate].
  destruct (ten_pow_neg_exponent _ _ He2 Hu) as (cu & t & -> & Ht).
  cbn [rbind]. intros Hq. exists n.
  destruct (fix_cases _ _ _ _ He2 Hfix)
    as [(H0 & e' & ->) | [(Hne & ->) | (c' & e' & -> & Hc' & He' & _)]].
  - apply quantize_zero in Hq as (e'' & ->). rewrite H0. cbn [cmp]. split.
    + apply (fin_eq_iff _ _ _ _ (Z.min e'' e2)); lia.
    + apply (fin_le_iff _ _ _ _ (Z.min e'' e1)); lia.
  - apply quantize_pads in Hq as (-> & _); [| exact Hne | exact Ht].
    cbn [cmp].
    assert (Heq : forall m0, m0 <= t ->
              (n * c2 * pow10 (e2 - t) * pow10 (t - m0)
               = n * c2 * pow10 (e2 - m0))%N).
    { intros m0 Hm0. symmetry. apply scaled_split; lia. }
    split.
    + apply (fin_eq_iff _ _ _ _ t); [lia | lia |].
      rewrite Z.sub_diag. change (pow10 0) with 1%N. lia.
    + apply (fin_le_iff _ _ _ _ (Z.min t e1)); [lia | lia |].
      rewrite Heq by lia.
      apply (fin_le_iff _ _ _ _ (Z.min t e1)) in Hle; [exact Hle | lia | lia].
  - exfalso.
    apply quantize_pads in Hq as (_ & Hsmall); [| | lia].
    + pose proof (pow10_mono 1 (e' - t) ltac:(lia)) as Hp.
      change (pow10 1) with 10%N in Hp.
      change (pow10 prec) with (pow10 7 * 10)%N in Hsmall. nia.
    + pose proof (pow10_pos 7). lia.
Qed.

End Decimal_facts.

(** ** Rounding to the precision of the context *)

Lemma ndigits_zero : ndigits 0 = 1.
Proof. reflexivity. Qed.

Lemma ndigits_le c n : 1 <= n -> (c < pow10 n)%N -> ndigits c <= n.
Proof.
  intros Hn Hc. destruct (N.eq_dec c 0%N) as [-> | Hne]; [rewrite ndigits_zero; lia |].
  destruct (ndigits_bounds c) as (_ & Hlo & _); [lia |].
  destruct (Z_le_gt_dec (ndigits c) n) as [| Hgt]; [assumption |].
  pose proof (pow10_mono n (ndigits c - 1) ltac:(lia)). lia.
Qed.

Lemma ndigits_ge c n : (pow10 (n - 1) <= c)%N -> n <= ndigits c.
Proof.
  intros Hc. pose proof (pow10_pos (n - 1)).
  destruct (ndigits_bounds c) as (_ & _ & Hhi); [lia |].
  destruct (Z_le_gt_dec n (ndigits c)) as [| Hgt]; [assumption |].
  pose proof (pow10_mono (ndigits c) (n - 1) ltac:(lia)). lia.
Qed.

Lemma ndigits_unique c n :
  1 <= n -> (pow10 (n - 1) <= c < pow10 n)%N -> ndigits c = n.
Proof.
  intros Hn [Hlo Hhi].
  pose proof (ndigits_le c n Hn Hhi). pose proof (ndigits_ge c n Hlo). lia.
Qed.

(** Rounding half to even is rounding to the nearest: the rounded
    coefficient, put back on the old exponent, is at most half a unit
    away. *)
Lemma round_half_even_near c k :
  (2 * (round_half_even c k * pow10 k) <= 2 * c + pow10 k
   /\ 2 * c <= 2 * (round_half_even c k * pow10 k) + pow10 k)%N.
Proof.
  unfold round_half_even. pose proof (pow10_pos k) as Hp.
  pose proof (N.div_mod c (pow10 k) ltac:(lia)) as Hdm.
  pose proof (N.mod_lt c (pow10 k) ltac:(lia)) as Hm.
  set (p := pow10 k) in *. clearbody p.
  set (q := (c / p)%N) in *. set (m := (c mod p)%N) in *. clearbody q m.
  destruct (N.ltb_spec p (2 * m)); cbn [orb].
  - nia.
  - destruct (N.eqb_spec (2 * m) p); cbn [andb].
    + destruct (N.odd q); nia.
    + nia.
Qed.

Lemma round_half_even_le c k n :
  0 <= k -> 0 <= n -> (c < pow10 (n + k))%N ->
  (round_half_even c k <= pow10 n)%N.
Proof.
  intros Hk Hn Hc. rewrite pow10_add in Hc by lia.
  pose proof (pow10_pos k) as Hp.
  assert (Hq : (c / pow10 k < pow10 n)%N).
  { apply N.Div0.div_lt_upper_bound. lia. }
  unfold round_half_even. destruct (_ || _); lia.
Qed.

(** [_fix] on a non-zero number: either nothing changes, or [k >= 1]
    digits are rounded away; the coefficient that reaches [10^prec] is
    cut by one more digit. *)
Lemma fix_shape s c e d :
  c <> 0%N ->
  fix_ (Finite s c e) = Ok d ->
  (d = Finite s c e /\ ndigits c <= prec /\ Etiny <= e /\ adjusted c e <= Emax)
  \/ exists k,
       1 <= k /\ e + k = Z.max (ndigits c + e - prec) Etiny /\ e + k <= Etop
       /\ ((d = Finite s (round_half_even c k) (e + k)
            /\ (round_half_even c k < pow10 prec)%N
            /\ ((pow10 (prec - 1) <= round_half_even c k)%N \/ e + k = Etiny))
           \/ (round_half_even c k = pow10 prec
               /\ d = Finite s (pow10 (prec - 1)) (e + k + 1)
               /\ e + k + 1 <= Etop)).
Proof.
  intros Hc. unfold fix_. destruct (N.eqb_spec c 0%N) as [| _]; [contradiction |].
  cbv zeta.
  destruct (Z.ltb_spec Etop (ndigits c + e - prec)) as [| Hno]; [discriminate |].
  destruct (Z.ltb_spec e (Z.max (ndigits c + e - prec) Etiny)) as [Hlt | Hge].
  - set (k := Z.max (ndigits c + e - prec) Etiny - e) in *.
    assert (Hk : 1 <= k) by lia.
    assert (Hek : Z.max (ndigits c + e - prec) Etiny = e + k) by lia.
    rewrite Hek.
    assert (Hle : (round_half_even c k <= pow10 prec)%N).
    { apply round_half_even_le; [lia | unfold prec; lia |].
      destruct (ndigits_bounds c) as (_ & _ & Hhi); [lia |].
      pose proof (pow10_mono (ndigits c) (prec + k) ltac:(lia)). lia. }
    destruct (Z.ltb_spec prec (ndigits (round_half_even c k))) as [Hcarry | Hfit].
    + assert (Hr : round_half_even c k = pow10 prec).
      { apply N.le_antisymm; [exact Hle |].
        apply N.le_ngt. intros Hlt'.
        pose proof (ndigits_le _ prec ltac:(unfold prec; lia) Hlt'). lia. }
      destruct (Z.ltb_spec Etop (e + k + 1)); [discriminate |].
      intros [= <-]. right. exists k.
      split; [exact Hk |]. split; [lia |]. split; [unfold Etiny, Etop in *; lia |].
      right. rewrite Hr. split; [reflexivity |]. split; [reflexivity | assumption].
    + destruct (Z.ltb_spec Etop (e + k)); [discriminate |].
      intros [= <-]. right. exists k.
      split; [exact Hk |]. split; [lia |]. split; [assumption |].
      left. split; [reflexivity |]. split.
      * apply ndigits_small. exact Hfit.
      * destruct (Z_le_gt_dec Etiny (ndigits c + e - prec)) as [Hnorm | Hsub];
          [left | right; lia].
        assert (Hk' : k = ndigits c - prec) by lia.
        apply N.le_trans with (c / pow10 k)%N; [| apply round_half_even_ge].
        destruct (ndigits_bounds c) as (_ & Hlo & _); [lia |].
        replace (ndigits c - 1) with ((prec - 1) + k) in Hlo by lia.
        rewrite pow10_add in Hlo by (unfold prec; lia).
        apply N.div_le_lower_bound; [pose proof (pow10_pos k); lia | lia].
  - intros [= <-]. left. split; [reflexivity |].
    unfold adjusted, Etop in *. lia.
Qed.

(** What [_fix] returns does not depend on the sign. *)
Lemma fix_sign s s' c e c' e' :
  fix_ (Finite s c e) = Ok (Finite s c' e') ->
  fix_ (Finite s' c e) = Ok (Finite s' c' e').
Proof.
  unfold fix_. destruct (c =? 0)%N; [intros [= <- <-]; reflexivity |].
  cbv zeta. destruct (Etop <? _); [discriminate |].
  destruct (_ <? _); [| intros [= <- <-]; reflexivity].
  destruct (prec <? _); (destruct (Etop <? _); [discriminate |]);
    intros [= <- <-]; reflexivity.
Qed.

Lemma fix_keeps_sign s c e d :
  fix_ (Finite s c e) = Ok d -> exists c' e', d = Finite s c' e'.
Proof.
  unfold fix_. destruct (c =? 0)%N; [intros [= <-]; eauto |].
  cbv zeta. destruct (Etop <? _); [discriminate |].
  destruct (_ <? _); [| intros [= <-]; eauto].
  destruct (prec <? _); (destruct (Etop <? _); [discriminate |]);
    intros [= <-]; eauto.
Qed.

(** A number within the precision and the exponent range is left as it
    is. *)
Lemma fix_fits s c e :
  c <> 0%N -> ndigits c <= prec -> Etiny <= e -> adjusted c e <= Emax ->
  fix_ (Finite s c e) = Ok (Finite s c e).
Proof.
  intros Hc Hn He Ha. unfold fix_, adjusted, Etop in *.
  destruct (N.eqb_spec c 0%N); [contradiction |]. cbv zeta.
  destruct (Z.ltb_spec (Emax - prec + 1) (ndigits c + e - prec)); [lia |].
  destruct (Z.ltb_spec e (Z.max (ndigits c + e - prec) Etiny)); [lia | reflexivity].
Qed.

(** [_fix] is idempotent, whatever the sign put on its result. *)
Lemma fix_twice s c e s' c' e' s2 :
  fix_ (Finite s c e) = Ok (Finite s' c' e') ->
  exists e2, fix_ (Finite s2 c' e') = Ok (Finite s2 c' e2).
Proof.
  intros H. destruct (N.eq_dec c' 0%N) as [-> | Hc'].
  { eexists. unfold fix_. cbn. reflexivity. }
  exists e'. destruct (N.eq_dec c 0%N) as [-> | Hc].
  { unfold fix_ in H. cbn in H. injection H as _ <- _. contradiction. }
  destruct (fix_shape s c e _ Hc H) as [(Hd & Hn & He & Ha) | (k & Hk & Hlo & Hhi & Hcase)].
  - injection Hd as -> -> ->. apply fix_fits; assumption.
  - assert (Hlo' : Etiny <= e + k) by lia.
    destruct Hcase as [(Hd & Hr & _) | (Hr & Hd & Hhi')]; injection Hd as -> -> ->.
    + apply fix_fits; [assumption | | assumption |].
      * apply ndigits_le; [unfold prec; lia | exact Hr].
      * pose proof (ndigits_le _ prec ltac:(unfold prec; lia) Hr).
        unfold adjusted, Etop in *. lia.
    + apply fix_fits; [assumption | | lia |].
      * rewrite (ndigits_unique (pow10 (prec - 1)) prec); [lia | unfold prec; lia |].
        split; [lia |]. vm_compute. reflexivity.
      * unfold adjusted.
        rewrite (ndigits_unique (pow10 (prec - 1)) prec);
          [| unfold prec; lia | split; [lia | vm_compute; reflexivity]].
        unfold Etop in *. lia.
Qed.

(** ** Division *)





Lemma half_below c W n :
  (2 * (c * W) <= 2 * n + W -> (2 * c - 1) * W <= 2 * n)%N.
Proof.
  intros H. destruct (N.eq_dec c 0%N) as [-> | Hc]; [cbn; lia |].
  assert (Hs : ((2 * c - 1) * W + W = 2 * (c * W))%N) by nia.
  lia.
Qed.





(** ** Multiplication *)

Lemma zero_compare e e' : fin_compare false 0 e false 0 e' = Eq.
Proof. unfold fin_compare, signed. cbn [N.mul]. apply Z.compare_refl. Qed.

(** The product of finite numbers is the exact product rounded to the
    precision of the context. *)
Lemma mul_rounded s1 c1 e1 s2 c2 e2 v :
  mul (Finite s1 c1 e1) (Finite s2 c2 e2) = Ok v ->
  rounded_product v (Finite s1 c1 e1) (Finite s2 c2 e2).
Proof.
  unfold mul. cbn [check_nans sign_of]. intros Hfix.
  assert (Hprec1 : 1 <= prec) by (unfold prec; lia).
  destruct (N.eq_dec (c1 * c2)%N 0%N) as [H0 | H0].
  { rewrite H0 in Hfix. destruct (fix_keeps_sign _ _ _ _ Hfix) as (c & e & ->).
    assert (c = 0%N) as ->.
    { unfold fix_ in Hfix. cbn in Hfix. injection Hfix as <- _. reflexivity. }
    cbn [rounded_product cmp]. rewrite H0.
    change (2 * 0 - 1)%N with 0%N. change (2 * 0)%N with 0%N.
    change (0 + 1)%N with 1%N.
    split; [reflexivity |].
    split; [rewrite ndigits_zero; lia |].
    split; [rewrite zero_compare; discriminate |].
    split; [| left; apply zero_compare].
    unfold fin_compare, signed. cbn [N.mul]. intros Hgt.
    apply Z.compare_gt_iff in Hgt. lia. }
  destruct (fix_shape _ _ _ _ H0 Hfix)
    as [(-> & Hn & _ & _) | (k & Hk & Hkdef & Hhi & Hcase)].
  - cbn [rounded_product cmp]. split; [reflexivity |]. split; [exact Hn |].
    rewrite !(fin_le_iff _ _ _ _ (e1 + e2) (Z.le_refl _) (Z.le_refl _)).
    rewrite (fin_eq_iff _ _ _ _ (e1 + e2) (Z.le_refl _) (Z.le_refl _)).
    rewrite Z.sub_diag. change (pow10 0) with 1%N.
    split; [lia |]. split; [lia | left; reflexivity].
  - pose proof (round_half_even_near (c1 * c2)%N k) as [Hb1 Hb2].
    set (r := round_half_even (c1 * c2)%N k) in *. set (p := pow10 k) in *.
    assert (Hp : (0 < p)%N) by apply pow10_pos.
    destruct Hcase as [(-> & Hr & Hfull) | (Hr & -> & _)];
      cbn [rounded_product cmp]; (split; [reflexivity |]).
    + split; [apply ndigits_le; [exact Hprec1 | exact Hr] |].
      rewrite (fin_le_iff (2 * r - 1)%N (e1 + e2 + k) _ _ (e1 + e2) ltac:(lia) (Z.le_refl _)).
      rewrite (fin_le_iff _ _ (2 * r + 1)%N (e1 + e2 + k) (e1 + e2) (Z.le_refl _) ltac:(lia)).
      rewrite Z.sub_diag. change (pow10 0) with 1%N.
      replace (e1 + e2 + k - (e1 + e2)) with k by lia. fold p.
      split; [| split].
      * pose proof (half_below r p (c1 * c2) ltac:(lia))%N. lia.
      * lia.
      * right. destruct Hfull as [Hfull | Hfull]; [left | right; exact Hfull].
        apply ndigits_unique; [exact Hprec1 | split; assumption].
    + assert (Hnd : ndigits (pow10 (prec - 1)) = prec).
      { apply ndigits_unique; [exact Hprec1 |].
        split; [lia | vm_compute; reflexivity]. }
      split; [lia |].
      rewrite (fin_le_iff (2 * pow10 (prec - 1) - 1)%N (e1 + e2 + k + 1) _ _ (e1 + e2)
                 ltac:(lia) (Z.le_refl _)).
      rewrite (fin_le_iff _ _ (2 * pow10 (prec - 1) + 1)%N (e1 + e2 + k + 1) (e1 + e2)
                 (Z.le_refl _) ltac:(lia)).
      rewrite Z.sub_diag. change (pow10 0) with 1%N.
      replace (e1 + e2 + k + 1 - (e1 + e2)) with (1 + k) by lia.
      rewrite pow10_add by lia. change (pow10 1) with 10%N. fold p.
      assert (H10 : (pow10 prec = 10 * pow10 (prec - 1))%N) by reflexivity.
      rewrite H10 in Hr. set (y := pow10 (prec - 1)) in *.
      assert (Hy : (1 <= y)%N) by (subst y; pose proof (pow10_pos (prec - 1)); lia).
      split; [| split; [| right; left; exact Hnd]].
      * rewrite Hr in Hb1. clearbody y p. clear - Hb1 Hy. nia.
      * rewrite Hr in Hb2. clearbody y p. clear - Hb2. nia.
Qed.

(** ** The button handler *)

Lemma startswith_app s p : startswith s p = true -> exists r, s = p ++ r.
Proof.
  revert s. induction p as [| a p IH]; intros s; simpl.
  - intros _. exists s. reflexivity.
  - destruct s as [| b s]; [discriminate |].
    intros [Hab Hs]%andb_prop. apply Ascii.eqb_eq in Hab as ->.
    destruct (IH s Hs) as [r ->]. exists r. reflexivity.
Qed.

Lemma split_acc_nonempty sep cur s : split_acc sep cur s <> [].
Proof.
  revert cur. induction s as [| a s IH]; intros cur; simpl; [discriminate |].
  destruct (Ascii.eqb a sep); [discriminate | apply IH].
Qed.

(** Callback data that starts with "confirm_" always has a second piece:
    the IndexError of [data.split("_")[1]] cannot happen. *)
Lemma confirm_data_has_pair data :
  startswith data "confirm_" = true ->
  exists p, split data "_" !! 1%nat = Some p.
Proof.
  intros H. destruct (startswith_app _ _ H) as [r ->].
  change (split ("confirm_" ++ r) "_") with ("confirm" :: split_acc "_" "" r).
  destruct (split_acc "_" "" r) as [| p l] eqn:Hr.
  - exfalso. exact (split_acc_nonempty _ _ _ Hr).
  - exists p. reflexivity.
Qed.

Section Button.

Variable ex : Exchange.

(** A confirm press never touches the dictionary: the branch of
    [handle_button] that runs the trade has no [pop]. *)
Lemma confirm_keeps_pending user_id data :
  startswith data "confirm_" = true ->
  keeps_pending (handle_button ex user_id data).
Proof.
  intros H. unfold handle_button. rewrite H.
  pose proof (keeps_execute_trade ex). keeps.
Qed.

Lemma cancel_run user_id w :
  handle_button ex user_id "cancel" w =
    (Ok tt, say {| pending_orders := delete user_id (pending_orders w);
                   calls := calls w;
                   sent := sent w |} Cancelled).
Proof. reflexivity. Qed.

Lemma expired_run user_id data p w :
  startswith data "confirm_" = true ->
  split data "_" !! 1%nat = Some p ->
  (forall o, pending_orders w !! user_id = Some o -> pair o <> p) ->
  handle_button ex user_id data w = (Ok tt, say w Expired).
Proof.
  intros Hc Hp Hno. unfold handle_button. rewrite Hc.
  destruct (split data "_") as [| x [| p' r]]; try discriminate.
  simpl in Hp. injection Hp as ->.
  unfold bind, pending_get.
  destruct (pending_orders w !! user_id) as [o |] eqn:Ho; [| reflexivity].
  destruct (String.eqb_spec (pair o) p) as [Heq | Hne]; [| reflexivity].
  exfalso. exact (Hno o eq_refl Heq).
Qed.

(** C3: a confirm press whose embedded pair (the second piece of the
    callback data split at underscores) is not the pair of the user's
    pending order, or that finds no pending order, is answered with the
    "operation expired" message alone: no client call is logged and the
    dictionary is unchanged.  The same holds for any confirm press that
    follows a cancel press of that user. *)
Theorem confirm_without_matching_order_expires user_id data p :
  startswith data "confirm_" = true ->
  split data "_" !! 1%nat = Some p ->
  (forall w,
      (forall o, pending_orders w !! user_id = Some o -> pair o <> p) ->
      handle_button ex user_id data w = (Ok tt, say w Expired))
  /\ (forall w,
        let w' := snd (handle_button ex user_id "cancel" w) in
        handle_button ex user_id data w' = (Ok tt, say w' Expired)).
Proof.
  intros Hc Hp. split.
  - intros w Hno. exact (expired_run user_id data p w Hc Hp Hno).
  - intros w w'. apply (expired_run user_id data p w' Hc Hp).
    intros o Ho. subst w'. rewrite cancel_run in Ho. simpl in Ho.
    rewrite lookup_delete_eq in Ho. discriminate.
Qed.

(** C6: the cancel press removes the entry of the requesting user, whatever
    it is, and answers "operation cancelled"; it logs no client call;
    without an entry the dictionary stays as it is; a second cancel leaves
    the dictionary of the first. *)
Theorem cancel_removes_and_is_idempotent user_id w :
  let w1 := snd (handle_button ex user_id "cancel" w) in
  let w2 := snd (handle_button ex user_id "cancel" w1) in
  fst (handle_button ex user_id "cancel" w) = Ok tt
  /\ pending_orders w1 = delete user_id (pending_orders w)
  /\ pending_orders w1 !! user_id = None
  /\ sent w1 = (sent w ++ [Cancelled])%list
  /\ calls w1 = calls w
  /\ (pending_orders w !! user_id = None -> pending_orders w1 = pending_orders w)
  /\ pending_orders w2 = pending_orders w1
  /\ calls w2 = calls w.
Proof.
  intros w1 w2. subst w2 w1. rewrite !cancel_run. simpl.
  repeat split.
  - apply lookup_delete_eq.
  - intros Hnone. apply delete_id. exact Hnone.
  - apply delete_id. apply lookup_delete_eq.
Qed.

End Button.

(** ** The buy and sell commands *)

Lemma Decimal_of_string_raises value e :
  Decimal_of_string value = Raise e -> e = InvalidOperation.
Proof.
  unfold Decimal_of_string.
  destruct (numeric_as_ascii value) as [text |]; [| intros [= <-]; reflexivity].
  destruct (take_sign text) as [sg body].
  destruct (parse_number sg body); [discriminate |].
  destruct (parse_special sg body); [discriminate |].
  intros [= <-]. reflexivity.
Qed.

Section Commands.

Variable ex : Exchange.

(** What [get_asset_balance] does on a lookup that gives a balance, and on
    one that gives none. *)
Lemma get_asset_balance_found asset w s balance :
  client_get_asset_balance ex (calls w) asset = Ok (Some s) ->
  Decimal_of_string s = Ok balance ->
  get_asset_balance ex asset w = (Ok balance, log w (GetAssetBalance asset)).
Proof.
  intros Hs Hb. unfold get_asset_balance, try_except, bind, call, lift.
  rewrite Hs, Hb. reflexivity.
Qed.

Lemma get_asset_balance_failed asset w :
  lookup_fails ex (calls w) asset ->
  get_asset_balance ex asset w = (Ok zero, log w (GetAssetBalance asset)).
Proof.
  unfold lookup_fails, get_asset_balance, try_except, bind, call, lift, raise.
  destruct (client_get_asset_balance ex (calls w) asset) as [[s |] | e];
    try reflexivity.
  intros [e He]. rewrite He. reflexivity.
Qed.

(** A sell command within the balance asks for the amount as it is. *)
Lemma sell_requested a p w amount balance w1 :
  Decimal_of_string a = Ok amount ->
  existsb (endswith (upper p)) stablecoins = true ->
  get_asset_balance ex (base_asset (upper p)) w = (Ok balance, w1) ->
  gt amount balance = Ok false ->
  requested_order ex [a; p] false w =
    (Ok (Some {| pair := upper p; quantity := amount; is_buy := false |}), w1).
Proof.
  intros Ha Hp Hb Hgt.
  unfold requested_order, bind, lift.
  rewrite Ha, Hp. cbn [negb]. cbv beta iota zeta. rewrite Hb, Hgt. reflexivity.
Qed.

(** The sell branch of [requested_order], once the balance is known. *)
Lemma sell_rejected user_id a p w amount balance w1 :
  Decimal_of_string a = Ok amount ->
  existsb (endswith (upper p)) stablecoins = true ->
  get_asset_balance ex (base_asset (upper p)) w = (Ok balance, w1) ->
  gt amount balance = Ok true ->
  confirm_trade ex user_id [a; p] false w =
    (Ok tt, say w1 (InsufficientBalance balance (base_asset (upper p)))).
Proof.
  intros Ha Hp Hb Hgt.
  unfold confirm_trade, requested_order, try_except, bind, lift.
  rewrite Ha, Hp. cbn [negb]. cbv beta iota zeta. rewrite Hb, Hgt. reflexivity.
Qed.

(** C7: a buy or sell command whose pair, upper-cased, ends neither in
    USDT nor in USDC is refused: it logs no client call, leaves the
    dictionary as it is and sends one message.  The message is the
    unsupported-pair one when the amount is a decimal literal; a command
    whose amount is no decimal literal is refused before the pair is
    looked at, with the error text for InvalidOperation. *)
Theorem unsupported_pair_rejected user_id a p b w :
  existsb (endswith (upper p)) stablecoins = false ->
  let w' := snd (confirm_trade ex user_id [a; p] b w) in
  (forall amount, Decimal_of_string a = Ok amount ->
     confirm_trade ex user_id [a; p] b w = (Ok tt, say w UnsupportedPair))
  /\ (forall e, Decimal_of_string a = Raise e ->
        confirm_trade ex user_id [a; p] b w
        = (Ok tt, say w (ErrorMessage InvalidOperation)))
  /\ pending_orders w' = pending_orders w
  /\ calls w' = calls w
  /\ exists m, sent w' = (sent w ++ [m])%list.
Proof.
  intros Hp w'. subst w'.
  unfold confirm_trade, requested_order, try_except, bind, lift.
  rewrite Hp. cbn [negb]. cbv beta iota zeta.
  destruct (Decimal_of_string a) as [amount | e] eqn:Ha.
  - simpl. repeat split; eauto. discriminate.
  - apply Decimal_of_string_raises in Ha as ->. simpl.
    repeat split; [discriminate | eauto].
Qed.

(** C5: a sell command whose amount is greater than the free balance the
    client reports for the base asset is answered with the
    insufficient-balance message; the dictionary is unchanged and the only
    client call is the balance lookup, so no order is placed. *)
Theorem sell_above_balance_rejected user_id a p w amount s balance :
  Decimal_of_string a = Ok amount ->
  existsb (endswith (upper p)) stablecoins = true ->
  client_get_asset_balance ex (calls w) (base_asset (upper p)) = Ok (Some s) ->
  Decimal_of_string s = Ok balance ->
  gt amount balance = Ok true ->
  confirm_trade ex user_id [a; p] false w =
    (Ok tt, {| pending_orders := pending_orders w;
               calls := calls w ++ [GetAssetBalance (base_asset (upper p))];
               sent := sent w ++
                       [InsufficientBalance balance (base_asset (upper p))] |}).
Proof.
  intros Ha Hp Hs Hb Hgt.
  pose proof (get_asset_balance_found _ _ _ _ Hs Hb) as Hbal.
  rewrite (sell_rejected user_id a p w amount balance _ Ha Hp Hbal Hgt).
  reflexivity.
Qed.

(** C10: when the free-balance lookup gives no balance, [get_asset_balance]
    returns zero and raises nothing, and a sell command with an amount
    above zero is answered with the insufficient-balance message showing a
    balance of 0, not with an error message; nothing is stored. *)
Theorem failed_lookup_reads_as_zero_balance user_id a p w amount :
  lookup_fails ex (calls w) (base_asset (upper p)) ->
  Decimal_of_string a = Ok amount ->
  existsb (endswith (upper p)) stablecoins = true ->
  gt amount zero = Ok true ->
  fst (get_asset_balance ex (base_asset (upper p)) w) = Ok zero
  /\ confirm_trade ex user_id [a; p] false w =
       (Ok tt, {| pending_orders := pending_orders w;
                  calls := calls w ++ [GetAssetBalance (base_asset (upper p))];
                  sent := sent w ++
                          [InsufficientBalance zero (base_asset (upper p))] |}).
Proof.
  intros Hf Ha Hp Hgt.
  pose proof (get_asset_balance_failed _ _ Hf) as Hz. split.
  - rewrite Hz. reflexivity.
  - rewrite (sell_rejected user_id a p w amount zero _ Ha Hp Hz Hgt).
    reflexivity.
Qed.

(** A command that asks for an order stores it under the user's id. *)
Lemma confirm_trade_stores user_id args b w o :
  fst (requested_order ex args b w) = Ok (Some o) ->
  pending_orders (snd (confirm_trade ex user_id args b w))
  = <[user_id := o]> (pending_orders w).
Proof.
  intros Ho. unfold confirm_trade, try_except, bind at 1.
  pose proof (keeps_requested_order ex args b w) as Hk.
  destruct (requested_order ex args b w) as [r w1]. simpl in Ho, Hk. subst r.
  unfold bind at 1, pending_set at 1. cbv beta iota.
  match goal with |- context [prompt ex o ?w2] =>
    pose proof (keeps_prompt ex o w2) as Hq;
    destruct (prompt ex o w2) as [[[] | e] w3]
  end; simpl in Hq |- *.
  - rewrite Hq, Hk. reflexivity.
  - destruct e; simpl; rewrite Hq, Hk; reflexivity.
Qed.

(** A command that asks for no order, or raises, stores nothing. *)
Lemma confirm_trade_keeps user_id args b w :
  (forall o, fst (requested_order ex args b w) <> Ok (Some o)) ->
  pending_orders (snd (confirm_trade ex user_id args b w)) = pending_orders w.
Proof.
  intros Hno. unfold confirm_trade, try_except, bind at 1.
  pose proof (keeps_requested_order ex args b w) as Hk.
  destruct (requested_order ex args b w) as [[[o |] | e] w1]; simpl in *.
  - exfalso. exact (Hno o eq_refl).
  - exact Hk.
  - destruct e; exact Hk.
Qed.

(** C4: the dictionary holds one entry per user id.  Whatever a first
    command of a user did, a following buy or sell command of that user
    that passes validation (it asks for the order [o2]) leaves [o2] as the
    user's entry: the dictionary is the one before the first command with
    [o2] written over the user's entry, and the entries of others are as
    they were. *)
Theorem second_command_overwrites user_id args1 b1 args2 b2 w o2 :
  let w1 := snd (confirm_trade ex user_id args1 b1 w) in
  let w2 := snd (confirm_trade ex user_id args2 b2 w1) in
  fst (requested_order ex args2 b2 w1) = Ok (Some o2) ->
  pending_orders w2 !! user_id = Some o2
  /\ pending_orders w2 = <[user_id := o2]> (pending_orders w)
  /\ (forall other, other <> user_id ->
        pending_orders w2 !! other = pending_orders w !! other).
Proof.
  intros w1 w2 H2.
  assert (Hw2 : pending_orders w2 = <[user_id := o2]> (pending_orders w)).
  { subst w2. rewrite (confirm_trade_stores _ _ _ _ _ H2). subst w1.
    destruct (fst (requested_order ex args1 b1 w)) as [[o1 |] | e] eqn:H1.
    - rewrite (confirm_trade_stores _ _ _ _ _ H1). apply insert_insert_eq.
    - rewrite confirm_trade_keeps; [reflexivity | intros o; rewrite H1; discriminate].
    - rewrite confirm_trade_keeps; [reflexivity | intros o; rewrite H1; discriminate]. }
  rewrite Hw2. split; [apply lookup_insert_eq | split; [reflexivity |]].
  intros other Hne. apply lookup_insert_ne. congruence.
Qed.

End Commands.

Section Buy.

Variable ex : Exchange.



End Buy.

(** ** Placing an order *)

Section Orders.

Variable ex : Exchange.

Lemma check_symbol_rules_world pair w :
  snd (check_symbol_rules ex pair w) = log w (GetSymbolInfo pair).
Proof.
  unfold check_symbol_rules, try_except, bind, call, lift, raise, ret.
  destruct (client_get_symbol_info ex (calls w) pair) as [[filters |] | e];
    try reflexivity.
  destruct (find _ filters) as [lot_size |]; [| reflexivity].
  destruct (minQty lot_size) as [m |]; [| reflexivity].
  destruct (Decimal_of_string m); [| reflexivity].
  destruct (stepSize lot_size) as [st |]; [| reflexivity].
  destruct (Decimal_of_string st); reflexivity.
Qed.

(** [execute_trade] catches every exception. *)
Lemma execute_trade_returns pair q b w :
  exists r, fst (execute_trade ex pair q b w) = Ok r.
Proof.
  unfold execute_trade, try_except.
  match goal with |- context [match ?m w with _ => _ end] =>
    destruct (m w) as [[r | e] w1]
  end; [eauto |].
  destruct e; eexists; reflexivity.
Qed.

(** An order is placed only for a quantity the adjustment returned and
    that is not below the minimum; it is the one client call after the
    lookup of the rules. *)
Lemma execute_trade_order pair q b w order err w' :
  execute_trade ex pair q b w = (Ok (Some order, err), w') ->
  exists rules r,
    fst (check_symbol_rules ex pair w) = Ok (Some rules)
    /\ adjust_quantity q (step_size rules) = Ok r
    /\ lt r (min_qty rules) = Ok false
    /\ calls w' = (calls w ++ [GetSymbolInfo pair;
                               if b then OrderMarketBuy pair r
                               else OrderMarketSell pair r])%list.
Proof.
  unfold execute_trade, try_except, bind at 1.
  pose proof (check_symbol_rules_world pair w) as Hw.
  destruct (check_symbol_rules ex pair w) as [[[rules |] | e] w1];
    simpl in Hw; subst w1.
  - unfold bind at 1, lift at 1.
    destruct (adjust_quantity q (step_size rules)) as [r | e] eqn:Hadj;
      [| destruct e; discriminate].
    unfold bind at 1, lift at 1.
    destruct (lt r (min_qty rules)) as [[] | e] eqn:Hlt;
      [discriminate | | destruct e; discriminate].
    intros H. exists rules, r.
    split; [reflexivity |]. split; [exact Hadj |]. split; [exact Hlt |].
    destruct b; unfold bind, call, ret in H; simpl in H.
    + destruct (client_order_market_buy ex _ pair r) as [o | e];
        [| destruct e; discriminate].
      injection H as _ _ <-. simpl. rewrite <- app_assoc. reflexivity.
    + destruct (client_order_market_sell ex _ pair r) as [o | e];
        [| destruct e; discriminate].
      injection H as _ _ <-. simpl. rewrite <- app_assoc. reflexivity.
  - discriminate.
  - destruct e; discriminate.
Qed.

End Orders.

(** ** Where the program falls short of its description *)

(** C1: the program keeps a pending order through its confirmation.
    After user 7 confirms a pending buy of 0.002 BTCUSDT the entry is
    still in the dictionary, and a second press of the same button places
    a second market order. *)
Theorem confirm_leaves_order_for_second_confirm :
  let w0 := Scenario.waiting (Finite false 2 (-3)) in
  let w1 := snd (handle_button Scenario.ex1 Scenario.alice "confirm_BTCUSDT" w0) in
  let w2 := snd (handle_button Scenario.ex1 Scenario.alice "confirm_BTCUSDT" w1) in
  pending_orders w1 !! Scenario.alice
  = Some (Scenario.btc_order (Finite false 2 (-3)))
  /\ List.filter is_order (calls w1)
     = [OrderMarketBuy "BTCUSDT" (Finite false 20 (-4))]
  /\ List.filter is_order (calls w2)
     = [OrderMarketBuy "BTCUSDT" (Finite false 20 (-4));
        OrderMarketBuy "BTCUSDT" (Finite false 20 (-4))]
  /\ sent w2 = [Processing;
                TradeDone true "BTCUSDT" "0.00200000" "50000.00000000"
                  "100.00000000";
                Processing;
                TradeDone true "BTCUSDT" "0.00200000" "50000.00000000"
                  "100.00000000"].
Proof. vm_compute. repeat split. Qed.

(** C2: with the LOT_SIZE filter as the exchange prints it (step size
    0.00001000, minimum 0.00001000) the adjustment of the quantity 1 gives
    no quantity: the product 100000 * 0.00001000 takes nine digits, is
    rounded to 1.0000000, and [quantize] to eight decimals raises
    InvalidOperation.  [execute_trade] reports a generic error, not a
    quantity that is too small, and places no order; so does the confirm
    press after [/buy 50000 BTCUSDT] at a price of 50000. *)
Theorem adjustment_of_one_unit_raises :
  Decimal_of_string "1" = Ok (Finite false 1 0)
  /\ Decimal_of_string "0.00001000" = Ok (Finite false 1000 (-8))
  /\ floordiv (Finite false 1 0) (Finite false 1000 (-8))
     = Ok (Finite false 100000 0)
  /\ mul (Finite false 100000 0) (Finite false 1000 (-8))
     = Ok (Finite false 10000000 (-7))
  /\ adjust_quantity (Finite false 1 0) (Finite false 1000 (-8))
     = Raise InvalidOperation
  /\ execute_trade Scenario.ex2 "BTCUSDT" (Finite false 1 0) true Scenario.start
     = (Ok (None, Some (GenericError InvalidOperation)),
        log Scenario.start (GetSymbolInfo "BTCUSDT"))
  /\ (let w1 := snd (buy_command Scenario.ex2 Scenario.alice
                       ["50000"; "BTCUSDT"] Scenario.start) in
      let w2 := snd (handle_button Scenario.ex2 Scenario.alice
                       "confirm_BTCUSDT" w1) in
      pending_orders w1 !! Scenario.alice
      = Some (Scenario.btc_order (Finite false 1 0))
      /\ List.filter is_order (calls w2) = []
      /\ last (sent w2) = Some (TradeFailed (Some (GenericError InvalidOperation)))).
Proof. vm_compute. repeat split. Qed.

(** ** The balance listing *)

Lemma insert_by_key_perm x l l' :
  insert_by_key x l = Ok l' -> Permutation (x :: l) l'.
Proof.
  revert l'. induction l as [| y r IH]; intros l'; simpl.
  - intros [= <-]. reflexivity.
  - destruct (lt (fst x) (fst y)) as [[] | e]; simpl; try discriminate.
    + intros [= <-]. reflexivity.
    + destruct (insert_by_key x r) as [r' | e]; simpl; try discriminate.
      intros [= <-]. rewrite perm_swap. constructor. apply IH. reflexivity.
Qed.

Lemma sort_keyed_perm todo : forall done l',
  sort_keyed done todo = Ok l' -> Permutation (done ++ todo) l'.
Proof.
  induction todo as [| x rest IH]; intros done l'; simpl.
  - intros [= <-]. rewrite app_nil_r. reflexivity.
  - destruct (insert_by_key x done) as [done' | e] eqn:Hi; simpl; try discriminate.
    intros Hs. apply IH in Hs. rewrite <- Hs.
    apply insert_by_key_perm in Hi.
    rewrite <- Permutation_middle.
    exact (Permutation_app_tail rest Hi).
Qed.

Lemma keys_of_snd l ks : keys_of l = Ok ks -> map snd ks = l.
Proof.
  revert ks. induction l as [| b r IH]; intros ks; simpl.
  - intros [= <-]. reflexivity.
  - destruct (neg (value b)) as [k | e]; simpl; try discriminate.
    destruct (keys_of r) as [ks' | e]; simpl; try discriminate.
    intros [= <-]. simpl. f_equal. apply IH. reflexivity.
Qed.

(** Sorting keeps the entries. *)
Lemma sorted_by_value_perm l l' :
  sorted_by_value l = Ok l' -> Permutation l l'.
Proof.
  unfold sorted_by_value.
  destruct (keys_of l) as [ks | e] eqn:Hk; simpl; try discriminate.
  destruct (sort_keyed [] ks) as [s | e] eqn:Hs; simpl; try discriminate.
  intros [= <-]. apply sort_keyed_perm in Hs. simpl in Hs.
  apply keys_of_snd in Hk. rewrite <- Hk.
  apply Permutation_map. exact Hs.
Qed.

Section Valuation.

Variable ex : Exchange.

Lemma value_loop_resolved name amount coin rest w v :
  resolves ex (calls w) name coin amount v ->
  value_loop ex name amount (coin :: rest) w
  = (Ok v, log w (GetSymbolTicker (name ++ coin))).
Proof.
  intros (s & price & Hs & Hp & Hm).
  simpl. unfold try_except, bind, call, lift. rewrite Hs, Hp, Hm. reflexivity.
Qed.

Lemma value_loop_unresolved name amount coin rest w :
  (forall v, ~ resolves ex (calls w) name coin amount v) ->
  value_loop ex name amount (coin :: rest) w
  = value_loop ex name amount rest (log w (GetSymbolTicker (name ++ coin))).
Proof.
  intros Hno. simpl. unfold try_except, bind, call, lift.
  destruct (client_get_symbol_ticker ex (calls w) (name ++ coin))
    as [s | e] eqn:Hs; [| reflexivity].
  destruct (Decimal_of_string s) as [price | e] eqn:Hp; [| reflexivity].
  destruct (mul amount price) as [v | e] eqn:Hm; [| reflexivity].
  exfalso. apply (Hno v). exists s, price. auto.
Qed.

(** A pair resolves to some value, or to none. *)
Lemma resolves_or_not h name coin amount :
  (exists v, resolves ex h name coin amount v)
  \/ (forall v, ~ resolves ex h name coin amount v).
Proof.
  unfold resolves.
  destruct (client_get_symbol_ticker ex h (name ++ coin)) as [s | e] eqn:Hs.
  - destruct (Decimal_of_string s) as [price | e] eqn:Hp.
    + destruct (mul amount price) as [v | e] eqn:Hm.
      * left. exists v, s, price. auto.
      * right. intros v (s' & price' & [= <-] & Hp' & Hm').
        rewrite Hp in Hp'. injection Hp' as <-. rewrite Hm in Hm'. discriminate.
    + right. intros v (s' & price' & [= <-] & Hp' & _).
      rewrite Hp in Hp'. discriminate.
  - right. intros v (s' & price' & Hs' & _). discriminate.
Qed.

Lemma stablecoin_test name :
  existsb (String.eqb name) stablecoins = true <-> In name stablecoins.
Proof.
  rewrite existsb_exists. split.
  - intros (x & Hx & He). apply String.eqb_eq in He. subst. exact Hx.
  - intros Hx. exists name. split; [exact Hx | apply String.eqb_refl].
Qed.

(** [usdt_value] always returns, and what it returns is the valuation. *)
Lemma usdt_value_valuation name amount w :
  exists v w1,
    usdt_value ex name amount w = (Ok v, w1) /\ valuation ex name amount w v w1.
Proof.
  unfold usdt_value, valuation. cbv zeta.
  destruct (existsb (String.eqb name) stablecoins) eqn:Hst.
  - exists amount, w. split; [reflexivity |]. left.
    split; [apply stablecoin_test; exact Hst | auto].
  - assert (Hnot : ~ In name stablecoins).
    { intros Hin. apply stablecoin_test in Hin. congruence. }
    unfold stablecoins at 1.
    destruct (resolves_or_not (calls w) name "USDT" amount) as [[v Hv] | Hno1].
    { exists v, (log w (GetSymbolTicker (name ++ "USDT"))).
      split; [apply value_loop_resolved; exact Hv |]. right. auto. }
    rewrite value_loop_unresolved by exact Hno1.
    destruct (resolves_or_not (calls (log w (GetSymbolTicker (name ++ "USDT"))))
                name "USDC" amount) as [[v Hv] | Hno2].
    { eexists v, _. split; [apply value_loop_resolved; exact Hv |].
      right. split; [exact Hnot |]. right. left. auto. }
    rewrite value_loop_unresolved by exact Hno2.
    eexists zero, _. split; [reflexivity |].
    right. split; [exact Hnot |]. right. right. auto.
Qed.

(** The loop over the account builds the entries of the holdings it
    keeps, in their order, threading the world through the lookups. *)
Lemma balances_loop_listed items : forall acc w l w',
  balances_loop ex items acc w = (Ok l, w') ->
  exists entries,
    l = (acc ++ entries)%list /\ listed ex (above_dust items) w entries w'.
Proof.
  induction items as [| [name free_s] rest IH]; intros acc w l w'.
  - cbn. intros [= <- <-]. exists []. rewrite app_nil_r. split; [reflexivity | constructor].
  - cbn [balances_loop above_dust]. unfold bind at 1, lift at 1.
    destruct (Decimal_of_string free_s) as [amount | e]; [| discriminate].
    unfold bind at 1, lift at 1.
    destruct (gt amount (Finite false 1 (-4))) as [[] | e];
      [| apply IH | discriminate].
    unfold bind at 1.
    destruct (usdt_value_valuation name amount w) as (v & w1 & Hrun & Hval).
    rewrite Hrun. intros H. apply IH in H as (entries & -> & Hl).
    exists ({| asset := name; free := amount; value := v |} :: entries).
    split; [rewrite <- app_assoc; reflexivity |].
    econstructor; eassumption.
Qed.

(** *** The listing is produced *)

Lemma in_range_neg d :
  in_range d -> exists k, neg d = Ok k /\ is_nan k = false.
Proof.
  destruct d as [s c e | s | s sg]; cbn [in_range neg]; [| eauto | contradiction].
  intros Hr. destruct (N.eqb_spec c 0%N) as [-> | Hc].
  - eexists. split; [reflexivity | reflexivity].
  - assert (Hfix : forall s', exists c' e', fix_ (Finite s' c e) = Ok (Finite s' c' e')).
    { intros s'. unfold fix_, adjusted, Etop in *.
      destruct (N.eqb_spec c 0%N); [contradiction |]. cbv zeta.
      destruct (Z.ltb_spec (Emax - prec + 1) (ndigits c + e - prec)); [lia |].
      destruct (Z.ltb_spec e (Z.max (ndigits c + e - prec) Etiny)); [| eauto].
      destruct (prec <? _).
      - destruct (Z.ltb_spec (Emax - prec + 1)
                    (Z.max (ndigits c + e - prec) Etiny + 1));
          [unfold Etiny, Emin, Emax, prec in *; lia | eauto].
      - destruct (Z.ltb_spec (Emax - prec + 1)
                    (Z.max (ndigits c + e - prec) Etiny));
          [unfold Etiny, Emin, Emax, prec in *; lia | eauto]. }
    destruct (Hfix (negb s)) as (c' & e' & ->). eexists. split; reflexivity.
Qed.

(** A value computed by [_fix] can be negated: it is a sort key. *)
Lemma fixed_neg s c e v :
  fix_ (Finite s c e) = Ok v -> exists k, neg v = Ok k /\ is_nan k = false.
Proof.
  intros Hfix. destruct (fix_keeps_sign _ _ _ _ Hfix) as (c' & e' & ->).
  cbn [neg]. destruct (c' =? 0)%N.
  - destruct (fix_twice _ _ _ _ _ _ false Hfix) as (e2 & ->). eauto.
  - destruct (fix_twice _ _ _ _ _ _ (negb s) Hfix) as (e2 & ->). eauto.
Qed.

Lemma product_neg a b v :
  is_nan a = false -> is_nan b = false ->
  mul a b = Ok v -> exists k, neg v = Ok k /\ is_nan k = false.
Proof.
  intros Ha Hb. unfold mul.
  destruct a as [s1 c1 e1 | s1 | ? ?], b as [s2 c2 e2 | s2 | ? ?];
    try discriminate; cbn [check_nans sign_of is_zero].
  - apply fixed_neg.
  - destruct (c1 =? 0)%N; [discriminate |]. intros [= <-]. cbn. eauto.
  - destruct (c2 =? 0)%N; [discriminate |]. intros [= <-]. cbn. eauto.
  - intros [= <-]. cbn. eauto.
Qed.

Lemma valuation_key name amount w v w1 :
  quotes_numbers ex -> in_range amount ->
  valuation ex name amount w v w1 -> exists k, neg v = Ok k /\ is_nan k = false.
Proof.
  intros Hq Hr Hval.
  assert (Hnan : is_nan amount = false) by (destruct amount; [reflexivity.. | contradiction]).
  assert (Hres : forall h coin, resolves ex h name coin amount v ->
                                exists k, neg v = Ok k /\ is_nan k = false).
  { intros h coin (s & price & Hs & Hp & Hm).
    apply (product_neg amount price); [exact Hnan | exact (Hq _ _ _ _ Hs Hp) | exact Hm]. }
  destruct Hval as [(_ & -> & _) | (_ & [(H & _) | [(_ & H & _) | (_ & _ & -> & _)]])].
  - apply in_range_neg. exact Hr.
  - exact (Hres _ _ H).
  - exact (Hres _ _ H).
  - eexists. split; reflexivity.
Qed.

Lemma gt_in_range d x : in_range d -> is_nan x = false -> exists b, gt d x = Ok b.
Proof.
  intros Hr Hx. unfold gt. rewrite Hx.
  destruct d; [| | contradiction]; cbn [is_nan orb]; eauto.
Qed.

Lemma balances_loop_total items : forall acc w,
  quotes_numbers ex -> plain_account items -> Forall key_ready acc ->
  exists l w', balances_loop ex items acc w = (Ok l, w') /\ Forall key_ready l.
Proof.
  induction items as [| [name free_s] rest IH]; intros acc w Hq Hplain Hacc.
  - exists acc, w. split; [reflexivity | exact Hacc].
  - apply Forall_cons_1 in Hplain as [(amount & Hparse & Hr) Hrest].
    cbn [snd] in Hparse.
    cbn [balances_loop]. unfold bind at 1, lift at 1. rewrite Hparse.
    unfold bind at 1, lift at 1.
    destruct (gt_in_range amount (Finite false 1 (-4)) Hr eq_refl) as [[] ->].
    + unfold bind at 1.
      destruct (usdt_value_valuation name amount w) as (v & w1 & -> & Hval).
      apply IH; [exact Hq | exact Hrest |].
      apply Forall_app. split; [exact Hacc |]. constructor; [| constructor].
      exact (valuation_key _ _ _ _ _ Hq Hr Hval).
    + apply IH; assumption.
Qed.

Lemma insert_by_key_total x l :
  is_nan (fst x) = false -> Forall (fun y => is_nan (fst y) = false) l ->
  exists l', insert_by_key x l = Ok l' /\ Forall (fun y => is_nan (fst y) = false) l'.
Proof.
  intros Hx. induction l as [| y r IH]; intros Hl.
  - exists [x]. split; [reflexivity | constructor; [exact Hx | constructor]].
  - apply Forall_cons_1 in Hl as [Hy Hr].
    cbn [insert_by_key]. unfold lt. rewrite Hx, Hy. cbn [orb rbind].
    destruct (cmp (fst x) (fst y)).
    + destruct (IH Hr) as (r' & -> & Hr'). cbn [rbind]. eexists. split; [reflexivity |].
      constructor; assumption.
    + eexists. split; [reflexivity |]. repeat constructor; assumption.
    + destruct (IH Hr) as (r' & -> & Hr'). cbn [rbind]. eexists. split; [reflexivity |].
      constructor; assumption.
Qed.

Lemma sort_keyed_total todo : forall done,
  Forall (fun y => is_nan (fst y) = false) done ->
  Forall (fun y => is_nan (fst y) = false) todo ->
  exists l, sort_keyed done todo = Ok l.
Proof.
  induction todo as [| x rest IH]; intros done Hd Ht.
  - eexists. reflexivity.
  - apply Forall_cons_1 in Ht as [Hx Hrest]. cbn [sort_keyed].
    destruct (insert_by_key_total x done Hx Hd) as (done' & -> & Hd').
    cbn [rbind]. apply IH; assumption.
Qed.

Lemma keys_of_total l :
  Forall key_ready l ->
  exists ks, keys_of l = Ok ks /\ Forall (fun y => is_nan (fst y) = false) ks.
Proof.
  induction l as [| b r IH]; intros Hl.
  - exists []. split; [reflexivity | constructor].
  - apply Forall_cons_1 in Hl as [(k & Hk & Hnan) Hr].
    destruct (IH Hr) as (ks & Hks & Hall).
    cbn [keys_of]. rewrite Hk. cbn [rbind]. rewrite Hks. cbn [rbind].
    eexists. split; [reflexivity |]. constructor; assumption.
Qed.

Lemma sorted_by_value_total l :
  Forall key_ready l -> exists s, sorted_by_value l = Ok s.
Proof.
  intros Hl. unfold sorted_by_value.
  destruct (keys_of_total l Hl) as (ks & -> & Hks). cbn [rbind].
  destruct (sort_keyed_total ks [] ltac:(constructor) Hks) as (s & ->).
  cbn [rbind]. eauto.
Qed.

(** C9: the listing [get_all_balances] returns holds, reordered, the
    entries of the holdings above 0.0001 taken in the order of the account,
    each valued where the one before left the world: a stablecoin at its
    free amount, with no client call; any other asset through its USDT
    pair when that pair resolves (one ticker call), else through its USDC
    pair when that one resolves (a second ticker call), as the free amount
    times that price; at zero when neither resolves.  The product is the
    exact product rounded to the eight digits of the context.  A listing
    is returned whenever the free amounts read as numbers in range and the
    exchange quotes no NaN. *)
Theorem value_from_first_resolving_stablecoin w items :
  client_get_account ex (calls w) = Ok items ->
  (forall l w', get_all_balances ex w = (Ok (Some l), w') ->
     exists entries,
       listed ex (above_dust items) (log w GetAccount) entries w'
       /\ Permutation entries l)
  /\ (quotes_numbers ex -> plain_account items ->
      exists l w', get_all_balances ex w = (Ok (Some l), w'))
  /\ (forall s1 c1 e1 s2 c2 e2 v,
        mul (Finite s1 c1 e1) (Finite s2 c2 e2) = Ok v ->
        rounded_product v (Finite s1 c1 e1) (Finite s2 c2 e2)).
Proof.
  intros Hacc. unfold get_all_balances, try_except, bind at 1, call.
  rewrite Hacc. split; [| split].
  - intros l w'. unfold bind at 1.
    destruct (balances_loop ex items [] (log w GetAccount)) as [[balances | e] w1] eqn:Hl;
      [| intros [= ]].
    apply balances_loop_listed in Hl as (entries & -> & Hlisted).
    unfold bind, lift, ret.
    destruct (sorted_by_value ([] ++ entries)) as [sorted | e] eqn:Hs; [| intros [= ]].
    intros [= <- <-]. exists entries. split; [exact Hlisted |].
    apply sorted_by_value_perm in Hs. exact Hs.
  - intros Hq Hplain.
    destruct (balances_loop_total items [] (log w GetAccount) Hq Hplain ltac:(constructor))
      as (l & w' & Hrun & Hkeys).
    destruct (sorted_by_value_total l Hkeys) as (s & Hs).
    exists s, w'. unfold bind at 1. rewrite Hacc. unfold bind at 1. rewrite Hrun.
    unfold bind, lift, ret. rewrite Hs. reflexivity.
  - intros s1 c1 e1 s2 c2 e2 v. apply mul_rounded.
Qed.

End Valuation.

(** ** The theorems at work on the concrete exchange *)

Section Instances.

Import Scenario.

(** User 7 waits on a BTCUSDT order and presses an old ETHUSDC button. *)
Lemma confirm_without_matching_order_expires_witness :
  startswith "confirm_ETHUSDC" "confirm_" = true
  /\ split "confirm_ETHUSDC" "_" !! 1%nat = Some "ETHUSDC"
  /\ handle_button ex1 alice "confirm_ETHUSDC" (waiting (Finite false 2 (-3)))
     = (Ok tt, say (waiting (Finite false 2 (-3))) Expired).
Proof.
  split; [reflexivity | split; [reflexivity |]].
  apply (proj1 (confirm_without_matching_order_expires ex1 alice
                  "confirm_ETHUSDC" "ETHUSDC" eq_refl eq_refl)).
  intros o Ho. vm_compute in Ho. injection Ho as <-. discriminate.
Defined.

(** [/buy 100 BTCETH] *)
Lemma unsupported_pair_rejected_witness :
  existsb (endswith (upper "BTCETH")) stablecoins = false
  /\ confirm_trade ex1 alice ["100"; "BTCETH"] true start
     = (Ok tt, say start UnsupportedPair).
Proof.
  split; [reflexivity |].
  apply (proj1 (unsupported_pair_rejected ex1 alice "100" "BTCETH" true start
                  eq_refl) (Finite false 100 0)).
  reflexivity.
Defined.

(** [/sell 0.5 ETHUSDC] with 0.3 ETH free. *)
Lemma sell_above_balance_rejected_witness :
  Decimal_of_string "0.5" = Ok (Finite false 5 (-1))
  /\ Decimal_of_string "0.3" = Ok (Finite false 3 (-1))
  /\ gt (Finite false 5 (-1)) (Finite false 3 (-1)) = Ok true
  /\ confirm_trade ex1 alice ["0.5"; "ETHUSDC"] false start
     = (Ok tt, {| pending_orders := ∅;
                  calls := [GetAssetBalance "ETH"];
                  sent := [InsufficientBalance (Finite false 3 (-1)) "ETH"] |}).
Proof.
  repeat (split; [reflexivity |]).
  apply (sell_above_balance_rejected ex1 alice "0.5" "ETHUSDC" start
           (Finite false 5 (-1)) "0.3" (Finite false 3 (-1)));
    reflexivity.
Defined.

(** [/sell 0.5 BTCUSDT] while the lookup of BTC raises. *)
Lemma failed_lookup_reads_as_zero_balance_witness :
  client_get_asset_balance ex1 [] "BTC"
  = Raise (BinanceAPIException "Invalid asset")
  /\ confirm_trade ex1 alice ["0.5"; "BTCUSDT"] false start
     = (Ok tt, {| pending_orders := ∅;
                  calls := [GetAssetBalance "BTC"];
                  sent := [InsufficientBalance zero "BTC"] |}).
Proof.
  split; [reflexivity |].
  apply (proj2 (failed_lookup_reads_as_zero_balance ex1 alice "0.5" "BTCUSDT"
                  start (Finite false 5 (-1)) I eq_refl eq_refl eq_refl)).
Defined.

(** [/sell 0.1 ETHUSDC], then [/buy 100 BTCUSDT] before confirming. *)
Lemma second_command_overwrites_witness :
  let w1 := snd (confirm_trade ex1 alice ["0.1"; "ETHUSDC"] false start) in
  let w2 := snd (confirm_trade ex1 alice ["100"; "BTCUSDT"] true w1) in
  pending_orders w1 !! alice
  = Some {| pair := "ETHUSDC"; quantity := Finite false 1 (-1); is_buy := false |}
  /\ fst (requested_order ex1 ["100"; "BTCUSDT"] true w1)
     = Ok (Some (btc_order (Finite false 2 (-3))))
  /\ pending_orders w2 !! alice = Some (btc_order (Finite false 2 (-3))).
Proof.
  split; [reflexivity | split; [reflexivity |]].
  apply (proj1 (second_command_overwrites ex1 alice ["0.1"; "ETHUSDC"] false
                  ["100"; "BTCUSDT"] true start
                  (btc_order (Finite false 2 (-3))) eq_refl)).
Defined.


(** [/balance] on the concrete exchange: BTC through USDT, ETH through USDC
    after USDT failed, USDT at its free amount, XYZ at zero; sorted by
    decreasing value. *)
Example balance_listing :
  get_all_balances ex1 start
  = (Ok (Some [ {| asset := "BTC"; free := Finite false 5 (-1);
                   value := Finite false 250000 (-1) |};
                {| asset := "ETH"; free := Finite false 3 (-1);
                   value := Finite false 150000 (-1) |};
                {| asset := "USDT"; free := Finite false 125 (-1);
                   value := Finite false 125 (-1) |};
                {| asset := "XYZ"; free := Finite false 3 0;
                   value := Finite false 0 0 |} ]),
     {| pending_orders := ∅;
        calls := [GetAccount; GetSymbolTicker "BTCUSDT";
                  GetSymbolTicker "ETHUSDT"; GetSymbolTicker "ETHUSDC";
                  GetSymbolTicker "XYZUSDT"; GetSymbolTicker "XYZUSDC"];
        sent := [] |}).
Proof. vm_compute. reflexivity. Qed.


Lemma ex1_quotes_numbers : quotes_numbers ex1.
Proof.
  intros h symbol s d Hs Hd. cbn in Hs.
  destruct (_ || _); [| discriminate].
  injection Hs as <-. vm_compute in Hd. injection Hd as <-. reflexivity.
Qed.

Lemma ex1_plain_account :
  plain_account [("BTC", "0.5"); ("USDT", "12.5"); ("ETH", "0.3"); ("XYZ", "3")].
Proof.
  repeat constructor; eexists; (split; [vm_compute; reflexivity | reflexivity]).
Qed.

(** The account of the concrete exchange: BTC through USDT, ETH through
    USDC after USDT failed, USDT at its free amount, XYZ at zero after
    both pairs failed. *)
Lemma value_from_first_resolving_stablecoin_witness :
  client_get_account ex1 (calls start)
  = Ok [("BTC", "0.5"); ("USDT", "12.5"); ("ETH", "0.3"); ("XYZ", "3")]
  /\ (exists entries,
        listed ex1
          (above_dust [("BTC", "0.5"); ("USDT", "12.5"); ("ETH", "0.3"); ("XYZ", "3")])
          (log start GetAccount) entries Cases.listed1
        /\ Permutation entries Cases.listing1)
  /\ exists l w', get_all_balances ex1 start = (Ok (Some l), w').
Proof.
  split; [reflexivity |].
  destruct (value_from_first_resolving_stablecoin ex1 start
              [("BTC", "0.5"); ("USDT", "12.5"); ("ETH", "0.3"); ("XYZ", "3")]
              eq_refl) as (Hlisting & Htotal & _).
  split.
  - apply Hlisting. vm_compute. reflexivity.
  - apply Htotal; [exact ex1_quotes_numbers | exact ex1_plain_account].
Defined.

(** Text as the program reads it: [upper] maps letters beyond ASCII, and
    [Decimal] reads the digits of any script, skips underscores and white
    space at the ends, and refuses what the decimal library cannot hold. *)
Example upper_long_s : upper "btcuſdt" = "BTCUSDT".
Proof. reflexivity. Qed.

Example upper_sharp_s : upper "straße" = "STRASSE".
Proof. reflexivity. Qed.

Example decimal_fullwidth : Decimal_of_string "１００" = Ok (Finite false 100 0).
Proof. reflexivity. Qed.

Example decimal_grouped : Decimal_of_string " 1_000.50" = Ok (Finite false 100050 (-2)).
Proof. reflexivity. Qed.

Example decimal_beyond_limit :
  Decimal_of_string "1e1000000000000000000" = Raise InvalidOperation.
Proof. reflexivity. Qed.

(** [/buy １００ btcuſdt] is the command [/buy 100 BTCUSDT]. *)
Example long_s_pair_is_stored :
  pending_orders (snd (buy_command ex1 alice ["１００"; "btcuſdt"] start)) !! alice
  = Some (btc_order (Finite false 2 (-3))).
Proof. reflexivity. Qed.

(** [/sell 1e1000000000000000000 ETHUSDC] is refused as no number, before
    any lookup. *)
Example unreadable_amount_is_refused :
  confirm_trade ex1 alice ["1e1000000000000000000"; "ETHUSDC"] false start
  = (Ok tt, say start (ErrorMessage InvalidOperation)).
Proof. reflexivity. Qed.

End Instances.

(** ** Order of decimal numbers *)

Lemma signed_scale s c k : signed s (c * k) = signed s c * Z.of_N k.
Proof. unfold signed. destruct s; lia. Qed.

(** [fin_compare] may be read on any common exponent. *)
Lemma fin_compare_at s1 c1 e1 s2 c2 e2 m0 :
  m0 <= e1 -> m0 <= e2 ->
  fin_compare s1 c1 e1 s2 c2 e2
  = Z.compare (signed s1 (c1 * pow10 (e1 - m0))) (signed s2 (c2 * pow10 (e2 - m0))).
Proof.
  intros H1 H2. unfold fin_compare. set (m := Z.min e1 e2).
  rewrite (scaled_split c1 e1 m0 m), (scaled_split c2 e2 m0 m) by lia.
  rewrite !(signed_scale _ _ (pow10 (m - m0))).
  apply Zmult_compare_compat_r.
  pose proof (pow10_pos (m - m0)). lia.
Qed.

Lemma cmp_antisym a b : cmp b a = CompOpp (cmp a b).
Proof.
  destruct a as [s1 c1 e1 | s1 | s1 g1], b as [s2 c2 e2 | s2 | s2 g2];
    cbn [cmp]; try apply Z.compare_antisym.
  unfold fin_compare. rewrite (Z.min_comm e2 e1). apply Z.compare_antisym.
Qed.

Lemma cmp_le_trans a b c :
  is_nan a = false -> is_nan b = false -> is_nan c = false ->
  cmp a b <> Gt -> cmp b c <> Gt -> cmp a c <> Gt.
Proof.
  destruct a as [s1 c1 e1 | [] | s1 g1]; try discriminate;
  destruct b as [s2 c2 e2 | [] | s2 g2]; try discriminate;
  destruct c as [s3 c3 e3 | [] | s3 g3]; try discriminate;
  intros _ _ _; cbn; try congruence; try (intros; assumption).
  set (m := Z.min e1 (Z.min e2 e3)).
  rewrite (fin_compare_at s1 c1 e1 s2 c2 e2 m), (fin_compare_at s2 c2 e2 s3 c3 e3 m),
    (fin_compare_at s1 c1 e1 s3 c3 e3 m) by lia.
  fold (Z.le (signed s1 (c1 * pow10 (e1 - m))) (signed s2 (c2 * pow10 (e2 - m)))).
  fold (Z.le (signed s2 (c2 * pow10 (e2 - m))) (signed s3 (c3 * pow10 (e3 - m)))).
  fold (Z.le (signed s1 (c1 * pow10 (e1 - m))) (signed s3 (c3 * pow10 (e3 - m)))).
  lia.
Qed.

Lemma lt_false_le a b : lt a b = Ok false -> 
  is_nan a = false /\ is_nan b = false /\ cmp b a <> Gt.
Proof.
  unfold lt. destruct (is_nan a) eqn:Ha; [discriminate |].
  destruct (is_nan b) eqn:Hb; [discriminate |]. cbn [orb].
  rewrite (cmp_antisym a b).
  destruct (cmp a b); cbn; intros [= ]; repeat split; discriminate.
Qed.

Lemma lt_true_le a b : lt a b = Ok true -> 
  is_nan a = false /\ is_nan b = false /\ cmp a b <> Gt.
Proof.
  unfold lt. destruct (is_nan a) eqn:Ha; [discriminate |].
  destruct (is_nan b) eqn:Hb; [discriminate |]. cbn [orb].
  destruct (cmp a b); cbn; intros [= ]; repeat split; discriminate.
Qed.

Lemma fin_lt_iff a ea b eb m0 :
  m0 <= ea -> m0 <= eb ->
  fin_compare false a ea false b eb = Lt
  <-> (a * pow10 (ea - m0) < b * pow10 (eb - m0))%N.
Proof.
  intros Ha Hb. rewrite (fin_compare_at _ _ _ _ _ _ m0) by lia.
  unfold signed. rewrite Z.compare_lt_iff. lia.
Qed.

(** ** The adjustment is a floor *)

(** [q // s] is the largest whole number of steps that fit into [q]. *)
Lemma floordiv_floor c1 e1 c2 e2 d :
  floordiv (Finite false c1 e1) (Finite false c2 e2) = Ok d ->
  exists n, d = Finite false n 0
            /\ fin_compare false (n * c2) e2 false c1 e1 <> Gt
            /\ fin_compare false c1 e1 false ((n + 1) * c2) e2 = Lt.
Proof.
  intros Hd. destruct (floordiv_finite _ _ _ _ _ Hd) as (n & -> & Hle).
  exists n. split; [reflexivity |]. split; [exact Hle |]. clear Hle.
  revert Hd. unfold floordiv. cbn [check_nans sign_of xorb].
  destruct (N.eqb_spec c2 0) as [| Hc2]; [destruct (c1 =? 0)%N; discriminate |].
  destruct (N.eqb_spec c1 0) as [-> | Hc1]; cbn [orb].
  - intros [= <-]. apply (fin_lt_iff _ _ _ _ (Z.min e1 e2)); [lia | lia |].
    pose proof (pow10_pos (e2 - Z.min e1 e2)). nia.
  - unfold adjusted.
    destruct (ndigits_bounds c1) as (HL1 & _ & Hhi1); [lia |].
    destruct (ndigits_bounds c2) as (HL2 & Hlo2 & _); [lia |].
    set (L1 := ndigits c1) in *. set (L2 := ndigits c2) in *.
    destruct (Z.leb_spec (e1 + L1 - 1 - (e2 + L2 - 1)) (-2)) as [Hfar | Hnear].
    + intros [= <-].
      pose proof (Z.le_min_l e1 e2). pose proof (Z.le_min_r e1 e2).
      set (m := Z.min e1 e2) in *. clearbody m.
      apply (fin_lt_iff _ _ _ _ m); [lia | lia |].
      rewrite N.add_0_l, N.mul_1_l.
      apply N.lt_le_trans with (pow10 (L1 + (e1 - m))).
      * rewrite pow10_add by lia.
        apply N.mul_lt_mono_pos_r; [apply pow10_pos | exact Hhi1].
      * apply N.le_trans with (pow10 ((L2 - 1) + (e2 - m))).
        -- apply pow10_mono. lia.
        -- rewrite pow10_add by lia.
           apply N.mul_le_mono_r. exact Hlo2.
    + destruct (_ <=? prec); [| discriminate].
      destruct (Z.leb_spec e2 e1) as [Hle | Hgt].
      * destruct (_ <? pow10 prec)%N; [| discriminate].
        intros [= <-]. apply (fin_lt_iff _ _ _ _ e2); [lia | lia |].
        rewrite Z.sub_diag. change (pow10 0) with 1%N. rewrite N.mul_1_r.
        pose proof (N.mul_succ_div_gt (c1 * pow10 (e1 - e2)) c2 Hc2) as Hgt.
        generalize dependent (c1 * pow10 (e1 - e2) / c2)%N.
        generalize dependent (c1 * pow10 (e1 - e2))%N. intros. nia.
      * destruct (_ <? pow10 prec)%N; [| discriminate].
        intros [= <-]. apply (fin_lt_iff _ _ _ _ e1); [lia | lia |].
        rewrite Z.sub_diag. change (pow10 0) with 1%N. rewrite N.mul_1_r.
        assert (Hden : (c2 * pow10 (e2 - e1))%N <> 0%N).
        { pose proof (pow10_pos (e2 - e1)). nia. }
        pose proof (N.mul_succ_div_gt c1 _ Hden) as Hlt.
        generalize dependent (c1 / (c2 * pow10 (e2 - e1)))%N.
        generalize dependent (pow10 (e2 - e1)). intros. nia.
Qed.

(** The adjusted quantity equals the product of the step size and the
    quotient of the floor division, unrounded. *)
Lemma adjust_quantity_steps c1 e1 c2 e2 r :
  Etiny <= e2 ->
  adjust_quantity (Finite false c1 e1) (Finite false c2 e2) = Ok r ->
  exists n : N,
    floordiv (Finite false c1 e1) (Finite false c2 e2) = Ok (Finite false n 0)
    /\ cmp r (Finite false (n * c2) e2) = Eq.
Proof.
  intros He2. unfold adjust_quantity. cbn [abs_exponent rbind].
  destruct (floordiv _ _) as [steps | ex0] eqn:Hdiv; [| discriminate].
  destruct (floordiv_finite _ _ _ _ _ Hdiv) as (n & -> & _).
  cbn [rbind]. unfold mul. cbn [check_nans sign_of xorb].
  rewrite Z.add_0_l.
  destruct (fix_ (Finite false (n * c2) e2)) as [p | ex0] eqn:Hfix;
    [| discriminate].
  cbn [rbind].
  destruct (ten_pow_neg (Z.abs e2)) as [u | ex0] eqn:Hu; [| discriminate].
  destruct (ten_pow_neg_exponent _ _ He2 Hu) as (cu & t & -> & Ht).
  cbn [rbind]. intros Hq. exists n. split; [reflexivity |].
  destruct (fix_cases _ _ _ _ He2 Hfix)
    as [(H0 & e' & ->) | [(Hne & ->) | (c' & e' & -> & Hc' & He' & _)]].
  - apply quantize_zero in Hq as (e'' & ->). rewrite H0. cbn [cmp].
    apply (fin_eq_iff _ _ _ _ (Z.min e'' e2)); lia.
  - apply quantize_pads in Hq as (-> & _); [| exact Hne | exact Ht].
    cbn [cmp]. apply (fin_eq_iff _ _ _ _ t); [lia | lia |].
    rewrite Z.sub_diag. change (pow10 0) with 1%N. lia.
  - exfalso.
    apply quantize_pads in Hq as (_ & Hsmall); [| | lia].
    + pose proof (pow10_mono 1 (e' - t) ltac:(lia)) as Hp.
      change (pow10 1) with 10%N in Hp.
      change (pow10 prec) with (pow10 7 * 10)%N in Hsmall. nia.
    + pose proof (pow10_pos 7). lia.
Qed.

(** X1: when the adjustment of a non-negative quantity by a positive step
    size (its exponent not below the smallest of the context) returns a
    quantity, that quantity is a whole number [n] of steps, [n] steps are
    not above the requested quantity and [n + 1] steps are above it: the
    adjustment is the floor to the step size, exact, and it loses less
    than one step. *)
Theorem adjusted_quantity_is_floor c1 e1 c2 e2 r :
  Etiny <= e2 ->
  adjust_quantity (Finite false c1 e1) (Finite false c2 e2) = Ok r ->
  exists n : N,
    cmp r (Finite false (n * c2) e2) = Eq
    /\ cmp (Finite false (n * c2) e2) (Finite false c1 e1) <> Gt
    /\ cmp (Finite false c1 e1) (Finite false ((n + 1) * c2) e2) = Lt.
Proof.
  intros He2 Hadj.
  destruct (adjust_quantity_steps _ _ _ _ _ He2 Hadj) as (n & Hdiv & Heq).
  destruct (floordiv_floor _ _ _ _ _ Hdiv) as (n' & [= <-] & Hle & Hlt).
  exists n. auto.
Qed.

(** ** The order of the listing *)

Lemma ordered_keys_trans a b c :
  ordered_keys a b -> ordered_keys b c -> ordered_keys a c.
Proof.
  intros (Ha & Hb & Hab) (_ & Hc & Hbc). repeat split; try assumption.
  exact (cmp_le_trans a b c Ha Hb Hc Hab Hbc).
Qed.

Section Sorting.

Let R (x y : Decimal * Balance) : Prop := ordered_keys (fst x) (fst y).

Lemma insert_by_key_sorted x l l' :
  StronglySorted R l -> insert_by_key x l = Ok l' -> StronglySorted R l'.
Proof.
  revert l'. induction l as [| y r IH]; intros l' Hs; simpl.
  - intros [= <-]. repeat constructor.
  - apply StronglySorted_inv in Hs as [Hr Hy].
    destruct (lt (fst x) (fst y)) as [[] | e] eqn:Hlt; simpl; try discriminate.
    + intros [= <-]. apply lt_true_le in Hlt.
      constructor; [constructor; assumption |].
      constructor; [exact Hlt |].
      eapply List.Forall_impl; [| exact Hy].
      intros z Hz. exact (ordered_keys_trans _ _ _ Hlt Hz).
    + destruct (insert_by_key x r) as [r' | e] eqn:Hi; simpl; try discriminate.
      intros [= <-]. apply lt_false_le in Hlt as (Hx & Hyn & Hyx).
      constructor; [apply IH; [exact Hr | reflexivity] |].
      apply insert_by_key_perm in Hi.
      eapply Permutation_Forall; [exact Hi |].
      constructor; [| exact Hy]. repeat split; assumption.
Qed.

Lemma sort_keyed_sorted todo : forall done l',
  StronglySorted R done -> sort_keyed done todo = Ok l' -> StronglySorted R l'.
Proof.
  induction todo as [| x rest IH]; intros done l' Hs; simpl.
  - intros [= <-]. exact Hs.
  - destruct (insert_by_key x done) as [done' | e] eqn:Hi; simpl; try discriminate.
    apply IH. exact (insert_by_key_sorted _ _ _ Hs Hi).
Qed.

Lemma keys_of_keys l ks :
  keys_of l = Ok ks -> Forall (fun p => neg (value (snd p)) = Ok (fst p)) ks.
Proof.
  revert ks. induction l as [| b r IH]; intros ks; simpl.
  - intros [= <-]. constructor.
  - destruct (neg (value b)) as [k | e] eqn:Hk; simpl; try discriminate.
    destruct (keys_of r) as [ks' | e]; simpl; try discriminate.
    intros [= <-]. constructor; [exact Hk | apply IH; reflexivity].
Qed.

Lemma sorted_keyed_by_value s :
  Forall (fun p => neg (value (snd p)) = Ok (fst p)) s ->
  StronglySorted R s -> StronglySorted by_value (map snd s).
Proof.
  induction s as [| p s IH]; intros Hk Hs; simpl; [constructor |].
  apply List.Forall_cons_iff in Hk as [Hp Hk].
  apply StronglySorted_inv in Hs as [Hs Hall].
  constructor; [apply IH; assumption |].
  apply List.Forall_map. rewrite List.Forall_forall in *.
  intros q Hq. exists (fst p), (fst q).
  split; [exact Hp |]. split; [exact (Hk q Hq) | exact (Hall q Hq)].
Qed.

End Sorting.

(** The list [sorted] returns is in the order of the keys. *)
Lemma sorted_by_value_ordered l l' :
  sorted_by_value l = Ok l' ->
  Permutation l l' /\ StronglySorted by_value l'.
Proof.
  intros H. split; [exact (sorted_by_value_perm _ _ H) |].
  revert H. unfold sorted_by_value.
  destruct (keys_of l) as [ks | e] eqn:Hk; simpl; try discriminate.
  destruct (sort_keyed [] ks) as [s | e] eqn:Hs; simpl; try discriminate.
  intros [= <-]. apply sorted_keyed_by_value.
  - apply keys_of_keys in Hk. apply sort_keyed_perm in Hs. simpl in Hs.
    eapply Permutation_Forall; eassumption.
  - eapply sort_keyed_sorted; [| exact Hs]. constructor.
Qed.

(** Unfold a handler down to the answers of the client and the results of
    the decimal operations, and split on each of them in turn. *)
Ltac run_handler :=
  cbv beta iota zeta delta
    [confirm_trade requested_order prompt get_asset_balance buy_command
     sell_command handle_button execute_trade check_symbol_rules
     show_balance crypto_info get_all_balances
     bind ret raise lift try_except call reply_text edit_message_text
     pending_get pending_set pending_pop say log fst snd].

Ltac split_innermost :=
  match goal with
  | |- context [match ?x with _ => _ end] =>
      lazymatch x with
      | context [match _ with _ => _ end] => fail
      | _ => destruct x eqn:?
      end
  end.

Ltac all_paths := run_handler; repeat (split_innermost; cbv beta iota zeta).

Section Frames.

Variable ex : Exchange.

(** X2: a buy or sell command never raises, answers with exactly one
    message, logs lookups only (no order is placed by a command) and
    leaves the pending orders of every other user as they were. *)
Theorem command_frame user_id args b w :
  let r := confirm_trade ex user_id args b w in
  fst r = Ok tt
  /\ (exists m, sent (snd r) = (sent w ++ [m])%list)
  /\ (exists l, calls (snd r) = (calls w ++ l)%list /\ lookups l)
  /\ (forall other, other <> user_id ->
        pending_orders (snd r) !! other = pending_orders w !! other).
Proof.
  cbv zeta. all_paths.
  all: cbn [fst snd pending_orders calls sent].
  all: repeat split; eauto.
  all: try (intros other Hother; rewrite ?lookup_insert_ne by congruence; reflexivity).
  all: try (exists []; rewrite app_nil_r; split; [reflexivity | constructor]).
  all: try (eexists; split; [rewrite <- ?app_assoc; reflexivity | repeat constructor]).
Qed.


Lemma trade_outcome pair q b w :
  exists out l,
    execute_trade ex pair q b w
    = (Ok out, {| pending_orders := pending_orders w;
                  calls := calls w ++ GetSymbolInfo pair :: l;
                  sent := sent w |})
    /\ (l = [] \/ exists r, l = [if b then OrderMarketBuy pair r
                                 else OrderMarketSell pair r])
    /\ match out with
       | (Some _, _) => l <> []
       | (None, Some RulesUnavailable) => l = []
       | (None, Some (QuantityTooSmall _)) => l = []
       | _ => True
       end.
Proof.
  all_paths.
  all: cbn [pending_orders calls sent].
  all: eexists; eexists; split;
    [rewrite <- ?app_assoc; reflexivity |]; cbn [app].
  all: split; [first [left; reflexivity | right; eexists; reflexivity] |].
  all: try exact I; try reflexivity; try discriminate.
Qed.

(** X3: a button press places at most one order and leaves the pending
    orders of every other user as they were.  It raises only IndexError,
    and only after an order was placed (the answer had an empty fills
    list): the last message is then "processing", no result is shown. *)
Theorem button_frame user_id data w :
  let r := handle_button ex user_id data w in
  (exists l, calls (snd r) = (calls w ++ l)%list
             /\ (length (List.filter is_order l) <= 1)%nat)
  /\ (forall other, other <> user_id ->
        pending_orders (snd r) !! other = pending_orders w !! other)
  /\ (forall e, fst r = Raise e ->
        e = IndexError
        /\ sent (snd r) = (sent w ++ [Processing])%list
        /\ exists p c, is_order c = true
                       /\ calls (snd r) = (calls w ++ [GetSymbolInfo p; c])%list).
Proof.
  cbv zeta.
  destruct (startswith data "confirm_") eqn:Hc.
  - destruct (confirm_data_has_pair data Hc) as [p Hp].
    revert Hp. all_paths.
    all: cbn [fst snd pending_orders calls sent]; intros Hp; try discriminate Hp.
    all: repeat split; try discriminate.
    all: try (intros other Hother; reflexivity).
    all: try (exists []; rewrite app_nil_r; split; [reflexivity | cbn; lia]).
    all: try (eexists; split; [rewrite <- ?app_assoc; reflexivity | cbn; lia]).
    all: try congruence.
    all: try reflexivity.
    all: try (eexists; eexists; split;
              [| rewrite <- ?app_assoc; reflexivity]; reflexivity).
  - all_paths.
    all: cbn [fst snd pending_orders calls sent].
    all: repeat split; try discriminate.
    all: try (intros other Hother; rewrite ?lookup_delete_ne by congruence; reflexivity).
    all: exists []; rewrite app_nil_r; split; [reflexivity | cbn; lia].
Qed.

End Frames.

Section Safety.

Variable ex : Exchange.

(** X4: an order a command asks for has the upper-cased second argument
    as pair, ending in USDT or USDC, and the direction of the command.  A
    sell asks for the typed amount, which is not above the balance read;
    a buy asks for the amount divided by the price the ticker answered. *)
Theorem stored_order_shape args b w o :
  fst (requested_order ex args b w) = Ok (Some o) ->
  exists a p amount,
    args = [a; p]
    /\ Decimal_of_string a = Ok amount
    /\ pair o = upper p
    /\ existsb (endswith (pair o)) stablecoins = true
    /\ is_buy o = b
    /\ (b = false ->
        quantity o = amount
        /\ exists balance,
             fst (get_asset_balance ex (base_asset (pair o)) w) = Ok balance
             /\ gt amount balance = Ok false)
    /\ (b = true ->
        exists s price,
          client_get_symbol_ticker ex (calls w) (pair o) = Ok s
          /\ Decimal_of_string s = Ok price
          /\ div amount price = Ok (quantity o)).
Proof.
  cbv beta iota zeta delta [requested_order bind ret raise lift call reply_text say log].
  repeat (split_innermost; cbv beta iota zeta).
  all: cbn [fst snd]; intros H; try discriminate H.
  all: injection H as <-; cbn [pair quantity is_buy].
  all: eexists; eexists; eexists; split; [reflexivity |].
  all: split; [eassumption |]; split; [reflexivity |].
  all: split; [match goal with H : negb ?x = false |- ?x = true =>
                 destruct x; [reflexivity | discriminate H] end |].
  all: split; [reflexivity |].
  all: split; intros Hb; try discriminate Hb.
  all: try (split; [reflexivity |]; eexists; split; [| eassumption];
            match goal with H : get_asset_balance _ _ _ = _ |- _ => rewrite H end;
            reflexivity).
  all: try (eexists; eexists; repeat split; eassumption).
Qed.

(** What [execute_trade] logs: the lookup of the rules and, at most, one
    order for an adjusted quantity that is not below the minimum. *)
Lemma execute_trade_log pair q b w :
  exists out l,
    execute_trade ex pair q b w
    = (Ok out, {| pending_orders := pending_orders w;
                  calls := calls w ++ GetSymbolInfo pair :: l;
                  sent := sent w |})
    /\ (l = []
        \/ exists rules r,
             fst (check_symbol_rules ex pair w) = Ok (Some rules)
             /\ adjust_quantity q (step_size rules) = Ok r
             /\ lt r (min_qty rules) = Ok false
             /\ l = [order_call b pair r]).
Proof.
  unfold execute_trade, try_except, bind at 1.
  pose proof (check_symbol_rules_world ex pair w) as Hw.
  destruct (check_symbol_rules ex pair w) as [[[rules |] | e] w1];
    simpl in Hw; subst w1.
  - unfold bind at 1, lift at 1.
    destruct (adjust_quantity q (step_size rules)) as [r | e] eqn:Hadj;
      [| destruct e; eexists; exists []; (split; [reflexivity | left; reflexivity])].
    unfold bind at 1, lift at 1.
    destruct (lt r (min_qty rules)) as [[] | e] eqn:Hlt;
      [eexists; exists []; (split; [reflexivity | left; reflexivity]) |
       | destruct e; eexists; exists []; (split; [reflexivity | left; reflexivity])].
    destruct b; unfold bind, call, ret, order_call; cbn [log calls pending_orders sent].
    + destruct (client_order_market_buy ex _ pair r) as [o | e];
        [| destruct e]; cbv beta iota; unfold log; cbn [calls pending_orders sent];
        eexists; eexists;
        (split; [rewrite <- ?app_assoc; reflexivity |]);
        right; exists rules, r; auto.
    + destruct (client_order_market_sell ex _ pair r) as [o | e];
        [| destruct e]; cbv beta iota; unfold log; cbn [calls pending_orders sent];
        eexists; eexists;
        (split; [rewrite <- ?app_assoc; reflexivity |]);
        right; exists rules, r; auto.
  - eexists; exists []; (split; [reflexivity | left; reflexivity]).
  - destruct e; eexists; exists []; (split; [reflexivity | left; reflexivity]).
Qed.


(** X5: [execute_trade] never raises, sends nothing and leaves the pending
    orders alone.  It logs the lookup of the rules and at most one order;
    an order is logged only for a quantity the adjustment returned and
    that is not below the minimum.  A returned order means an order was
    logged; "rules unavailable" and "quantity too small" mean none was. *)
Theorem trade_frame pair q b w :
  exists out l,
    execute_trade ex pair q b w
    = (Ok out, {| pending_orders := pending_orders w;
                  calls := calls w ++ GetSymbolInfo pair :: l;
                  sent := sent w |})
    /\ (l = []
        \/ exists rules r,
             fst (check_symbol_rules ex pair w) = Ok (Some rules)
             /\ adjust_quantity q (step_size rules) = Ok r
             /\ lt r (min_qty rules) = Ok false
             /\ l = [order_call b pair r])
    /\ match out with
       | (Some _, _) => l <> []
       | (None, Some RulesUnavailable) => l = []
       | (None, Some (QuantityTooSmall _)) => l = []
       | _ => True
       end.
Proof.
  destruct (execute_trade_log pair q b w) as (out & l & Hrun & Hlog).
  destruct (trade_outcome ex pair q b w) as (out' & l' & Hrun' & _ & Hout).
  rewrite Hrun in Hrun'. injection Hrun' as <- Hcalls.
  apply app_inv_head in Hcalls. injection Hcalls as <-.
  exists out, l. auto.
Qed.

(** X6: every order a button press places is for the pair and direction
    of the user's pending order, which is the pair embedded in the
    callback data, and for the adjustment of the stored quantity by the
    step size of the rules just fetched, not below their minimum. *)
Theorem button_orders_what_was_stored user_id data w l c :
  calls (snd (handle_button ex user_id data w)) = (calls w ++ l)%list ->
  In c l -> is_order c = true ->
  exists o rules r,
    pending_orders w !! user_id = Some o
    /\ split data "_" !! 1%nat = Some (pair o)
    /\ fst (check_symbol_rules ex (pair o) (say w Processing)) = Ok (Some rules)
    /\ adjust_quantity (quantity o) (step_size rules) = Ok r
    /\ lt r (min_qty rules) = Ok false
    /\ c = order_call (is_buy o) (pair o) r.
Proof.
  assert (Hnone : forall w1 : World,
             calls w1 = calls w -> calls w1 = (calls w ++ l)%list -> In c l -> False).
  { intros w1 Hsame Hcalls Hin. rewrite Hsame in Hcalls.
    rewrite <- (app_nil_r (calls w)) in Hcalls at 1.
    apply app_inv_head in Hcalls. subst l. destruct Hin. }
  unfold handle_button.
  destruct (startswith data "confirm_").
  - destruct (split data "_") as [| x [| p rest]];
      try (intros Hcalls Hin _; exfalso; exact (Hnone _ eq_refl Hcalls Hin)).
    unfold bind at 1, pending_get.
    destruct (pending_orders w !! user_id) as [o |] eqn:Ho;
      [| intros Hcalls Hin _; exfalso; exact (Hnone _ eq_refl Hcalls Hin)].
    destruct (String.eqb_spec (pair o) p) as [<- | Hne];
      [| intros Hcalls Hin _; exfalso; exact (Hnone _ eq_refl Hcalls Hin)].
    unfold bind at 1, edit_message_text at 1, reply_text at 1. cbv beta iota.
    destruct (execute_trade_log (pair o) (quantity o) (is_buy o) (say w Processing))
      as (out & l' & Hrun & Hl').
    unfold bind at 1. rewrite Hrun. cbv beta iota.
    assert (Hcalls' :
      forall res w2,
        calls w2 = (calls w ++ GetSymbolInfo (pair o) :: l')%list ->
        calls (snd (res : result unit, w2)) = (calls w ++ l)%list ->
        In c l -> is_order c = true ->
        exists o0 rules r,
          Some o = Some o0
          /\ (x :: pair o :: rest) !! 1%nat = Some (pair o0)
          /\ fst (check_symbol_rules ex (pair o0) (say w Processing)) = Ok (Some rules)
          /\ adjust_quantity (quantity o0) (step_size rules) = Ok r
          /\ lt r (min_qty rules) = Ok false
          /\ c = order_call (is_buy o0) (pair o0) r).
    { intros res w2 Hw2 Hcalls Hin Hc. cbn [snd] in Hcalls.
      rewrite Hw2 in Hcalls. apply app_inv_head in Hcalls. subst l.
      destruct Hin as [<- | Hin]; [discriminate Hc |].
      destruct Hl' as [-> | (rules & r & Hrules & Hadj & Hlt & ->)];
        [destruct Hin |].
      destruct Hin as [<- | []].
      exists o, rules, r. auto 10. }
    destruct out as [[order |] err].
    + unfold bind at 1.
      destruct (fills order) as [[| fill fs] |];
        unfold bind, raise, ret, edit_message_text, reply_text;
        apply Hcalls'; reflexivity.
    + unfold bind, ret, edit_message_text, reply_text.
      apply Hcalls'; reflexivity.
  - destruct (String.eqb data "cancel");
      intros Hcalls Hin _; exfalso; exact (Hnone _ eq_refl Hcalls Hin).
Qed.

End Safety.

(** ** The callback data of the confirm button *)

Lemma rev_app_length s1 s2 :
  String.length (String.rev_app s1 s2) = (String.length s1 + String.length s2)%nat.
Proof.
  revert s2. induction s1 as [| a s1 IH]; intros s2; simpl; [reflexivity |].
  rewrite IH. simpl. lia.
Qed.

Lemma split_acc_whole sep s : forall cur,
  has_char sep s = false -> split_acc sep cur s = [String.rev_app cur s].
Proof.
  induction s as [| a r IH]; intros cur; simpl; [reflexivity |].
  destruct (Ascii.eqb a sep); [discriminate |]. simpl.
  intros H. rewrite IH by exact H. reflexivity.
Qed.

Lemma split_acc_first sep s : forall cur,
  has_char sep s = true ->
  exists p rest, split_acc sep cur s = p :: rest
                 /\ (String.length p < String.length cur + String.length s)%nat.
Proof.
  induction s as [| a r IH]; intros cur; simpl; [discriminate |].
  destruct (Ascii.eqb a sep); simpl.
  - intros _. eexists; eexists. split; [reflexivity |].
    unfold String.rev. rewrite rev_app_length. simpl. lia.
  - intros H. destruct (IH (String a cur) H) as (p & rest & -> & Hlen).
    exists p, rest. split; [reflexivity |]. simpl in Hlen. lia.
Qed.

Lemma confirm_data_split pair :
  split (confirm_data pair) "_" !! 1%nat = Some pair
  <-> has_char "_" pair = false.
Proof.
  change (split (confirm_data pair) "_")
    with ("confirm" :: split_acc "_" "" pair).
  split.
  - intros H. destruct (has_char "_" pair) eqn:Hu; [| reflexivity].
    destruct (split_acc_first "_" pair "" Hu) as (p & rest & Hs & Hlen).
    rewrite Hs in H. simpl in H. injection H as ->. simpl in Hlen. lia.
  - intros H. rewrite (split_acc_whole _ _ "" H). reflexivity.
Qed.

Lemma startswith_prefix p r : startswith (p ++ r) p = true.
Proof.
  induction p as [| a p IH]; [destruct r; reflexivity |].
  change (String a p ++ r) with (String a (p ++ r)). cbn [startswith].
  rewrite Ascii.eqb_refl. exact IH.
Qed.

(** X7: the pair is read back from the callback data of its confirm
    button exactly when it contains no underscore. *)
Theorem confirm_data_round_trip pair :
  split (confirm_data pair) "_" !! 1%nat = Some pair
  <-> has_char "_" pair = false.
Proof. exact (confirm_data_split pair). Qed.

Section Confirm_button.

Variable ex : Exchange.

(** X8: a pending order whose pair contains an underscore cannot be
    confirmed: the confirm button of its prompt is answered with
    "operation expired" and nothing else happens. *)
Theorem underscore_pair_never_confirms user_id o w :
  pending_orders w !! user_id = Some o ->
  has_char "_" (pair o) = true ->
  handle_button ex user_id (confirm_data (pair o)) w = (Ok tt, say w Expired).
Proof.
  intros Ho Hu.
  assert (Hc : startswith (confirm_data (pair o)) "confirm_" = true).
  { apply startswith_prefix. }
  destruct (confirm_data_has_pair _ Hc) as [p Hp].
  apply (expired_run ex user_id _ p w Hc Hp).
  intros o' Ho' Heq. rewrite Ho in Ho'. injection Ho' as <-.
  rewrite <- Heq in Hp. apply confirm_data_split in Hp. congruence.
Qed.

Lemma stored_order_runs user_id o w :
  pending_orders w !! user_id = Some o ->
  has_char "_" (pair o) = false ->
  handle_button ex user_id (confirm_data (pair o)) w
  = (let '(r, w1) := execute_trade ex (pair o) (quantity o) (is_buy o)
                       (say w Processing) in
     match r with
     | Ok (Some order, _) =>
         match fills order with
         | Some [] => (Raise IndexError, w1)
         | Some (fill :: _) =>
             (Ok tt, say w1 (TradeDone (is_buy o) (symbol order) (executedQty order)
                               (default "N/A" fill) (cummulativeQuoteQty order)))
         | None =>
             (Ok tt, say w1 (TradeDone (is_buy o) (symbol order) (executedQty order)
                               "N/A" (cummulativeQuoteQty order)))
         end
     | Ok (None, error) => (Ok tt, say w1 (TradeFailed error))
     | Raise e => (Raise e, w1)
     end).
Proof.
  intros Ho Hu.
  assert (Hc : startswith (confirm_data (pair o)) "confirm_" = true).
  { apply startswith_prefix. }
  apply confirm_data_split in Hu.
  unfold handle_button. rewrite Hc.
  destruct (split (confirm_data (pair o)) "_") as [| x [| p r]]; try discriminate.
  simpl in Hu. injection Hu as ->.
  unfold bind at 1, pending_get. rewrite Ho. rewrite String.eqb_refl.
  unfold bind, edit_message_text, reply_text, ret, raise.
  destruct (execute_trade ex (pair o) (quantity o) (is_buy o) (say w Processing))
    as [[[[order |] err] | e] w1]; try reflexivity.
  destruct (fills order) as [[| fill fs] |]; reflexivity.
Qed.

(** X9: after a command that asks for an order (its pair without an
    underscore), pressing the confirm button of the prompt runs
    [execute_trade] on the stored pair, quantity and direction and reports
    its outcome: the result of the order, the reason of the failure, or,
    for an answer with an empty fills list, an IndexError. *)
Theorem prompt_button_runs_stored_order user_id args b w o :
  fst (requested_order ex args b w) = Ok (Some o) ->
  has_char "_" (pair o) = false ->
  let w1 := snd (confirm_trade ex user_id args b w) in
  exists out w2,
    execute_trade ex (pair o) (quantity o) (is_buy o) (say w1 Processing)
    = (Ok out, w2)
    /\ handle_button ex user_id (confirm_data (pair o)) w1
       = match out with
         | (Some order, _) =>
             match fills order with
             | Some [] => (Raise IndexError, w2)
             | Some (fill :: _) =>
                 (Ok tt, say w2 (TradeDone (is_buy o) (symbol order)
                                   (executedQty order) (default "N/A" fill)
                                   (cummulativeQuoteQty order)))
             | None =>
                 (Ok tt, say w2 (TradeDone (is_buy o) (symbol order)
                                   (executedQty order) "N/A"
                                   (cummulativeQuoteQty order)))
             end
         | (None, error) => (Ok tt, say w2 (TradeFailed error))
         end.
Proof.
  intros Hreq Hu w1.
  assert (Ho : pending_orders w1 !! user_id = Some o).
  { subst w1. rewrite (confirm_trade_stores ex user_id args b w o Hreq).
    apply lookup_insert_eq. }
  rewrite (stored_order_runs user_id o w1 Ho Hu).
  destruct (execute_trade_log ex (pair o) (quantity o) (is_buy o) (say w1 Processing))
    as (out & l & Hrun & _).
  rewrite Hrun. eexists; eexists. split; [reflexivity |].
  destruct out as [[order |] err]; reflexivity.
Qed.

End Confirm_button.

Section Command_errors.

Variable ex : Exchange.

(** X10: a command without exactly two arguments is answered with the usage
    text; a command whose amount is no decimal literal is answered with
    the generic error text for InvalidOperation (the text for an invalid
    amount is not the one sent).  Neither logs a call or stores anything. *)
Theorem malformed_command_answers user_id args b w :
  (length args <> 2%nat ->
   confirm_trade ex user_id args b w = (Ok tt, say w (Usage b)))
  /\ (forall a p e,
        args = [a; p] -> Decimal_of_string a = Raise e ->
        confirm_trade ex user_id args b w
        = (Ok tt, say w (ErrorMessage InvalidOperation))).
Proof.
  split.
  - intros Hlen. destruct args as [| a [| p [| x r]]]; try reflexivity.
    simpl in Hlen. lia.
  - intros a p e -> Ha. pose proof (Decimal_of_string_raises _ _ Ha) as ->.
    unfold confirm_trade, requested_order, try_except, bind, lift.
    rewrite Ha. reflexivity.
Qed.

(** A command that asks for an order has sent nothing yet. *)
Lemma requested_order_quiet args b w o :
  fst (requested_order ex args b w) = Ok (Some o) ->
  sent (snd (requested_order ex args b w)) = sent w
  /\ pending_orders (snd (requested_order ex args b w)) = pending_orders w.
Proof.
  all_paths. all: cbn [fst snd sent pending_orders]; intros H; try discriminate H.
  all: split; reflexivity.
Qed.

(** X11: the order is stored before the prompt is built.  When the price
    lookup for the prompt raises, the command is answered with an error
    text, and the order it asked for is the user's pending order all the
    same. *)
Theorem order_stored_though_prompt_fails user_id args b w o e :
  fst (requested_order ex args b w) = Ok (Some o) ->
  client_get_symbol_ticker ex (calls (snd (requested_order ex args b w))) (pair o)
  = Raise e ->
  let r := confirm_trade ex user_id args b w in
  fst r = Ok tt
  /\ pending_orders (snd r) !! user_id = Some o
  /\ sent (snd r)
     = (sent w ++ [match e with
                   | ValueError => InvalidAmount
                   | _ => ErrorMessage e
                   end])%list.
Proof.
  intros Hreq Hticker r.
  destruct (requested_order_quiet args b w o Hreq) as (Hsent & Hpend).
  assert (Hrun : r = (Ok tt,
            say {| pending_orders :=
                     <[user_id := o]> (pending_orders (snd (requested_order ex args b w)));
                   calls := calls (snd (requested_order ex args b w))
                            ++ [GetSymbolTicker (pair o)];
                   sent := sent (snd (requested_order ex args b w)) |}
                (match e with
                 | ValueError => InvalidAmount
                 | _ => ErrorMessage e
                 end))).
  { subst r. unfold confirm_trade, try_except, bind at 1.
    destruct (requested_order ex args b w) as [res w1].
    simpl in Hreq, Hticker |- *. subst res.
    unfold bind at 1, pending_set at 1. cbv beta iota.
    unfold prompt, bind at 1, call at 1. cbn [calls]. rewrite Hticker.
    cbv beta iota. destruct e; reflexivity. }
  rewrite Hrun. cbn [fst snd say pending_orders sent].
  split; [reflexivity |]. split; [apply lookup_insert_eq |].
  rewrite Hsent. reflexivity.
Qed.

(** X12: when the symbol information has no LOT_SIZE filter, or that
    filter lacks minQty or stepSize (or the lookup fails), the trade is
    refused as "rules unavailable" and the lookup is the only call. *)
Theorem missing_rules_refuse_trade pair q b w :
  (forall filters lot,
      client_get_symbol_info ex (calls w) pair = Ok (Some filters) ->
      find (fun f => String.eqb (filterType f) "LOT_SIZE") filters = Some lot ->
      minQty lot = None \/ stepSize lot = None) ->
  execute_trade ex pair q b w
  = (Ok (None, Some RulesUnavailable), log w (GetSymbolInfo pair)).
Proof.
  intros Hno. revert Hno. all_paths; intros Hno; try reflexivity.
  all: exfalso; destruct (Hno _ _ eq_refl ltac:(eassumption)); congruence.
Qed.

End Command_errors.

(** ** The listing and the portfolio message *)

Section Listing.

Variable ex : Exchange.

Lemma value_loop_run name amount coins : forall w,
  exists v l,
    value_loop ex name amount coins w
    = (Ok v, {| pending_orders := pending_orders w;
                calls := calls w ++ l;
                sent := sent w |})
    /\ lookups l.
Proof.
  induction coins as [| coin rest IH]; intros w.
  - exists zero, []. rewrite app_nil_r. destruct w. split; [reflexivity | constructor].
  - cbn [value_loop]. unfold try_except, bind, call, lift.
    destruct (IH (log w (GetSymbolTicker (name ++ coin)))) as (v & l & Hrun & Hl).
    assert (Hnext : exists v' l',
               value_loop ex name amount rest (log w (GetSymbolTicker (name ++ coin)))
               = (Ok v', {| pending_orders := pending_orders w;
                            calls := calls w ++ l';
                            sent := sent w |}) /\ lookups l').
    { exists v, (GetSymbolTicker (name ++ coin) :: l).
      rewrite Hrun. cbn [log pending_orders calls sent].
      rewrite <- app_assoc. split; [reflexivity |].
      constructor; [reflexivity | exact Hl]. }
    destruct (client_get_symbol_ticker ex (calls w) (name ++ coin)) as [s | e];
      [| exact Hnext].
    destruct (Decimal_of_string s) as [price | e]; [| exact Hnext].
    destruct (mul amount price) as [v' | e]; [| exact Hnext].
    exists v', [GetSymbolTicker (name ++ coin)].
    split; [reflexivity | repeat constructor].
Qed.

Lemma usdt_value_run name amount w :
  exists v l,
    usdt_value ex name amount w
    = (Ok v, {| pending_orders := pending_orders w;
                calls := calls w ++ l;
                sent := sent w |})
    /\ lookups l.
Proof.
  unfold usdt_value. destruct (existsb _ _); [| apply value_loop_run].
  exists amount, []. rewrite app_nil_r. destruct w. split; [reflexivity | constructor].
Qed.

Lemma balances_loop_run items : forall acc w,
  exists r l,
    balances_loop ex items acc w
    = (r, {| pending_orders := pending_orders w;
             calls := calls w ++ l;
             sent := sent w |})
    /\ lookups l.
Proof.
  induction items as [| [name free_s] rest IH]; intros acc w.
  - exists (Ok acc), []. rewrite app_nil_r. destruct w.
    split; [reflexivity | constructor].
  - assert (Hstop : forall e : exn, exists r l,
               (@Raise (list Balance) e, w)
               = (r, {| pending_orders := pending_orders w;
                        calls := calls w ++ l;
                        sent := sent w |}) /\ lookups l).
    { intros e. exists (Raise e), []. rewrite app_nil_r. destruct w.
      split; [reflexivity | constructor]. }
    cbn [balances_loop]. unfold bind at 1, lift at 1.
    destruct (Decimal_of_string free_s) as [amount | e]; [| apply Hstop].
    unfold bind at 1, lift at 1.
    destruct (gt amount (Finite false 1 (-4))) as [[] | e];
      [| apply IH | apply Hstop].
    unfold bind at 1.
    destruct (usdt_value_run name amount w) as (v & l1 & -> & Hl1).
    match goal with |- context [balances_loop ex rest ?acc' ?w'] =>
      destruct (IH acc' w') as (r & l2 & -> & Hl2)
    end.
    exists r, (l1 ++ l2)%list. cbn [pending_orders calls sent].
    rewrite <- app_assoc. split; [reflexivity |].
    apply List.Forall_app. split; assumption.
Qed.

Lemma balances_loop_holdings items : forall acc w l w',
  balances_loop ex items acc w = (Ok l, w') ->
  map holding l = (map holding acc ++ above_dust items)%list.
Proof.
  induction items as [| [name free_s] rest IH]; intros acc w l w'.
  - cbn. intros [= <- _]. rewrite app_nil_r. reflexivity.
  - cbn [balances_loop above_dust]. unfold bind at 1, lift at 1.
    destruct (Decimal_of_string free_s) as [amount | e]; [| discriminate].
    unfold bind at 1, lift at 1.
    destruct (gt amount (Finite false 1 (-4))) as [[] | e];
      [| apply IH | discriminate].
    unfold bind at 1.
    destruct (usdt_value ex name amount w) as [[v | e] w1]; [| discriminate].
    intros H. apply IH in H. rewrite H, map_app. cbn [map holding asset free].
    rewrite <- app_assoc. reflexivity.
Qed.

(** What a run of [get_all_balances] comes to. *)
Lemma get_all_balances_run w :
  exists r l,
    get_all_balances ex w
    = (Ok r, {| pending_orders := pending_orders w;
                calls := calls w ++ GetAccount :: l;
                sent := sent w |})
    /\ lookups l
    /\ (forall listing, r = Some listing ->
          exists items,
            client_get_account ex (calls w) = Ok items
            /\ Permutation (map holding listing) (above_dust items)
            /\ StronglySorted by_value listing).
Proof.
  unfold get_all_balances, try_except, bind at 1, call.
  destruct (client_get_account ex (calls w)) as [items | e].
  - unfold bind at 1.
    destruct (balances_loop_run items [] (log w GetAccount)) as (r & l & Hrun & Hl).
    rewrite Hrun. cbn [log pending_orders calls sent]. rewrite <- app_assoc.
    cbn [app].
    destruct r as [balances | e].
    + unfold bind, lift, ret.
      destruct (sorted_by_value balances) as [sorted | e] eqn:Hs.
      * exists (Some sorted), l. split; [reflexivity |]. split; [exact Hl |].
        intros listing [= <-]. exists items. split; [reflexivity |].
        apply balances_loop_holdings in Hrun. cbn in Hrun.
        apply sorted_by_value_ordered in Hs as [Hperm Hsorted].
        split; [| exact Hsorted].
        rewrite <- Hrun. apply Permutation_map. symmetry. exact Hperm.
      * exists None, l. split; [reflexivity |]. split; [exact Hl |]. discriminate.
    + exists None, l. split; [reflexivity |]. split; [exact Hl |]. discriminate.
  - exists None, []. split; [reflexivity |]. split; [constructor | discriminate].
Qed.


(** X13: the listing holds, with its asset name and parsed free amount,
    each item of the account whose free amount is above 0.0001, and
    nothing else. *)
Theorem listing_holds_everything_above_dust w l w' :
  get_all_balances ex w = (Ok (Some l), w') ->
  exists items,
    client_get_account ex (calls w) = Ok items
    /\ Permutation (map holding l) (above_dust items).
Proof.
  intros H. destruct (get_all_balances_run w) as (r & cs & Hrun & _ & Hlist).
  rewrite Hrun in H. injection H as -> _.
  destruct (Hlist l eq_refl) as (items & Hacc & Hperm & _). eauto.
Qed.

(** X14: the listing is in the order of its sort keys: for every entry
    and every later one, the value of the first, negated under the
    context, is not above that of the second (largest value first). *)
Theorem listing_in_key_order w l w' :
  get_all_balances ex w = (Ok (Some l), w') -> StronglySorted by_value l.
Proof.
  intros H. destruct (get_all_balances_run w) as (r & cs & Hrun & _ & Hlist).
  rewrite Hrun in H. injection H as -> _.
  destruct (Hlist l eq_refl) as (items & _ & _ & Hsorted). exact Hsorted.
Qed.

(** X15: [get_all_balances] never raises, sends nothing and leaves the
    pending orders alone; it logs the account lookup and then lookups
    only.  When the account lookup raises it returns None after that one
    call. *)
Theorem balances_frame w :
  exists r l,
    get_all_balances ex w
    = (Ok r, {| pending_orders := pending_orders w;
                calls := calls w ++ GetAccount :: l;
                sent := sent w |})
    /\ lookups l
    /\ (forall e, client_get_account ex (calls w) = Raise e -> r = None /\ l = []).
Proof.
  destruct (get_all_balances_run w) as (r & l & Hrun & Hl & _).
  exists r, l. split; [exact Hrun |]. split; [exact Hl |].
  intros e He. revert Hrun.
  unfold get_all_balances, try_except, bind at 1, call. rewrite He.
  unfold ret, log. intros [= <- Hcalls].
  apply app_inv_head in Hcalls. injection Hcalls as <-. auto.
Qed.

Lemma quantize_cents_refuses s c e :
  c <> 0%N -> 6 <= adjusted c e ->
  quantize (Finite s c e) (Finite false 1 (-2)) = Raise InvalidOperation.
Proof.
  intros Hc Hbig. unfold quantize. cbn [check_nans].
  change (negb ((Etiny <=? -2) && (-2 <=? Emax))) with false. cbv iota.
  destruct (N.eqb_spec c 0); [contradiction |].
  destruct (Emax <? adjusted c e); [reflexivity |].
  destruct (Z.ltb_spec prec (adjusted c e - -2 + 1)); [reflexivity |].
  unfold prec in *. lia.
Qed.

Lemma portfolio_loop_breaks item e0 balances : forall lines total,
  In item balances ->
  existsb (String.eqb (asset item)) stablecoins = false ->
  quantize (value item) (Finite false 1 (-2)) = Raise e0 ->
  exists e, portfolio_loop balances lines total = Raise e.
Proof.
  induction balances as [| b rest IH]; intros lines total Hin Hcoin Hq;
    [destruct Hin |].
  cbn [portfolio_loop].
  destruct (normalize (free b)) as [amount | e]; [| eexists; reflexivity].
  cbn [rbind].
  destruct Hin as [-> | Hin].
  - rewrite Hcoin, Hq. eexists; reflexivity.
  - destruct (if existsb (String.eqb (asset b)) stablecoins then Ok None
              else rbind (quantize (value b) (Finite false 1 (-2)))
                         (fun v => Ok (Some v))) as [shown | e];
      [| eexists; reflexivity].
    cbn [rbind].
    destruct (add total (value b)) as [total' | e]; [| eexists; reflexivity].
    cbn [rbind]. apply IH; assumption.
Qed.

(** X16: [show_balance] never raises; it answers with one text, stores
    nothing and logs the account lookup and then lookups only. *)
Theorem balance_command_frame w :
  exists reply l,
    show_balance ex w
    = (Ok reply, {| pending_orders := pending_orders w;
                    calls := calls w ++ GetAccount :: l;
                    sent := sent w |})
    /\ lookups l.
Proof.
  unfold show_balance, try_except, bind at 1.
  destruct (get_all_balances_run w) as (r & l & -> & Hl & _).
  destruct r as [[| b bs] |]; try (eexists; exists l; split; [reflexivity | exact Hl]).
  unfold bind, lift, ret.
  destruct (portfolio_loop (b :: bs) [] (Finite false 0 0)) as [[lines total] | e];
    [| eexists; exists l; split; [reflexivity | exact Hl]].
  cbn [fst snd].
  destruct (quantize total (Finite false 1 (-2)));
    eexists; exists l; (split; [reflexivity | exact Hl]).
Qed.

(** X17: when no item of the account has a free amount above 0.0001 (or
    the account lookup fails), [show_balance] answers that the balances
    could not be fetched. *)
Theorem dust_only_reads_unavailable w :
  (forall items, client_get_account ex (calls w) = Ok items ->
                 above_dust items = []) ->
  fst (show_balance ex w) = Ok BalancesUnavailable.
Proof.
  intros Hdust. unfold show_balance, try_except, bind at 1.
  destruct (get_all_balances_run w) as (r & l & -> & _ & Hlist).
  destruct r as [[| b bs] |]; try reflexivity.
  destruct (Hlist _ eq_refl) as (items & Hacc & Hperm & _).
  rewrite (Hdust items Hacc) in Hperm.
  apply Permutation_nil_r in Hperm. discriminate.
Qed.

(** X18: when the listing holds an asset other than USDT and USDC whose
    value is a million or more, [show_balance] answers with its error
    text: the value does not fit two decimals in eight digits. *)
Theorem large_value_breaks_balance w l item s c e :
  fst (get_all_balances ex w) = Ok (Some l) ->
  In item l ->
  existsb (String.eqb (asset item)) stablecoins = false ->
  value item = Finite s c e -> c <> 0%N -> 6 <= adjusted c e ->
  fst (show_balance ex w) = Ok BalancesError.
Proof.
  intros Hl Hin Hcoin Hv Hc Hbig.
  unfold show_balance, try_except, bind at 1.
  destruct (get_all_balances ex w) as [r w1]. simpl in Hl. subst r.
  destruct l as [| b bs]; [destruct Hin |].
  unfold bind, lift, ret.
  destruct (portfolio_loop_breaks item InvalidOperation (b :: bs) []
              (Finite false 0 0) Hin Hcoin) as [e' ->]; [| reflexivity].
  rewrite Hv. apply quantize_cents_refuses; assumption.
Qed.

End Listing.

(** ** The price command *)

(** [quantize] of a number gives the exponent of its second operand. *)
Lemma quantize_exponent a sb cb t r :
  is_nan a = false ->
  quantize a (Finite sb cb t) = Ok r ->
  exists s c, r = Finite s c t.
Proof.
  destruct a as [s c e | s | s g]; [| discriminate | discriminate].
  intros _. unfold quantize. cbn [check_nans].
  destruct (Z.leb_spec Etiny t) as [Hlo |]; [| discriminate].
  destruct (Z.leb_spec t Emax) as [Hhi |]; [| discriminate]. cbn [andb negb].
  destruct (N.eqb_spec c 0) as [-> | Hc].
  - cbn [fix_ N.eqb]. intros [= <-]. exists s, 0%N. f_equal. lia.
  - destruct (Emax <? adjusted c e); [discriminate |].
    destruct (prec <? adjusted c e - t + 1); [discriminate |].
    assert (Hres : exists c', rescale s c e t = Finite s c' t).
    { unfold rescale. destruct (c =? 0)%N; [eauto |].
      destruct (t <=? e); eauto. }
    destruct Hres as [c' ->].
    destruct (Emax <? adjusted c' t); [discriminate |].
    destruct (Z.ltb_spec prec (ndigits c')) as [| Hd]; [discriminate |].
    destruct (N.eqb_spec c' 0) as [-> | Hc'].
    + cbn [fix_ N.eqb]. intros [= <-]. exists s, 0%N. f_equal. lia.
    + intros Hfix.
      destruct (fix_cases _ _ _ _ Hlo Hfix)
        as [(H0 & _) | [(_ & ->) | (c'' & e'' & _ & _ & _ & Hbig)]];
        [contradiction | eauto | lia].
Qed.

Lemma gt_not_nan a b v : gt a b = Ok v -> is_nan a = false.
Proof. unfold gt. destruct (is_nan a); [discriminate | reflexivity]. Qed.

(** X19: a price text has two decimals when the price is above 100, four
    when it is above 1 and not above 100, and six otherwise. *)
Theorem format_price_decimals price r :
  format_price price = Ok r ->
  exists s c,
    (gt price (Finite false 100 0) = Ok true /\ r = Finite s c (-2))
    \/ (gt price (Finite false 100 0) = Ok false
        /\ gt price (Finite false 1 0) = Ok true /\ r = Finite s c (-4))
    \/ (gt price (Finite false 100 0) = Ok false
        /\ gt price (Finite false 1 0) = Ok false /\ r = Finite s c (-6)).
Proof.
  unfold format_price.
  destruct (gt price (Finite false 100 0)) as [[] | e] eqn:H100;
    cbn [rbind]; [| | discriminate].
  - intros Hq. apply quantize_exponent in Hq as (s & c & ->);
      [| exact (gt_not_nan _ _ _ H100)]. exists s, c. auto.
  - destruct (gt price (Finite false 1 0)) as [[] | e] eqn:H1;
      cbn [rbind]; [| | discriminate];
      intros Hq; apply quantize_exponent in Hq as (s & c & ->);
      try exact (gt_not_nan _ _ _ H100); exists s, c; auto.
Qed.

(** A price of a million or more is above 100. *)
Lemma million_above_100 c e :
  c <> 0%N -> 6 <= adjusted c e ->
  gt (Finite false c e) (Finite false 100 0) = Ok true.
Proof.
  intros Hc Hbig. unfold gt. cbn [is_nan orb cmp].
  assert (Hlt : fin_compare false 100 0 false c e = Lt).
  { pose proof (Z.le_min_l 0 e). pose proof (Z.le_min_r 0 e).
    set (m := Z.min 0 e) in *. clearbody m.
    apply (fin_lt_iff _ _ _ _ m); [lia | lia |].
    destruct (ndigits_bounds c) as (HL & Hlo & _); [lia |].
    unfold adjusted in Hbig.
    apply N.lt_le_trans with (pow10 (6 + (0 - m))).
    - rewrite pow10_add by lia. apply N.mul_lt_mono_pos_r; [apply pow10_pos |].
      reflexivity.
    - apply N.le_trans with (pow10 ((ndigits c - 1) + (e - m))).
      + apply pow10_mono. lia.
      + rewrite pow10_add by lia. apply N.mul_le_mono_r. exact Hlo. }
  pose proof (cmp_antisym (Finite false 100 0) (Finite false c e)) as Ha.
  cbn [cmp] in Ha. rewrite Ha, Hlt. reflexivity.
Qed.

Lemma fix_raises d e : fix_ d = Raise e -> e = Overflow.
Proof.
  unfold fix_. destruct d as [s c x | |]; try discriminate.
  destruct (c =? 0)%N; [discriminate |].
  destruct (Etop <? _); [intros [= <-]; reflexivity |].
  destruct (x <? _); [| discriminate].
  destruct (prec <? _); (destruct (Etop <? _); [intros [= <-]; reflexivity | discriminate]).
Qed.

Lemma quantize_raises a b e :
  quantize a b = Raise e -> e = InvalidOperation \/ e = Overflow.
Proof.
  unfold quantize, check_nans.
  destruct a as [s c x | s | s [|]], b as [s' c' t | s' | s' [|]];
    try (intros [= <-]; auto); try discriminate.
  destruct (negb _); [intros [= <-]; auto |].
  destruct (c =? 0)%N; [intros H; right; exact (fix_raises _ _ H) |].
  destruct (Emax <? _); [intros [= <-]; auto |].
  destruct (prec <? _); [intros [= <-]; auto |].
  destruct (rescale s c x t) as [s1 c1 e1 | |]; try discriminate.
  destruct (Emax <? _); [intros [= <-]; auto |].
  destruct (prec <? _); [intros [= <-]; auto |].
  intros H; right; exact (fix_raises _ _ H).
Qed.

(** The price text fails with a signal of the decimal context only. *)
Lemma format_price_raises price e :
  format_price price = Raise e -> e = InvalidOperation \/ e = Overflow.
Proof.
  assert (Hgt : forall a b e', gt a b = Raise e' -> e' = InvalidOperation).
  { intros a b e'. unfold gt. destruct (_ || _); [| discriminate].
    intros [= <-]. reflexivity. }
  unfold format_price.
  destruct (gt price (Finite false 100 0)) as [[] | e0] eqn:H100; cbn [rbind].
  - apply quantize_raises.
  - destruct (gt price (Finite false 1 0)) as [[] | e1] eqn:H1; cbn [rbind];
      [apply quantize_raises | apply quantize_raises |].
    intros [= <-]. left. exact (Hgt _ _ _ H1).
  - intros [= <-]. left. exact (Hgt _ _ _ H100).
Qed.

Section Info.

Variable ex : Exchange.

(** X20: [crypto_info] never raises, stores and sends nothing else, and
    logs at most one call, the ticker lookup of the upper-cased first
    argument; the usage and unsupported-pair answers come without a call.
    The answer is "pair not found" exactly when that lookup raised a
    BinanceAPIException. *)
Theorem info_frame args w :
  exists reply l,
    crypto_info ex args w
    = (Ok reply, {| pending_orders := pending_orders w;
                    calls := calls w ++ l;
                    sent := sent w |})
    /\ (l = [] \/ exists a r, args = a :: r /\ l = [GetSymbolTicker (upper a)])
    /\ (reply = InfoUsage \/ reply = InfoUnsupportedPair -> l = [])
    /\ (reply = PairNotFound <->
        exists a r m, args = a :: r
                      /\ existsb (endswith (upper a)) stablecoins = true
                      /\ client_get_symbol_ticker ex (calls w) (upper a)
                         = Raise (BinanceAPIException m)).
Proof.
  all_paths.
  all: cbn [pending_orders calls sent].
  all: eexists; eexists; split;
    [first [reflexivity | rewrite app_nil_r; destruct w; reflexivity] |].
  all: split; [first [left; reflexivity | right; eexists; eexists; split; reflexivity] |].
  all: split; [first [reflexivity | intros [H | H]; discriminate H] |].
  all: split;
    [ try discriminate
    | try (intros (a' & r' & m' & Ha & Hv & Ht); try discriminate Ha;
           injection Ha as <- <-;
           first [congruence | rewrite Hv in *; discriminate]) ].
  all: try (match goal with
            | H : Decimal_of_string _ = Raise _ |- _ =>
                apply Decimal_of_string_raises in H; discriminate H
            end).
  all: try (match goal with
            | H : format_price _ = Raise _ |- _ =>
                apply format_price_raises in H; destruct H; discriminate
            end).
  all: try (intros _; eexists; eexists; eexists; split; [reflexivity |];
            split; [| eassumption]).
  all: try (match goal with H : negb ?x = false |- ?x = true =>
              destruct x; [reflexivity | discriminate H] end).
Qed.

(** X21: for a price of a million or more [crypto_info] answers with its
    error text: the price does not fit two decimals in eight digits. *)
Theorem large_price_breaks_info a rest w s c e :
  existsb (endswith (upper a)) stablecoins = true ->
  client_get_symbol_ticker ex (calls w) (upper a) = Ok s ->
  Decimal_of_string s = Ok (Finite false c e) ->
  c <> 0%N -> 6 <= adjusted c e ->
  fst (crypto_info ex (a :: rest) w) = Ok InfoError.
Proof.
  intros Hv Hs Hp Hc Hbig.
  unfold crypto_info, try_except, bind, call, lift.
  rewrite Hv. cbn [negb]. cbv beta iota zeta. rewrite Hs, Hp.
  unfold format_price. rewrite (million_above_100 c e Hc Hbig). cbn [rbind].
  rewrite (quantize_cents_refuses false c e Hc Hbig). reflexivity.
Qed.

End Info.

(** ** The further properties at work *)

Section More_instances.

Import Scenario Cases.

(** 0.00257 by steps of 0.0001 is 0.0025: 25 steps. *)
Lemma adjusted_quantity_is_floor_witness :
  Etiny <= -4
  /\ adjust_quantity (Finite false 257 (-5)) (Finite false 1 (-4))
     = Ok (Finite false 25 (-4))
  /\ exists n : N,
       cmp (Finite false 25 (-4)) (Finite false (n * 1) (-4)) = Eq
       /\ cmp (Finite false (n * 1) (-4)) (Finite false 257 (-5)) <> Gt
       /\ cmp (Finite false 257 (-5)) (Finite false ((n + 1) * 1) (-4)) = Lt.
Proof.
  split; [vm_compute; discriminate | split; [reflexivity |]].
  apply (adjusted_quantity_is_floor 257 (-5) 1 (-4) (Finite false 25 (-4)));
    [vm_compute; discriminate | reflexivity].
Defined.

(** A confirm on an exchange whose symbols have no LOT_SIZE filter. *)
Lemma missing_rules_refuse_trade_witness :
  execute_trade ex_no_lot_size "BTCUSDT" (Finite false 2 (-3)) true start
  = (Ok (None, Some RulesUnavailable), log start (GetSymbolInfo "BTCUSDT")).
Proof.
  apply (missing_rules_refuse_trade ex_no_lot_size "BTCUSDT"
           (Finite false 2 (-3)) true start).
  intros filters lot Hinfo Hfind. injection Hinfo as <-. discriminate Hfind.
Defined.

(** [/buy 100 BTCUSDT] while the second price lookup times out. *)
Lemma order_stored_though_prompt_fails_witness :
  fst (requested_order ex_flaky ["100"; "BTCUSDT"] true start)
  = Ok (Some (btc_order (Finite false 2 (-3))))
  /\ client_get_symbol_ticker ex_flaky [GetSymbolTicker "BTCUSDT"] "BTCUSDT"
     = Raise (BinanceAPIException "Timeout")
  /\ fst (confirm_trade ex_flaky alice ["100"; "BTCUSDT"] true start) = Ok tt
  /\ pending_orders (snd (confirm_trade ex_flaky alice ["100"; "BTCUSDT"] true start))
       !! alice
     = Some (btc_order (Finite false 2 (-3)))
  /\ sent (snd (confirm_trade ex_flaky alice ["100"; "BTCUSDT"] true start))
     = [ErrorMessage (BinanceAPIException "Timeout")].
Proof.
  split; [reflexivity | split; [reflexivity |]].
  exact (order_stored_though_prompt_fails ex_flaky alice ["100"; "BTCUSDT"] true
           start (btc_order (Finite false 2 (-3)))
           (BinanceAPIException "Timeout") eq_refl eq_refl).
Defined.

(** [/sell 0.1 ETHUSDC] with 0.3 ETH free. *)
Lemma stored_order_shape_witness :
  fst (requested_order ex1 ["0.1"; "ethusdc"] false start)
  = Ok (Some {| pair := "ETHUSDC"; quantity := Finite false 1 (-1);
                is_buy := false |})
  /\ exists a p amount,
       ["0.1"; "ethusdc"] = [a; p]
       /\ Decimal_of_string a = Ok amount
       /\ "ETHUSDC" = upper p
       /\ existsb (endswith "ETHUSDC") stablecoins = true
       /\ false = false
       /\ (false = false ->
           Finite false 1 (-1) = amount
           /\ exists balance,
                fst (get_asset_balance ex1 (base_asset "ETHUSDC") start) = Ok balance
                /\ gt amount balance = Ok false)
       /\ (false = true ->
           exists s price,
             client_get_symbol_ticker ex1 [] "ETHUSDC" = Ok s
             /\ Decimal_of_string s = Ok price
             /\ div amount price = Ok (Finite false 1 (-1))).
Proof.
  split; [reflexivity |].
  exact (stored_order_shape ex1 ["0.1"; "ethusdc"] false start
           {| pair := "ETHUSDC"; quantity := Finite false 1 (-1); is_buy := false |}
           eq_refl).
Defined.

(** The confirm press of user 7 on the waiting BTCUSDT order. *)
Lemma button_orders_what_was_stored_witness :
  calls (snd (handle_button ex1 alice "confirm_BTCUSDT" (waiting (Finite false 2 (-3)))))
  = [GetSymbolInfo "BTCUSDT"; OrderMarketBuy "BTCUSDT" (Finite false 20 (-4))]
  /\ exists o rules r,
       pending_orders (waiting (Finite false 2 (-3))) !! alice = Some o
       /\ split "confirm_BTCUSDT" "_" !! 1%nat = Some (pair o)
       /\ fst (check_symbol_rules ex1 (pair o)
                 (say (waiting (Finite false 2 (-3))) Processing))
          = Ok (Some rules)
       /\ adjust_quantity (quantity o) (step_size rules) = Ok r
       /\ lt r (min_qty rules) = Ok false
       /\ OrderMarketBuy "BTCUSDT" (Finite false 20 (-4))
          = order_call (is_buy o) (pair o) r.
Proof.
  split; [reflexivity |].
  apply (button_orders_what_was_stored ex1 alice "confirm_BTCUSDT"
           (waiting (Finite false 2 (-3)))
           [GetSymbolInfo "BTCUSDT"; OrderMarketBuy "BTCUSDT" (Finite false 20 (-4))]
           (OrderMarketBuy "BTCUSDT" (Finite false 20 (-4))));
    [reflexivity | right; left; reflexivity | reflexivity].
Defined.

(** The button of a prompt for BTC_USDT. *)
Lemma underscore_pair_never_confirms_witness :
  pending_orders waiting_underscore !! alice = Some underscore_order
  /\ has_char "_" "BTC_USDT" = true
  /\ handle_button ex1 alice "confirm_BTC_USDT" waiting_underscore
     = (Ok tt, say waiting_underscore Expired).
Proof.
  split; [reflexivity | split; [reflexivity |]].
  exact (underscore_pair_never_confirms ex1 alice underscore_order
           waiting_underscore eq_refl eq_refl).
Defined.

(** [/buy 100 BTCUSDT], then the button of the prompt. *)
Lemma prompt_button_runs_stored_order_witness :
  fst (requested_order ex1 ["100"; "BTCUSDT"] true start)
  = Ok (Some (btc_order (Finite false 2 (-3))))
  /\ has_char "_" "BTCUSDT" = false
  /\ exists out w2,
       execute_trade ex1 "BTCUSDT" (Finite false 2 (-3)) true
         (say (snd (confirm_trade ex1 alice ["100"; "BTCUSDT"] true start)) Processing)
       = (Ok out, w2)
       /\ handle_button ex1 alice "confirm_BTCUSDT"
            (snd (confirm_trade ex1 alice ["100"; "BTCUSDT"] true start))
          = match out with
            | (Some order, _) =>
                match fills order with
                | Some [] => (Raise IndexError, w2)
                | Some (fill :: _) =>
                    (Ok tt, say w2 (TradeDone true (symbol order)
                                      (executedQty order) (default "N/A" fill)
                                      (cummulativeQuoteQty order)))
                | None =>
                    (Ok tt, say w2 (TradeDone true (symbol order)
                                      (executedQty order) "N/A"
                                      (cummulativeQuoteQty order)))
                end
            | (None, error) => (Ok tt, say w2 (TradeFailed error))
            end.
Proof.
  split; [reflexivity | split; [reflexivity |]].
  exact (prompt_button_runs_stored_order ex1 alice ["100"; "BTCUSDT"] true start
           (btc_order (Finite false 2 (-3))) eq_refl eq_refl).
Defined.

(** The listing of the concrete account. *)
Lemma listing_holds_everything_above_dust_witness :
  get_all_balances ex1 start = (Ok (Some listing1), listed1)
  /\ exists items,
       client_get_account ex1 [] = Ok items
       /\ Permutation (map holding listing1) (above_dust items).
Proof.
  split; [vm_compute; reflexivity |].
  apply (listing_holds_everything_above_dust ex1 start listing1 listed1).
  vm_compute. reflexivity.
Defined.

Lemma listing_in_key_order_witness :
  get_all_balances ex1 start = (Ok (Some listing1), listed1)
  /\ StronglySorted by_value listing1.
Proof.
  split; [vm_compute; reflexivity |].
  apply (listing_in_key_order ex1 start listing1 listed1).
  vm_compute. reflexivity.
Defined.

(** An account that holds 0.00001 BTC and 0.0001 USDT. *)
Lemma dust_only_reads_unavailable_witness :
  above_dust [("BTC", "0.00001"); ("USDT", "0.0001")] = []
  /\ fst (show_balance ex_dust start) = Ok BalancesUnavailable.
Proof.
  split; [reflexivity |].
  apply (dust_only_reads_unavailable ex_dust start).
  intros items Hitems. injection Hitems as <-. reflexivity.
Defined.

(** 30 BTC at 50000 are worth 1500000. *)
Lemma large_value_breaks_balance_witness :
  fst (get_all_balances ex_rich start)
  = Ok (Some [ {| asset := "BTC"; free := Finite false 30 0;
                  value := Finite false 1500000 0 |};
               {| asset := "USDT"; free := Finite false 125 (-1);
                  value := Finite false 125 (-1) |} ])
  /\ 6 <= adjusted 1500000 0
  /\ fst (show_balance ex_rich start) = Ok BalancesError.
Proof.
  split; [vm_compute; reflexivity |]. split; [vm_compute; discriminate |].
  apply (large_value_breaks_balance ex_rich start
           [ {| asset := "BTC"; free := Finite false 30 0;
                value := Finite false 1500000 0 |};
             {| asset := "USDT"; free := Finite false 125 (-1);
                value := Finite false 125 (-1) |} ]
           {| asset := "BTC"; free := Finite false 30 0;
              value := Finite false 1500000 0 |}
           false 1500000%N 0).
  - vm_compute. reflexivity.
  - left. reflexivity.
  - reflexivity.
  - reflexivity.
  - discriminate.
  - vm_compute. discriminate.
Defined.

(** 50000 is shown as 50000.00, 3.14159 as 3.1416. *)
Lemma format_price_decimals_witness :
  format_price (Finite false 50000 0) = Ok (Finite false 5000000 (-2))
  /\ exists s c,
       (gt (Finite false 50000 0) (Finite false 100 0) = Ok true
        /\ Finite false 5000000 (-2) = Finite s c (-2))
       \/ (gt (Finite false 50000 0) (Finite false 100 0) = Ok false
           /\ gt (Finite false 50000 0) (Finite false 1 0) = Ok true
           /\ Finite false 5000000 (-2) = Finite s c (-4))
       \/ (gt (Finite false 50000 0) (Finite false 100 0) = Ok false
           /\ gt (Finite false 50000 0) (Finite false 1 0) = Ok false
           /\ Finite false 5000000 (-2) = Finite s c (-6)).
Proof.
  split; [reflexivity |].
  exact (format_price_decimals (Finite false 50000 0) (Finite false 5000000 (-2))
           eq_refl).
Defined.

(** [/info btcusdt] at a price of 1000000. *)
Lemma large_price_breaks_info_witness :
  Decimal_of_string "1000000" = Ok (Finite false 1000000 0)
  /\ 6 <= adjusted 1000000 0
  /\ fst (crypto_info ex_million ["btcusdt"] start) = Ok InfoError.
Proof.
  split; [reflexivity |]. split; [vm_compute; discriminate |].
  apply (large_price_breaks_info ex_million "btcusdt" [] start "1000000"
           1000000%N 0);
    [reflexivity | reflexivity | reflexivity | discriminate
    | vm_compute; discriminate].
Defined.

End More_instances.
